(** * file-sender: the upload pipeline

    A shallow embedding of the two halves of the repository's upload
    pipeline,

    - [supabase/functions/upload/index.ts], the ingestion handler, and
    - [src/components/FileUploader.tsx], the client-side upload queue,

    followed by the properties the specification states about them.

    JavaScript strings are modelled by [string], integral Numbers by [Z],
    arrays by [list], the object store and the browser's timer table by
    finite maps. *)

From Stdlib Require Import ZArith NArith List String Ascii Bool Lia.
From Stdlib Require Import DecimalString DecimalZ.
From stdpp Require Import gmap strings.

Import ListNotations.

(* ================================================================== *)
(** * Built-ins both programs rely on *)
(* ================================================================== *)

Module JS.

(** The Web [File] as far as the programs read it: [file.name],
    [file.size], [file.type]. *)
Record File := mkFile { name : string; size : Z; type : string }.

(** A value caught by [catch (error)]: either an [Error] instance, which
    carries a [message], or anything else. *)
Inductive Thrown :=
| ErrorObject (message : string)
| OtherValue.

(** [error instanceof Error ? error.message : fallback] *)
Definition messageOr (fallback : string) (error : Thrown) : string :=
  match error with
  | ErrorObject message => message
  | OtherValue => fallback
  end.

(** Truthiness of a string: only the empty string is falsy. *)
Definition truthy (s : string) : bool :=
  match s with
  | EmptyString => false
  | String _ _ => true
  end.

(** An integral Number inside a template literal: decimal digits, with a
    leading minus sign below zero. *)
Definition numberToString (z : Z) : string :=
  NilZero.string_of_int (Z.to_int z).

(** [s.substring(start, end)]: the two indices are swapped when
    [start > end] and clamped to the length of [s]. *)
Definition substring (start end_ : nat) (s : string) : string :=
  let lo := Nat.min start end_ in
  let hi := Nat.max start end_ in
  String.substring lo (hi - lo) s.

(** [s.replace(/[^...]/g, r)] for a one-character class [keep] and a
    one-character replacement: every character outside the class is
    replaced, all others stay. *)
Fixpoint replaceOutside (keep : ascii -> bool) (r : ascii) (s : string) : string :=
  match s with
  | EmptyString => EmptyString
  | String c s' =>
      String (if keep c then c else r) (replaceOutside keep r s')
  end.

Fixpoint all (p : ascii -> bool) (s : string) : bool :=
  match s with
  | EmptyString => true
  | String c s' => p c && all p s'
  end.

Definition between (lo hi c : ascii) : bool :=
  (nat_of_ascii lo <=? nat_of_ascii c)%nat && (nat_of_ascii c <=? nat_of_ascii hi)%nat.

(** [\d] *)
Definition isDigit (c : ascii) : bool := between "0" "9" c.

(** [[0-9a-z]] *)
Definition isBase36 (c : ascii) : bool := between "0" "9" c || between "a" "z" c.

(** The digits [Number.prototype.toString] uses for radix 36. *)
Definition radix36 : string := "0123456789abcdefghijklmnopqrstuvwxyz".

Definition digit36 (d : N) : ascii :=
  match String.get (N.to_nat d) radix36 with
  | Some c => c
  | None => "z"%char
  end.

(** A value [Math.random()] can return: a double in [0, 1), that is the
    dyadic rational [numerator / 2 ^ exponent]. *)
Record Fraction := mkFraction {
  numerator : N;
  exponent : N;
  below_one : (numerator <? 2 ^ exponent)%N = true
}.

(** A double that is not negative: the pair [(m, e)] stands for
    [m / 2 ^ e]. *)
Definition Double : Type := N * N.

(** The double nearest to [m / 2 ^ e], a tie going to the even
    significand: 53 significant bits, and no binary place beyond the
    1074th. *)
Definition nearestDouble (m e : N) : Double :=
  let drop := N.max (N.size m - 53) (e - 1074) in
  if (drop =? 0)%N then (m, e)
  else
    let kept := N.shiftr m drop in
    let rest := (m - N.shiftl kept drop)%N in
    let half := N.shiftl 1 (drop - 1) in
    if (half <? rest)%N || ((rest =? half)%N && N.odd kept)
    then (kept + 1, e - drop)%N
    else (kept, e - drop)%N.

Definition compareDouble (a b : Double) : comparison :=
  (fst a * 2 ^ snd b ?= fst b * 2 ^ snd a)%N.

(** [a * 36] and [a + b], rounded as the machine rounds them. *)
Definition times36 (a : Double) : Double := nearestDouble (fst a * 36) (snd a).

Definition plusDouble (a b : Double) : Double :=
  nearestDouble (fst a * 2 ^ snd b + fst b * 2 ^ snd a) (snd a + snd b).

(** [static_cast<int>(a)], and [a] less that integer. *)
Definition truncated (a : Double) : N := (fst a / 2 ^ snd a)%N.

Definition fractional (a : Double) : Double := (fst a mod 2 ^ snd a, snd a)%N.

(** Half the distance from [value] to the next double, and no less than
    the smallest double. *)
Definition halfUlp (value : Double) : Double :=
  if (fst value =? 0)%N then (1, 1074)%N
  else (1, N.min (snd value - N.log2 (fst value) + 53) 1074)%N.

(** The carry-over into the digits written so far, the last one first:
    trailing digits [z] are dropped and the digit before them is raised.
    [None] when the carry goes into the integer part. *)
Fixpoint carryOver (written : list N) : option (list N) :=
  match written with
  | [] => None
  | digit :: before =>
      if (digit + 1 <? 36)%N then Some ((digit + 1)%N :: before)
      else carryOver before
  end.

(** The digits after the point, the last one first, as the engine (V8,
    [DoubleToRadixCString]) writes them: a digit is taken off [fraction]
    until what is left is below [delta], the precision of the double,
    which grows with every digit; when the rest is above one half (or is
    one half after an odd digit) and within [delta] of one, the digits
    are rounded up and the loop ends. *)
Fixpoint fractionDigits (fuel : nat) (fraction delta : Double) (written : list N)
  : option (list N) :=
  match fuel with
  | O => Some written
  | S fuel' =>
      let shifted := times36 fraction in
      let delta' := times36 delta in
      let digit := truncated shifted in
      let fraction' := fractional shifted in
      let written' := digit :: written in
      let aboveHalf :=
        match compareDouble fraction' (1, 1)%N with
        | Gt => true
        | Eq => N.odd digit
        | Lt => false
        end in
      let reachesOne :=
        match compareDouble (plusDouble fraction' delta') (1, 0)%N with
        | Gt => true
        | _ => false
        end in
      if aboveHalf && reachesOne then carryOver written'
      else
        match compareDouble fraction' delta' with
        | Lt => Some written'
        | _ => fractionDigits fuel' fraction' delta' written'
        end
  end.

(** The characters of the digits written. *)
Definition digitsText (written : list N) : string :=
  fold_left (fun text digit => String (digit36 digit) text) written EmptyString.

(** The size of the engine's buffer for the digits after the point. *)
Definition digitsBuffer : nat := 1100.

(** [x.toString(36)] for a draw [x]: the integer part, which is [0]
    unless the draw rounds to the double 1 or the digits carry over, and
    after the point as many digits as tell the double from its
    neighbours, with none and no point when there is nothing to write:
    1/2 is ["0.i"], the double next to 5/9 is ["0.k"], the one next
    to 1/10 is ["0.3lllllllllm"].  The draw is taken as the double
    nearest to it, which is the draw itself when it is one. *)
Definition toString36 (x : Fraction) : string :=
  let value := nearestDouble (numerator x) (exponent x) in
  let integer := truncated value in
  let fraction := fractional value in
  let delta := halfUlp value in
  match compareDouble fraction delta with
  | Lt => String (digit36 integer) EmptyString
  | _ =>
      match fractionDigits digitsBuffer fraction delta [] with
      | Some written => String (digit36 integer) (String "." (digitsText written))
      | None => String (digit36 (integer + 1)) EmptyString
      end
  end.

(** The white space and line terminators [trim] removes, among the first
    256 code units. *)
Definition isWhiteSpace (c : ascii) : bool :=
  between "009" "013" c || Ascii.eqb c " " || Ascii.eqb c "160".

Fixpoint trimStart (s : string) : string :=
  match s with
  | EmptyString => EmptyString
  | String c rest => if isWhiteSpace c then trimStart rest else s
  end.

Fixpoint trimEnd (s : string) : string :=
  match s with
  | EmptyString => EmptyString
  | String c rest =>
      match trimEnd rest with
      | EmptyString => if isWhiteSpace c then EmptyString else String c EmptyString
      | kept => String c kept
      end
  end.

(** [s.trim()] *)
Definition trim (s : string) : string := trimEnd (trimStart s).

(** The letters [A] to [Z] in lower case, as the flag [i] of a regular
    expression needs them. *)
Fixpoint lowerCase (s : string) : string :=
  match s with
  | EmptyString => EmptyString
  | String c rest =>
      String (if between "A" "Z" c then ascii_of_nat (nat_of_ascii c + 32) else c)
             (lowerCase rest)
  end.

End JS.

(* ================================================================== *)
(** * The ingestion handler ([supabase/functions/upload/index.ts]) *)
(* ================================================================== *)

Module Ingest.
Import JS.

Definition corsHeaders : list (string * string) :=
  [ ("Access-Control-Allow-Origin", "*");
    ("Access-Control-Allow-Headers",
     "authorization, x-client-info, apikey, content-type") ].

(** What [formData.get] can return for a field: a file part or a text
    part ([null] is [None]). *)
Inductive FormDataEntryValue :=
| FilePart (f : File)
| TextPart (s : string).

(** The request body as [req.formData()] sees it: the fields in order, or
    a body that cannot be parsed, in which case the call throws. *)
Inductive Body :=
| Multipart (fields : list (string * FormDataEntryValue))
| Unparsable (error : Thrown).

Record Request := mkRequest { method : string; body : Body }.

(** [formData.get(name)]: the first field of that name. *)
Fixpoint get (key : string) (fields : list (string * FormDataEntryValue))
  : option FormDataEntryValue :=
  match fields with
  | [] => None
  | (k, v) :: rest => if String.eqb k key then Some v else get key rest
  end.

(** The JSON documents the handler sends. *)
Inductive Json :=
| ErrorJson (error : string)
| SuccessJson (message : string) (name : string) (size : Z)
              (type : string) (path : string) (url : string).

Record Response := mkResponse {
  status : Z;
  headers : list (string * string);
  payload : option Json
}.

Definition jsonResponse (code : Z) (doc : Json) : Response :=
  {| status := code;
     headers := corsHeaders ++ [("Content-Type", "application/json")];
     payload := Some doc |}.

(** An object of the bucket. *)
Record StoredObject := mkStoredObject { content : File; contentType : string }.

(** Modelled from the spec: the object store is an external collaborator
    with the contract [put(name, bytes, contentType, overwrite) ->
    {path} | error].  A write that may not overwrite fails on a name that
    is taken; the store may also refuse a write for reasons of its own
    ([refusal]).  A failed write leaves the bucket as it was. *)
Definition upload (bucket : gmap string StoredObject) (refusal : option string)
    (path : string) (f : File) (contentType : string) (upsert : bool)
  : gmap string StoredObject * (string + string) :=
  match refusal with
  | Some message => (bucket, inl message)
  | None =>
      match bucket !! path with
      | Some _ =>
          if upsert
          then (<[path := mkStoredObject f contentType]> bucket, inr path)
          else (bucket, inl "The resource already exists")
      | None => (<[path := mkStoredObject f contentType]> bucket, inr path)
      end
  end.

(** Modelled from the spec: [publicUrl(name) -> url], the address of an
    object of the public bucket [uploads]. *)
Definition getPublicUrl (supabaseUrl path : string) : string :=
  supabaseUrl +:+ "/storage/v1/object/public/uploads/" +:+ path.

(** [/^https?:\/\//i] *)
Definition isHttpUrl (url : string) : bool :=
  String.prefix "http://" (lowerCase url) || String.prefix "https://" (lowerCase url).

(** [createClient(supabaseUrl, supabaseKey)] of supabase-js 2, as far as
    it can throw: the URL is trimmed; a missing or empty one is refused,
    then one that does not begin with [http://] or [https://], then a
    missing or empty key; otherwise the client is bound to the trimmed
    URL.  A URL with the right beginning that the URL parser cannot read
    is refused as well; the parser is not modelled. *)
Definition createClient (supabaseUrl supabaseKey : option string) : Thrown + string :=
  match supabaseUrl with
  | None => inl (ErrorObject "supabaseUrl is required.")
  | Some url =>
      let trimmedUrl := trim url in
      if negb (truthy trimmedUrl) then inl (ErrorObject "supabaseUrl is required.")
      else if negb (isHttpUrl trimmedUrl)
      then inl (ErrorObject "Invalid supabaseUrl: Must be a valid HTTP or HTTPS URL.")
      else
        match supabaseKey with
        | None => inl (ErrorObject "supabaseKey is required.")
        | Some key =>
            if negb (truthy key) then inl (ErrorObject "supabaseKey is required.")
            else inr trimmedUrl
        end
  end.

(** Everything one invocation reads from outside the request: the two
    environment variables, the clock, the random source, the bucket and
    whether the store is going to refuse the write. *)
Record World := mkWorld {
  SUPABASE_URL : option string;
  SUPABASE_SERVICE_ROLE_KEY : option string;
  now : Z;
  random : Fraction;
  bucket : gmap string StoredObject;
  refusal : option string
}.

Definition maxSize : Z := 10 * 1024 * 1024.

(** [[a-zA-Z0-9._-]] *)
Definition isNameChar (c : ascii) : bool :=
  between "a" "z" c || between "A" "Z" c || between "0" "9" c
  || Ascii.eqb c "." || Ascii.eqb c "_" || Ascii.eqb c "-".

(** [Math.random().toString(36).substring(2, 8)] *)
Definition randomStr (r : Fraction) : string :=
  substring 2 8 (toString36 r).

(** [file.name.replace(/[^a-zA-Z0-9._-]/g, '_')] *)
Definition sanitizedName (original : string) : string :=
  replaceOutside isNameChar "_" original.

(** [`${timestamp}-${randomStr}-${sanitizedName}`] *)
Definition uniqueFileName (timestamp : Z) (r : Fraction) (original : string) : string :=
  numberToString timestamp +:+ "-" +:+ randomStr r +:+ "-" +:+ sanitizedName original.

(** The body of the [try] block.  [inl] is a thrown value, [inr] a
    returned response; the bucket after the call comes with it. *)
Definition tryBlock (w : World) (req : Request)
  : (Thrown + Response) * gmap string StoredObject :=
  match createClient (SUPABASE_URL w) (SUPABASE_SERVICE_ROLE_KEY w) with
  | inl thrown => (inl thrown, bucket w)
  | inr supabaseUrl =>
    match body req with
    | Unparsable thrown => (inl thrown, bucket w)
    | Multipart formData =>
      match get "file" formData with
      | None =>
          (inr (jsonResponse 400 (ErrorJson "No file provided")), bucket w)
      | Some (TextPart s) =>
          (* a string stands where the cast promised a File: the empty
             one is falsy, any other has no [name] to call [replace] on *)
          if negb (truthy s)
          then (inr (jsonResponse 400 (ErrorJson "No file provided")), bucket w)
          else (inl (ErrorObject
                 "Cannot read properties of undefined (reading 'replace')"),
                bucket w)
      | Some (FilePart file) =>
          if (size file >? maxSize)%Z
          then (inr (jsonResponse 400 (ErrorJson "File exceeds 10MB limit")),
                bucket w)
          else
            let path := uniqueFileName (now w) (random w) (name file) in
            match upload (bucket w) (refusal w) path file (type file) false with
            | (bucket', inl message) =>
                (inr (jsonResponse 500 (ErrorJson ("Upload failed: " +:+ message))),
                 bucket')
            | (bucket', inr stored) =>
                (inr (jsonResponse 200
                   (SuccessJson "File uploaded successfully"
                      (name file) (size file) (type file)
                      stored (getPublicUrl supabaseUrl path))),
                 bucket')
            end
      end
    end
  end.

(** The handler passed to [serve]. *)
Definition serve (w : World) (req : Request)
  : Response * gmap string StoredObject :=
  if String.eqb (method req) "OPTIONS"
  then ({| status := 200; headers := corsHeaders; payload := None |}, bucket w)
  else
    match tryBlock w req with
    | (inr response, bucket') => (response, bucket')
    | (inl error, bucket') =>
        (jsonResponse 500
           (ErrorJson (messageOr "An unexpected error occurred" error)),
         bucket')
    end.

End Ingest.

(* ================================================================== *)
(** * The upload queue ([src/components/FileUploader.tsx]) *)
(* ================================================================== *)

Module Uploader.
Import JS.

Inductive Status := pending | uploading | success | error.

Definition Status_eqb (a b : Status) : bool :=
  match a, b with
  | pending, pending | uploading, uploading
  | success, success | error, error => true
  | _, _ => false
  end.

Record UploadedFile := mkUploadedFile {
  id : string;
  file : File;
  status : Status;
  progress : Z;
  errorMessage : option string
}.

Record FileUploaderProps := mkProps {
  endpoint : string;
  maxFileSize : Z;          (* in MB *)
  acceptedTypes : list string
}.

(** The defaults of the destructured props. *)
Definition defaultProps : FileUploaderProps :=
  {| endpoint := "/api/upload"; maxFileSize := 10; acceptedTypes := ["*"] |}.

(** What [subject.match(pattern)] amounts to where only its truthiness is
    used: a match, [null], or the [SyntaxError] of a pattern that is not a
    regular expression. *)
Inductive MatchOutcome :=
| Matched
| NoMatch
| Raises (e : Thrown).

(** A response as [uploadFile] reads it. *)
Record FetchResponse := mkFetchResponse { httpStatus : Z; statusText : string }.

(** [response.ok]: the status is in the range 200-299. *)
Definition ok (response : FetchResponse) : bool :=
  (200 <=? httpStatus response)%Z && (httpStatus response <=? 299)%Z.

(** How the promise returned by [fetch] settles. *)
Inductive FetchOutcome :=
| Fulfilled (response : FetchResponse)
| Rejected (reason : Thrown).

Record Toast := mkToast { title : string; description : string; destructive : bool }.

(** The component's state and what it has done to the outside: the three
    [useState] cells that matter, the intervals that are live (handle to
    the task id its callback closes over), the bodies of the [fetch]
    calls issued, the toasts shown and the [onUploadComplete] calls. *)
Record Client := mkClient {
  files : list UploadedFile;
  isUploading : bool;
  intervals : gmap nat string;
  nextHandle : nat;
  fetched : list File;
  toasts : list Toast;
  completed : list (list UploadedFile)
}.

Definition initial : Client :=
  {| files := []; isUploading := false; intervals := ∅; nextHandle := 1%nat;
     fetched := []; toasts := []; completed := [] |}.

Definition setFiles (update : list UploadedFile -> list UploadedFile) (c : Client) : Client :=
  {| files := update (files c); isUploading := isUploading c;
     intervals := intervals c; nextHandle := nextHandle c;
     fetched := fetched c; toasts := toasts c; completed := completed c |}.

Definition setIsUploading (b : bool) (c : Client) : Client :=
  {| files := files c; isUploading := b;
     intervals := intervals c; nextHandle := nextHandle c;
     fetched := fetched c; toasts := toasts c; completed := completed c |}.

(** [setInterval(callback, 200)], the callback closing over [taskId];
    returns the handle. *)
Definition setInterval (taskId : string) (c : Client) : Client * nat :=
  ({| files := files c; isUploading := isUploading c;
      intervals := <[nextHandle c := taskId]> (intervals c);
      nextHandle := S (nextHandle c);
      fetched := fetched c; toasts := toasts c; completed := completed c |},
   nextHandle c).

Definition clearInterval (handle : nat) (c : Client) : Client :=
  {| files := files c; isUploading := isUploading c;
     intervals := delete handle (intervals c); nextHandle := nextHandle c;
     fetched := fetched c; toasts := toasts c; completed := completed c |}.

(** [fetch(endpoint, { method: 'POST', body: formData })] is issued. *)
Definition fetch (f : File) (c : Client) : Client :=
  {| files := files c; isUploading := isUploading c;
     intervals := intervals c; nextHandle := nextHandle c;
     fetched := fetched c ++ [f]; toasts := toasts c; completed := completed c |}.

Definition toast (t : Toast) (c : Client) : Client :=
  {| files := files c; isUploading := isUploading c;
     intervals := intervals c; nextHandle := nextHandle c;
     fetched := fetched c; toasts := toasts c ++ [t]; completed := completed c |}.

Definition onUploadComplete (results : list UploadedFile) (c : Client) : Client :=
  {| files := files c; isUploading := isUploading c;
     intervals := intervals c; nextHandle := nextHandle c;
     fetched := fetched c; toasts := toasts c; completed := completed c ++ [results] |}.

(** [addFiles]: one pending task per file.  Each file comes with the
    clock reading and the random draw its id is built from; [None] is the
    [null] file list. *)
Definition addFiles (newFiles : option (list (File * Z * Fraction))) (c : Client) : Client :=
  match newFiles with
  | None => c
  | Some picked =>
      let filesToAdd :=
        map (fun '(f, now, r) =>
               {| id := name f +:+ "-" +:+ numberToString now +:+ "-"
                        +:+ substring 2 (String.length (toString36 r)) (toString36 r);
                  file := f; status := pending; progress := 0;
                  errorMessage := None |}) picked in
      setFiles (fun prev => prev ++ filesToAdd) c
  end.

(** [removeFile]: [prev.filter(f => f.id !== id)] *)
Definition removeFile (taskId : string) (c : Client) : Client :=
  setFiles (List.filter (fun f => negb (String.eqb (id f) taskId))) c.

Definition clearAll (c : Client) : Client := setFiles (fun _ => []) c.

Definition pendingCount (c : Client) : nat :=
  length (List.filter (fun f => Status_eqb (status f) pending) (files c)).

Section Component.

(** [String.prototype.match] builds a regular expression from its string
    argument; the matcher itself is the engine's. *)
Variable regexp : string -> string -> MatchOutcome.

Variable props : FileUploaderProps.

(** [acceptedTypes.some(type => file.type.match(type))]: left to right,
    stopping at the first match or at the first pattern that raises. *)
Fixpoint some (subject : string) (patterns : list string) : Thrown + bool :=
  match patterns with
  | [] => inr false
  | pattern :: rest =>
      match regexp subject pattern with
      | Matched => inr true
      | NoMatch => some subject rest
      | Raises e => inl e
      end
  end.

(** [acceptedTypes[0] !== '*'] *)
Definition filtering (patterns : list string) : bool :=
  match patterns with
  | first :: _ => negb (String.eqb first "*")
  | [] => true
  end.

(** [validateFile]: [inr None] is [null]. *)
Definition validateFile (f : File) : Thrown + option string :=
  if (size f >? maxFileSize props * 1024 * 1024)%Z
  then inr (Some ("File exceeds " +:+ numberToString (maxFileSize props) +:+ "MB limit"))
  else if filtering (acceptedTypes props)
  then match some (type f) (acceptedTypes props) with
       | inl e => inl e
       | inr true => inr None
       | inr false => inr (Some "File type not accepted")
       end
  else inr None.

(** One call of the async function [uploadFile]: it has returned, it has
    thrown, or it is suspended at [await fetch(...)] holding its argument
    and its interval handle. *)
Inductive Activation :=
| Returned (result : UploadedFile)
| Threw (e : Thrown)
| Awaiting (uploadedFile : UploadedFile) (progressInterval : nat).

(** The [catch] clause of [uploadFile]. *)
Definition caught (uploadedFile : UploadedFile) (e : Thrown) : UploadedFile :=
  {| id := id uploadedFile; file := file uploadedFile; status := error;
     progress := 0;
     errorMessage := Some (messageOr "Upload failed" e) |}.

(** The updater run at 200ms intervals. *)
Definition advance (taskId : string) (prev : list UploadedFile) : list UploadedFile :=
  map (fun f =>
         if String.eqb (id f) taskId && Status_eqb (status f) uploading
            && (progress f <? 90)%Z
         then {| id := id f; file := file f; status := status f;
                 progress := Z.min (progress f + 20) 90;
                 errorMessage := errorMessage f |}
         else f) prev.

(** [uploadFile] from its call to its first suspension. *)
Definition uploadFile (uploadedFile : UploadedFile) (c : Client) : Client * Activation :=
  let proceed :=
    let c1 :=
      setFiles (map (fun f =>
                       if String.eqb (id f) (id uploadedFile)
                       then {| id := id f; file := file f; status := uploading;
                               progress := 10; errorMessage := errorMessage f |}
                       else f)) c in
    let '(c2, progressInterval) := setInterval (id uploadedFile) c1 in
    (fetch (file uploadedFile) c2, Awaiting uploadedFile progressInterval) in
  match validateFile (file uploadedFile) with
  | inl e => (c, Threw e)
  | inr (Some validationError) =>
      if truthy validationError
      then (c, Returned {| id := id uploadedFile; file := file uploadedFile;
                           status := error; progress := progress uploadedFile;
                           errorMessage := Some validationError |})
      else proceed
  | inr None => proceed
  end.

(** [uploadFile] from the moment [fetch] settles to its return. *)
Definition resume (uploadedFile : UploadedFile) (progressInterval : nat)
    (outcome : FetchOutcome) (c : Client) : Client * UploadedFile :=
  match outcome with
  | Fulfilled response =>
      let c1 := clearInterval progressInterval c in
      if negb (ok response)
      then (c1, caught uploadedFile
                  (ErrorObject ("Upload failed: " +:+ statusText response)))
      else (c1, {| id := id uploadedFile; file := file uploadedFile;
                   status := success; progress := 100;
                   errorMessage := errorMessage uploadedFile |})
  | Rejected reason => (c, caught uploadedFile reason)
  end.

(** [pendingFiles.map(uploadFile)]: every call runs to its first
    suspension before the next one starts. *)
Fixpoint mapUploadFile (pendingFiles : list UploadedFile) (c : Client)
  : Client * list Activation :=
  match pendingFiles with
  | [] => (c, [])
  | uploadedFile :: rest =>
      let '(c1, a) := uploadFile uploadedFile c in
      let '(c2, others) := mapUploadFile rest c1 in
      (c2, a :: others)
  end.

(** The results [Promise.all] resolves to, once every call has returned. *)
Fixpoint allReturned (activations : list Activation) : option (list UploadedFile) :=
  match activations with
  | [] => Some []
  | Returned r :: rest =>
      match allReturned rest with
      | Some results => Some (r :: results)
      | None => None
      end
  | _ :: _ => None
  end.

(** The rejection of [Promise.all]: that of the first call that threw. *)
Fixpoint firstThrown (activations : list Activation) : option Thrown :=
  match activations with
  | [] => None
  | Threw e :: _ => Some e
  | _ :: rest => firstThrown rest
  end.

Definition plural (n : nat) : string := if (1 <? n)%nat then "s" else "".

Definition successCount (results : list UploadedFile) : nat :=
  length (List.filter (fun r => Status_eqb (status r) success) results).

Definition errorCount (results : list UploadedFile) : nat :=
  length (List.filter (fun r => Status_eqb (status r) error) results).

(** [handleUpload] after [await Promise.all(...)]. *)
Definition afterAll (results : list UploadedFile) (c : Client) : Client :=
  let c1 :=
    setFiles (map (fun f =>
                     match List.find (fun r => String.eqb (id r) (id f)) results with
                     | Some result => result
                     | None => f
                     end)) c in
  let c2 :=
    if (0 <? successCount results)%nat
    then toast {| title := "Upload complete";
                  description :=
                    numberToString (Z.of_nat (successCount results)) +:+ " file"
                    +:+ plural (successCount results) +:+ " uploaded successfully.";
                  destructive := false |} c1
    else c1 in
  let c3 :=
    if (0 <? errorCount results)%nat
    then toast {| title := "Some uploads failed";
                  description :=
                    numberToString (Z.of_nat (errorCount results)) +:+ " file"
                    +:+ plural (errorCount results) +:+ " failed to upload.";
                  destructive := true |} c2
    else c2 in
  onUploadComplete results (setIsUploading false c3).

(** Where a call of [handleUpload] stands: suspended at the [await],
    returned, or rejected because [Promise.all] was. *)
Inductive Promise :=
| Unsettled
| Resolved
| Failed (e : Thrown).

Record Run := mkRun {
  client : Client;
  activations : list Activation;
  promise : Promise
}.

(** [Promise.all] settles as soon as it can; the rest of [handleUpload]
    follows before any timer or network event is served. *)
Definition settle (r : Run) : Run :=
  match promise r with
  | Unsettled =>
      match firstThrown (activations r) with
      | Some e => {| client := client r; activations := activations r;
                     promise := Failed e |}
      | None =>
          match allReturned (activations r) with
          | Some results =>
              {| client := afterAll results (client r);
                 activations := activations r; promise := Resolved |}
          | None => r
          end
      end
  | _ => r
  end.

Definition pendingFiles (c : Client) : list UploadedFile :=
  List.filter (fun f => Status_eqb (status f) pending) (files c).

(** [handleUpload] from the click to its first suspension. *)
Definition handleUpload (c : Client) : Run :=
  match pendingFiles c with
  | [] =>
      {| client := toast {| title := "No files to upload";
                            description := "Please add files before uploading.";
                            destructive := true |} c;
         activations := []; promise := Resolved |}
  | _ :: _ =>
      let '(c1, started) := mapUploadFile (pendingFiles c) (setIsUploading true c) in
      settle {| client := c1; activations := started; promise := Unsettled |}
  end.

(** What the event loop can deliver while uploads are in flight: an
    interval fires, or the [fetch] of the [k]-th selected task settles.
    What the user can do in the meantime is added in [Session.Action]. *)
Inductive Event :=
| Tick (handle : nat)
| Settle (k : nat).

(** The answer of the network to the request of the [k]-th selected
    task. *)
Variable network : nat -> FetchOutcome.

Definition step (r : Run) (ev : Event) : Run :=
  match ev with
  | Tick handle =>
      match intervals (client r) !! handle with
      | Some taskId =>
          {| client := setFiles (advance taskId) (client r);
             activations := activations r; promise := promise r |}
      | None => r
      end
  | Settle k =>
      match activations r !! k with
      | Some (Awaiting uploadedFile progressInterval) =>
          let '(c1, result) :=
            resume uploadedFile progressInterval (network k) (client r) in
          settle {| client := c1;
                    activations := <[k := Returned result]> (activations r);
                    promise := promise r |}
      | _ => r
      end
  end.

Definition run (r : Run) (events : list Event) : Run := fold_left step events r.

End Component.

(** A matcher for the examples: a pattern without metacharacters matches
    when it occurs in the subject, ["*"] alone has nothing to repeat and
    raises. *)
Fixpoint occursIn (pattern subject : string) : bool :=
  String.prefix pattern subject
  || match subject with
     | EmptyString => false
     | String _ rest => occursIn pattern rest
     end.

Definition literalMatch (subject pattern : string) : MatchOutcome :=
  if String.eqb pattern "*"
  then Raises (ErrorObject "Invalid regular expression: /*/: Nothing to repeat")
  else if occursIn pattern subject then Matched else NoMatch.

End Uploader.

(* ================================================================== *)
(** * The pattern of the specification *)
(* ================================================================== *)

Module Pattern.
Import JS.

(** The longest prefix of [s] inside the class [p], and what follows. *)
Fixpoint span (p : ascii -> bool) (s : string) : string * string :=
  match s with
  | EmptyString => (EmptyString, EmptyString)
  | String c s' =>
      if p c
      then let '(inside, rest) := span p s' in (String c inside, rest)
      else (EmptyString, s)
  end.

(** The specification's [^\d+-[0-9a-z]{6}-[A-Za-z0-9._-]+$], read from
    left to right: neither [\d] nor [[0-9a-z]] contains the hyphen, so
    each of the first two groups is the whole run up to the next
    hyphen. *)
Definition storageName (s : string) : bool :=
  let '(millis, rest) := span isDigit s in
  truthy millis &&
  match rest with
  | String "-" rest1 =>
      let '(token, rest2) := span isBase36 rest1 in
      (String.length token =? 6)%nat &&
      match rest2 with
      | String "-" safe => truthy safe && all Ingest.isNameChar safe
      | _ => false
      end
  | _ => false
  end.

(** What follows the first two characters of [x.toString(36)]: the
    digits after the point, if there are any. *)
Definition fractionPart (x : Fraction) : string :=
  match toString36 x with
  | String _ (String _ digits) => digits
  | _ => EmptyString
  end.

End Pattern.

(* ================================================================== *)
(** * Inputs and vocabulary of the statements *)
(* ================================================================== *)

Module Requests.
Import JS Ingest.

Definition half : Fraction := mkFraction 1 1 eq_refl.

Definition almostHalf : Fraction := mkFraction 4503599627370495 53 eq_refl.

Definition notes : File := mkFile "a b.txt" 1048576 "text/plain".

Definition world (r : Fraction) : World :=
  {| SUPABASE_URL := Some "https://project.supabase.co";
     SUPABASE_SERVICE_ROLE_KEY := Some "service-role-key";
     now := 1700000000000; random := r; bucket := ∅; refusal := None |}.

Definition post (fields : list (string * FormDataEntryValue)) : Request :=
  {| method := "POST"; body := Multipart fields |}.

(** A request carrying the one file [notes]. *)
Definition oneFile : Request := post [("file", FilePart notes)].

(** The world a millisecond after the handler has served [oneFile] in
    [world r], with the same draw coming up again. *)
Definition afterwards (r : Fraction) : World :=
  {| SUPABASE_URL := SUPABASE_URL (world r);
     SUPABASE_SERVICE_ROLE_KEY := SUPABASE_SERVICE_ROLE_KEY (world r);
     now := 1700000000001; random := r;
     bucket := snd (serve (world r) oneFile); refusal := None |}.

(** The form has nothing to offer as a file: [formData.get('file')] is
    [null] or the empty string. *)
Definition fileless (fields : list (string * FormDataEntryValue)) : Prop :=
  get "file" fields = None \/ get "file" fields = Some (TextPart EmptyString).

(** The form's file is larger than 10 MiB. *)
Definition oversize (fields : list (string * FormDataEntryValue)) : Prop :=
  exists f, get "file" fields = Some (FilePart f) /\ (size f > 10 * 1024 * 1024)%Z.

End Requests.

Module Tasks.
Import JS Uploader.

Definition picture : File := mkFile "photo.png" 5242880 "image/png".

Definition video : File := mkFile "clip.mp4" 15728640 "video/mp4".

(** A task as [addFiles] makes it. *)
Definition task (taskId : string) (f : File) : UploadedFile :=
  {| id := taskId; file := f; status := pending; progress := 0; errorMessage := None |}.

Definition queue (tasks : list UploadedFile) : Client :=
  setFiles (fun _ => tasks) initial.

Definition imagesOnly : FileUploaderProps :=
  {| endpoint := "/api/upload"; maxFileSize := 10; acceptedTypes := ["image/"; "*"] |}.

(** The size limit in bytes. *)
Definition limit (props : FileUploaderProps) : Z := maxFileSize props * 1024 * 1024.

(** No accepted type matches the MIME type of [f]. *)
Definition unmatched (regexp : string -> string -> MatchOutcome) (f : File)
    (patterns : list string) : Prop :=
  Forall (fun pattern => regexp (type f) pattern = NoMatch) patterns.

(** The message of the size rule. *)
Definition sizeRule (props : FileUploaderProps) : string :=
  "File exceeds " +:+ numberToString (maxFileSize props) +:+ "MB limit".

Definition typeRule : string := "File type not accepted".

(** The error detail [uploadFile] derives from a failed network call. *)
Definition detail (outcome : FetchOutcome) : string :=
  match outcome with
  | Fulfilled response => "Upload failed: " +:+ statusText response
  | Rejected (ErrorObject message) => message
  | Rejected OtherValue => "Upload failed"
  end.

(** The task [uploadFile] returns for a task that passed validation, by
    how its [fetch] settled. *)
Definition outcomeOf (u : UploadedFile) (outcome : FetchOutcome) : UploadedFile :=
  match outcome with
  | Fulfilled response =>
      if ok response
      then {| id := id u; file := file u; status := success; progress := 100;
              errorMessage := errorMessage u |}
      else {| id := id u; file := file u; status := error; progress := 0;
              errorMessage := Some (detail outcome) |}
  | Rejected _ =>
      {| id := id u; file := file u; status := error; progress := 0;
         errorMessage := Some (detail outcome) |}
  end.

End Tasks.

Module Runs.
Import JS Uploader Tasks.

(** The toasts [handleUpload] shows for its results. *)
Definition summary (results : list UploadedFile) : list Toast :=
  (if (0 <? successCount results)%nat
   then [ {| title := "Upload complete";
             description :=
               numberToString (Z.of_nat (successCount results)) +:+ " file"
               +:+ plural (successCount results) +:+ " uploaded successfully.";
             destructive := false |} ]
   else [])
  ++
  (if (0 <? errorCount results)%nat
   then [ {| title := "Some uploads failed";
             description :=
               numberToString (Z.of_nat (errorCount results)) +:+ " file"
               +:+ plural (errorCount results) +:+ " failed to upload.";
             destructive := true |} ]
   else []).

(** The file a suspended call has sent. *)
Definition sent (a : Activation) : option File :=
  match a with
  | Awaiting u _ => Some (file u)
  | _ => None
  end.

(** How the call for task [u] can stand right after it was made. *)
Definition startOf (u : UploadedFile) (a : Activation) : Prop :=
  (exists rule, a = Returned {| id := id u; file := file u; status := error;
                                progress := progress u; errorMessage := Some rule |})
  \/ (exists e, a = Threw e)
  \/ (exists h, a = Awaiting u h).

(** A result that belongs to task [u] and is terminal. *)
Definition terminalFor (u result : UploadedFile) : Prop :=
  id result = id u /\ file result = file u
  /\ (status result = success \/ status result = error).

(** A network that fails the first request at the transport level and
    answers every other one with 200. *)
Definition firstRejected (k : nat) : FetchOutcome :=
  match k with
  | O => Rejected (ErrorObject "Failed to fetch")
  | S _ => Fulfilled (mkFetchResponse 200 "OK")
  end.

(** What a run has shown of its results, by where [handleUpload] stands:
    nothing before it returns, the summary toasts and one
    [onUploadComplete] call once it has. *)
Definition surfaced (c : Client) (r : Run) : Prop :=
  match promise r with
  | Resolved =>
      exists results,
        allReturned (activations r) = Some results
        /\ completed (client r) = completed c ++ [results]
        /\ toasts (client r) = toasts c ++ summary results
  | Unsettled =>
      allReturned (activations r) = None
      /\ completed (client r) = completed c /\ toasts (client r) = toasts c
  | Failed _ => firstThrown (activations r) <> None
  end.

(** How the calls of a run relate to the calls it started with: a call
    is as it was, or it was suspended and has returned what the network's
    answer makes of its task. *)
Definition evolved (network : nat -> FetchOutcome) (before after : list Activation) : Prop :=
  length after = length before
  /\ forall k,
       after !! k = before !! k
       \/ exists u h,
            before !! k = Some (Awaiting u h)
            /\ after !! k = Some (Returned (outcomeOf u (network k))).

Definition twoPictures : Client :=
  queue [task "a" picture; task "b" picture].

(** Two pictures are uploaded; the request of the first is rejected
    while the second is still in flight, then the interval of the first
    fires, then the second request is answered. *)
Definition bothStarted : Run := handleUpload literalMatch defaultProps twoPictures.

Definition firstSettled : Run := step firstRejected bothStarted (Settle 0).

Definition firedAgain : Run := step firstRejected firstSettled (Tick 1).

Definition bothSettled : Run := step firstRejected firedAgain (Settle 1).

(** A picture and a video over the limit are queued; the one request made
    is rejected. *)
Definition mixed : Client := queue [task "a" picture; task "b" video].

End Runs.

(* ================================================================== *)
(** * Further vocabulary *)
(* ================================================================== *)

Module Stored.
Import JS Ingest.

(** The world in which the handler has already served [oneFile] and is
    asked again at the same millisecond with the same draw. *)
Definition sameInstant (r : Fraction) : World :=
  {| SUPABASE_URL := SUPABASE_URL (Requests.world r);
     SUPABASE_SERVICE_ROLE_KEY := SUPABASE_SERVICE_ROLE_KEY (Requests.world r);
     now := now (Requests.world r); random := r;
     bucket := snd (serve (Requests.world r) Requests.oneFile); refusal := None |}.

(** The [file_size_limit] the migration gives the bucket [uploads]. *)
Definition file_size_limit : Z := 10485760.

(** The world of [Requests.world] with a store that is out of space. *)
Definition outOfQuota (r : Fraction) : World :=
  {| SUPABASE_URL := SUPABASE_URL (Requests.world r);
     SUPABASE_SERVICE_ROLE_KEY := SUPABASE_SERVICE_ROLE_KEY (Requests.world r);
     now := now (Requests.world r); random := r;
     bucket := bucket (Requests.world r); refusal := Some "Storage quota exceeded" |}.

(** The response is the success document. *)
Definition succeeded (response : Response) : Prop :=
  exists message original sz ty path url,
    payload response = Some (SuccessJson message original sz ty path url).

End Stored.

Module Queue.
Import JS Uploader Tasks Runs.

(** [Math.random().toString(36).slice(2)] *)
Definition suffix (r : Fraction) : string :=
  substring 2 (String.length (toString36 r)) (toString36 r).

(** A task as it is right after [addFiles]. *)
Definition fresh (t : UploadedFile) : Prop :=
  status t = pending /\ progress t = 0%Z /\ errorMessage t = None.

(** The task [f] after [n] firings of its interval, when it is uploading
    all the while. *)
Definition fired (n : nat) (f : UploadedFile) : UploadedFile :=
  {| id := id f; file := file f; status := status f;
     progress := if (progress f <? 90)%Z
                 then Z.min (progress f + 20 * Z.of_nat n) 90
                 else progress f;
     errorMessage := errorMessage f |}.

(** What the last [setFiles] of [handleUpload] makes of a task: the first
    result of the same id, if there is one. *)
Definition merged (results : list UploadedFile) (f : UploadedFile) : UploadedFile :=
  match List.find (fun r => String.eqb (id r) (id f)) results with
  | Some result => result
  | None => f
  end.

(** A percentage. *)
Definition percent (f : UploadedFile) : Prop := (0 <= progress f <= 100)%Z.

Definition idle (f : UploadedFile) : Prop := status f <> uploading.

(** The props with another list of accepted types. *)
Definition accepting (props : FileUploaderProps) (patterns : list string)
  : FileUploaderProps :=
  {| endpoint := endpoint props; maxFileSize := maxFileSize props;
     acceptedTypes := patterns |}.

(** A network that answers every request with 200. *)
Definition allAnswered (k : nat) : FetchOutcome := Fulfilled (mkFetchResponse 200 "OK").

(** A list emptied while its upload is in flight. *)
Definition cleared : Run :=
  {| client := clearAll (client bothStarted);
     activations := activations bothStarted; promise := promise bothStarted |}.

Definition hyphenated : File := mkFile "a-" 1 "text/plain".

Definition plain : File := mkFile "a" 1 "text/plain".

(** The first [setFiles] of [uploadFile]: the tasks of that id are marked
    as uploading at 10. *)
Definition dispatched (taskId : string) (prev : list UploadedFile) : list UploadedFile :=
  map (fun f =>
         if String.eqb (id f) taskId
         then {| id := id f; file := file f; status := uploading;
                 progress := 10; errorMessage := errorMessage f |}
         else f) prev.

(** What a call of [uploadFile] for task [u] can return: the local
    rejection, or what some answer of the network makes of the task. *)
Definition resultOf (u r : UploadedFile) : Prop :=
  (exists rule, r = {| id := id u; file := file u; status := error;
                       progress := progress u; errorMessage := Some rule |})
  \/ (exists outcome, r = outcomeOf u outcome).

Definition terminal (f : UploadedFile) : Prop :=
  status f = success \/ status f = error.

(** The flag behind the disabled button, by where [handleUpload] stands. *)
Definition busy (r : Run) : Prop :=
  match promise r with
  | Resolved => isUploading (client r) = false
  | Unsettled | Failed _ => isUploading (client r) = true
  end.

(** Whether the interval started for the [k]-th call is to be live: the
    call is still suspended, or its request was rejected. *)
Definition kept (network : nat -> FetchOutcome) (now : list Activation) (k : nat) : bool :=
  match now !! k with
  | Some (Awaiting _ _) => true
  | _ => match network k with
         | Rejected _ => true
         | Fulfilled _ => false
         end
  end.

End Queue.

Module Session.
Import JS Uploader Tasks Runs Queue.

(** What can happen once [handleUpload] has been called: the event loop
    delivers a timer firing or the answer to a request, or the user drops
    or selects files ([handleDrop] and [handleFileSelect] call [addFiles]
    whatever [isUploading] is), removes a task, or clears the list.  The
    page offers the removal for tasks that are pending or in error only;
    here any id may be removed at any time. *)
Inductive Action :=
| Deliver (ev : Event)
| Add (newFiles : option (list (File * Z * Fraction)))
| Remove (taskId : string)
| Clear.

(** A handler that only touches the component's state. *)
Definition onClient (handler : Client -> Client) (r : Run) : Run :=
  {| client := handler (client r); activations := activations r;
     promise := promise r |}.

Definition act (network : nat -> FetchOutcome) (r : Run) (a : Action) : Run :=
  match a with
  | Deliver ev => step network r ev
  | Add newFiles => onClient (addFiles newFiles) r
  | Remove taskId => onClient (removeFile taskId) r
  | Clear => onClient clearAll r
  end.

Definition perform (network : nat -> FetchOutcome) (r : Run) (actions : list Action) : Run :=
  fold_left (act network) actions r.

(** [handleUpload] is called in state [c], then [actions] happen. *)
Definition during (regexp : string -> string -> MatchOutcome) (props : FileUploaderProps)
    (network : nat -> FetchOutcome) (c : Client) (actions : list Action) : Run :=
  perform network (handleUpload regexp props c) actions.

(** The task [uploadFile] returns when validation names a rule. *)
Definition refused (u : UploadedFile) (rule : string) : UploadedFile :=
  {| id := id u; file := file u; status := error; progress := progress u;
     errorMessage := Some rule |}.

(** [validateFile] returns [null] for the file of the task. *)
Definition accepted (regexp : string -> string -> MatchOutcome) (props : FileUploaderProps)
    (u : UploadedFile) : bool :=
  match validateFile regexp props (file u) with
  | inr None => true
  | _ => false
  end.

(** Where the call of [uploadFile] for task [u] stands when
    [pendingFiles.map(uploadFile)] is through, by what [validateFile] made
    of its file: the call has thrown what validation threw, it has
    returned the task with the rule that failed, or it has sent the file
    and is suspended. *)
Definition submission (regexp : string -> string -> MatchOutcome) (props : FileUploaderProps)
    (u : UploadedFile) (a : Activation) : Prop :=
  match validateFile regexp props (file u) with
  | inl e => a = Threw e
  | inr (Some rule) => a = Returned (refused u rule)
  | inr None => exists progressInterval, a = Awaiting u progressInterval
  end.

(** The result of the call for the [k]-th selected task [u]: none when
    validation throws, the refusal when it names a rule, and otherwise
    what the answer to the [k]-th request makes of the task. *)
Definition settled (regexp : string -> string -> MatchOutcome) (props : FileUploaderProps)
    (network : nat -> FetchOutcome) (k : nat) (u : UploadedFile) : option UploadedFile :=
  match validateFile regexp props (file u) with
  | inl _ => None
  | inr (Some rule) => Some (refused u rule)
  | inr None => Some (outcomeOf u (network k))
  end.

(** The ids of the tasks [handleUpload] selects in state [c]. *)
Definition selectedIds (c : Client) : list string := map id (pendingFiles c).

(** A picture is dropped on the zone while an upload is in flight. *)
Definition dropped : Action :=
  Add (Some [(picture, 1700000000000%Z, Requests.half)]).

End Session.

(* ================================================================== *)
(** * Facts about the built-ins *)
(* ================================================================== *)

Module JSFacts.
Import JS Pattern.

Lemma app_nil (b : string) : EmptyString +:+ b = b.
Proof. reflexivity. Qed.

Lemma app_cons c (a b : string) : String c a +:+ b = String c (a +:+ b).
Proof. reflexivity. Qed.

Lemma all_app p a b : all p (a +:+ b) = all p a && all p b.
Proof.
  induction a as [|c a IH]; [reflexivity|].
  rewrite app_cons. simpl. rewrite IH. apply andb_assoc.
Qed.

Lemma length_app a b : String.length (a +:+ b) = (String.length a + String.length b)%nat.
Proof.
  induction a as [|c a IH]; [reflexivity|].
  rewrite app_cons. simpl. now rewrite IH.
Qed.

Lemma app_assoc (a b c : string) : (a +:+ b) +:+ c = a +:+ (b +:+ c).
Proof.
  induction a as [|x a IH]; [reflexivity|].
  rewrite !app_cons. now rewrite IH.
Qed.

(** A run inside the class, followed by a character outside it, is what
    [span] cuts off. *)
Lemma span_app p a c rest :
  all p a = true -> p c = false ->
  span p (a +:+ String c rest) = (a, String c rest).
Proof.
  intros Ha Hc. induction a as [|x a IH].
  - rewrite app_nil. simpl. rewrite Hc. reflexivity.
  - rewrite app_cons. simpl in *.
    apply andb_prop in Ha as [Hx Ha]. rewrite Hx, (IH Ha). reflexivity.
Qed.

Lemma span_all p a : all p a = true -> span p a = (a, EmptyString).
Proof.
  intros Ha. induction a as [|x a IH]; simpl in *; [reflexivity|].
  apply andb_prop in Ha as [Hx Ha]. rewrite Hx, (IH Ha). reflexivity.
Qed.

(** Cutting two strings at the first character outside the class gives
    the same pieces when the strings are equal. *)
Lemma app_sep_inj p a1 a2 c rest1 rest2 :
  all p a1 = true -> all p a2 = true -> p c = false ->
  a1 +:+ String c rest1 = a2 +:+ String c rest2 ->
  a1 = a2 /\ rest1 = rest2.
Proof.
  intros H1 H2 Hc Heq.
  pose proof (span_app p a1 c rest1 H1 Hc) as S1.
  pose proof (span_app p a2 c rest2 H2 Hc) as S2.
  rewrite Heq in S1. rewrite S1 in S2.
  injection S2 as -> ->. split; reflexivity.
Qed.

Lemma all_substring p s n m : all p s = true -> all p (String.substring n m s) = true.
Proof.
  revert n m. induction s as [|c s IH]; intros n m Hs.
  - destruct n, m; reflexivity.
  - simpl in Hs. apply andb_prop in Hs as [Hc Hs].
    destruct n as [|n]; [destruct m as [|m]|]; simpl.
    + reflexivity.
    + rewrite Hc. apply IH, Hs.
    + apply IH, Hs.
Qed.

Lemma length_substring s n m : (String.length (String.substring n m s) <= m)%nat.
Proof.
  revert n m. induction s as [|c s IH]; intros n m.
  - destruct n, m; simpl; lia.
  - destruct n as [|n]; [destruct m as [|m]|]; simpl.
    + lia.
    + specialize (IH 0%nat m). lia.
    + apply IH.
Qed.

(** ** Decimal rendering *)

Lemma isDigit_uint d : all isDigit (NilEmpty.string_of_uint d) = true.
Proof. induction d; simpl; try rewrite IHd; reflexivity. Qed.

Lemma digits_uint d :
  all isDigit (NilZero.string_of_uint d) = true
  /\ truthy (NilZero.string_of_uint d) = true.
Proof.
  destruct d; simpl; try rewrite isDigit_uint; split; reflexivity.
Qed.

(** A Number is written as an optional minus sign and a non-empty run of
    digits. *)
Lemma numberToString_shape z :
  exists digits,
    all isDigit digits = true /\ truthy digits = true /\
    numberToString z = (if (z <? 0)%Z then String "-" digits else digits).
Proof.
  unfold numberToString.
  destruct z as [|p|p]; simpl.
  - exists "0". repeat split.
  - exists (NilZero.string_of_uint (Pos.to_uint p)).
    destruct (digits_uint (Pos.to_uint p)). repeat split; assumption.
  - exists (NilZero.string_of_uint (Pos.to_uint p)).
    destruct (digits_uint (Pos.to_uint p)). repeat split; assumption.
Qed.

Lemma numberToString_inj a b : numberToString a = numberToString b -> a = b.
Proof.
  unfold numberToString. intros H.
  apply to_int_inj.
  assert (ok : forall z, NilZero.int_of_string (NilZero.string_of_int (Z.to_int z))
                         = Some (Z.to_int z)).
  { intros z. apply NilZero.isi; destruct z; simpl; try discriminate;
      intros E; injection E; apply DecimalPos.Unsigned.to_uint_nonnil. }
  pose proof (ok a) as Ha. rewrite H, ok in Ha. congruence.
Qed.

(** ** Radix 36 *)

Lemma isBase36_digit36 d : isBase36 (digit36 d) = true.
Proof.
  unfold digit36. generalize (N.to_nat d). intros n.
  do 36 (destruct n as [|n]; [reflexivity|]). reflexivity.
Qed.

Lemma isBase36_digitsText written : all isBase36 (digitsText written) = true.
Proof.
  unfold digitsText.
  assert (G : forall text, all isBase36 text = true ->
                all isBase36 (fold_left (fun text digit => String (digit36 digit) text)
                                        written text) = true).
  { induction written as [|digit written IH]; intros text H; simpl; [exact H|].
    apply IH. simpl. rewrite isBase36_digit36. exact H. }
  apply G. reflexivity.
Qed.

(** The digits after the point are base-36 digits. *)
Lemma fractionPart_base36 x : all isBase36 (fractionPart x) = true.
Proof.
  unfold fractionPart, toString36.
  destruct (compareDouble _ _); try reflexivity;
    destruct (fractionDigits _ _ _ _); try reflexivity; apply isBase36_digitsText.
Qed.

Lemma substring_toString36 x n :
  substring 2 (2 + n) (toString36 x) = String.substring 0 n (fractionPart x).
Proof.
  unfold substring, fractionPart.
  replace (Nat.min 2 (2 + n)) with 2%nat by lia.
  replace (Nat.max 2 (2 + n) - 2)%nat with n by lia.
  destruct (toString36 x) as [|c [|d digits]]; simpl; try reflexivity;
    destruct n; reflexivity.
Qed.

(** ** The buffer is never what ends the digits *)

Lemma fractionDigits_S fuel fraction delta written :
  fractionDigits (S fuel) fraction delta written
  = if match compareDouble (fractional (times36 fraction)) (1, 1)%N with
       | Gt => true
       | Eq => N.odd (truncated (times36 fraction))
       | Lt => false
       end
       && match compareDouble (plusDouble (fractional (times36 fraction)) (times36 delta))
                              (1, 0)%N with
          | Gt => true
          | _ => false
          end
    then carryOver (truncated (times36 fraction) :: written)
    else match compareDouble (fractional (times36 fraction)) (times36 delta) with
         | Lt => Some (truncated (times36 fraction) :: written)
         | _ => fractionDigits fuel (fractional (times36 fraction)) (times36 delta)
                               (truncated (times36 fraction) :: written)
         end.
Proof. reflexivity. Qed.

(** With every digit [delta] is at least doubled. *)
Lemma times36_grows m e :
  (0 < m)%N -> (m < 2 ^ e)%N -> (e <= 1074)%N ->
  (snd (times36 (m, e)) <= e)%N
  /\ (2 * m * 2 ^ snd (times36 (m, e)) <= fst (times36 (m, e)) * 2 ^ e)%N.
Proof.
  intros Hpos Hlt He. unfold times36, nearestDouble. cbn [fst snd].
  replace (e - 1074)%N with 0%N by lia. rewrite N.max_0_r.
  destruct (N.eqb_spec (N.size (m * 36) - 53) 0) as [Hz|Hnz]; cbn [fst snd].
  - split; [lia|]. assert (0 < 2 ^ e)%N by (apply N.neq_0_lt_0, N.pow_nonzero; lia). nia.
  - set (drop := (N.size (m * 36) - 53)%N) in *.
    assert (Hm : (m * 36 <> 0)%N) by lia.
    pose proof (N.size_log2 _ Hm) as Hsize.
    assert (H36 : (0 < m * 36)%N) by lia.
    destruct (N.log2_spec _ H36) as [Hlow Hhigh].
    assert (Hlog : (N.log2 (m * 36) = drop + 52)%N) by lia.
    rewrite Hlog, N.pow_add_r in Hlow.
    assert (Hbound : (N.log2 (m * 36) < e + 6)%N).
    { apply N.log2_lt_pow2; [exact H36|]. rewrite N.pow_add_r.
      change (2 ^ 6)%N with 64%N. lia. }
    assert (Hdrop : (drop <= e)%N) by lia.
    assert (Hpow : (2 ^ e = 2 ^ (e - drop) * 2 ^ drop)%N).
    { rewrite <- N.pow_add_r. f_equal. lia. }
    assert (Hp : (0 < 2 ^ drop)%N) by (apply N.neq_0_lt_0, N.pow_nonzero; lia).
    assert (Hq : (0 < 2 ^ (e - drop))%N) by (apply N.neq_0_lt_0, N.pow_nonzero; lia).
    change (2 ^ 52)%N with 4503599627370496%N in Hlow.
    rewrite N.shiftr_div_pow2.
    pose proof (N.Div0.div_mod (m * 36) (2 ^ drop)) as Hdiv.
    pose proof (N.mod_lt (m * 36) (2 ^ drop)) as Hrem.
    assert (Hkept : (2 * m <= (m * 36 / 2 ^ drop) * 2 ^ drop)%N) by lia.
    destruct (_ || _); cbn [fst snd]; (split; [lia|]); rewrite Hpow; nia.
Qed.

Lemma fractionDigits_fuel fuel :
  forall fraction delta written extra,
    (0 < fst delta)%N -> (fst delta < 2 ^ snd delta)%N -> (snd delta <= 1074)%N ->
    (2 ^ snd delta <= fst delta * 2 ^ N.of_nat fuel)%N ->
    fractionDigits (S fuel + extra) fraction delta written
    = fractionDigits (S fuel) fraction delta written.
Proof.
  induction fuel as [|fuel IH]; intros fraction [m e] written extra Hpos Hlt He Hlow;
    cbn [fst snd] in *.
  - simpl in Hlow. lia.
  - change (S (S fuel) + extra)%nat with (S (S fuel + extra)).
    rewrite (fractionDigits_S (S fuel + extra)), (fractionDigits_S (S fuel)).
    destruct (_ && _); [reflexivity|].
    destruct (times36_grows m e Hpos Hlt He) as [He' Hgrow].
    destruct (compareDouble (fractional (times36 fraction)) (times36 (m, e))) eqn:C;
      [|reflexivity|].
    all: apply IH; try lia.
    all: unfold compareDouble, fractional in C; cbn [fst snd] in C.
    all: set (d := times36 (m, e)) in *; set (s := times36 fraction) in *.
    all: assert (Hs : (0 < 2 ^ snd s)%N) by (apply N.neq_0_lt_0, N.pow_nonzero; lia).
    all: assert (Hd : (0 < 2 ^ snd d)%N) by (apply N.neq_0_lt_0, N.pow_nonzero; lia).
    all: assert (Hx : (0 < 2 ^ e)%N) by (apply N.neq_0_lt_0, N.pow_nonzero; lia).
    all: assert (Hf : (0 < 2 ^ N.of_nat fuel)%N) by (apply N.neq_0_lt_0, N.pow_nonzero; lia).
    all: pose proof (N.mod_lt (fst s) (2 ^ snd s)) as Hmod.
    all: replace (N.of_nat (S fuel)) with (N.of_nat fuel + 1)%N in Hlow by lia.
    all: rewrite N.pow_add_r in Hlow; change (2 ^ 1)%N with 2%N in Hlow.
    all: try (apply N.compare_eq_iff in C); try (apply N.compare_gt_iff in C).
    all: try nia.
Qed.

Lemma toString36_buffer x extra :
  fractionDigits (digitsBuffer + extra)
                 (fractional (nearestDouble (numerator x) (exponent x)))
                 (halfUlp (nearestDouble (numerator x) (exponent x))) []
  = fractionDigits digitsBuffer
                   (fractional (nearestDouble (numerator x) (exponent x)))
                   (halfUlp (nearestDouble (numerator x) (exponent x))) [].
Proof.
  change digitsBuffer with (S 1099).
  assert (H : exists k, halfUlp (nearestDouble (numerator x) (exponent x)) = (1, k)%N
                        /\ (1 <= k <= 1074)%N).
  { unfold halfUlp.
    destruct (fst (nearestDouble (numerator x) (exponent x)) =? 0)%N;
      eexists; (split; [reflexivity | lia]). }
  destruct H as (k & -> & Hk).
  apply fractionDigits_fuel; cbn [fst snd]; try lia.
  - apply (N.pow_lt_mono_r 2 0 k); lia.
  - rewrite N.mul_1_l. apply N.pow_le_mono_r; lia.
Qed.

Example toString36_half : toString36 Requests.half = "0.i".
Proof. reflexivity. Qed.

Example toString36_three_eighths : toString36 (mkFraction 3 3 eq_refl) = "0.di".
Proof. reflexivity. Qed.

Example toString36_zero : toString36 (mkFraction 0 0 eq_refl) = "0".
Proof. reflexivity. Qed.

(** The double next to 5/9, and the one next to 1/10. *)
Example toString36_five_ninths :
  toString36 (mkFraction 2501999792983609 52 eq_refl) = "0.k".
Proof. vm_compute. reflexivity. Qed.

Example toString36_one_tenth :
  toString36 (mkFraction 3602879701896397 55 eq_refl) = "0.3lllllllllm".
Proof. vm_compute. reflexivity. Qed.

Example toString36_almost_half : toString36 Requests.almostHalf = "0.hzzzzzzzzzn".
Proof. vm_compute. reflexivity. Qed.

End JSFacts.

(* ================================================================== *)
(** * The ingestion handler: storage names *)
(* ================================================================== *)

Module IngestFacts.
Import JS Pattern JSFacts Ingest.

Lemma randomStr_fraction r : randomStr r = String.substring 0 6 (fractionPart r).
Proof. unfold randomStr. apply (substring_toString36 r 6). Qed.

Lemma randomStr_length r : (String.length (randomStr r) <= 6)%nat.
Proof. rewrite randomStr_fraction. apply length_substring. Qed.

Lemma randomStr_base36 r : all isBase36 (randomStr r) = true.
Proof.
  rewrite randomStr_fraction. apply all_substring, fractionPart_base36.
Qed.

Lemma sanitizedName_safe original : all isNameChar (sanitizedName original) = true.
Proof.
  unfold sanitizedName.
  induction original as [|c s IH]; simpl; [reflexivity|].
  rewrite IH, andb_true_r.
  destruct (isNameChar c) eqn:E; [exact E | reflexivity].
Qed.

Lemma sanitizedName_length original :
  String.length (sanitizedName original) = String.length original.
Proof.
  unfold sanitizedName.
  induction original as [|c s IH]; simpl; [reflexivity | now rewrite IH].
Qed.

Lemma sanitizedName_get original i :
  String.get i (sanitizedName original)
  = option_map (fun c => if isNameChar c then c else "_"%char) (String.get i original).
Proof.
  unfold sanitizedName. revert i.
  induction original as [|c s IH]; intros i; simpl; [reflexivity|].
  destruct i as [|i]; [reflexivity | apply IH].
Qed.

Lemma sanitizedName_truthy original :
  truthy (sanitizedName original) = truthy original.
Proof. destruct original; reflexivity. Qed.

Lemma isBase36_no_hyphen t : all isBase36 t = true -> all (fun c => negb (Ascii.eqb c "-")) t = true.
Proof.
  induction t as [|c t IH]; simpl; [reflexivity|].
  intros H. apply andb_prop in H as [Hc Ht]. rewrite (IH Ht), andb_true_r.
  destruct (Ascii.eqb_spec c "-") as [->|]; [discriminate Hc | reflexivity].
Qed.

Lemma isDigit_no_hyphen t : all isDigit t = true -> all (fun c => negb (Ascii.eqb c "-")) t = true.
Proof.
  induction t as [|c t IH]; simpl; [reflexivity|].
  intros H. apply andb_prop in H as [Hc Ht]. rewrite (IH Ht), andb_true_r.
  destruct (Ascii.eqb_spec c "-") as [->|]; [discriminate Hc | reflexivity].
Qed.

(** The three parts of a storage name can be read back from it. *)
Lemma storage_name_parts_inj ts1 ts2 (t1 t2 s1 s2 : string) :
  all isBase36 t1 = true -> all isBase36 t2 = true ->
  numberToString ts1 +:+ "-" +:+ t1 +:+ "-" +:+ s1
  = numberToString ts2 +:+ "-" +:+ t2 +:+ "-" +:+ s2 ->
  ts1 = ts2 /\ t1 = t2 /\ s1 = s2.
Proof.
  intros B1 B2 H.
  set (noHyphen := fun c : ascii => negb (Ascii.eqb c "-")).
  assert (Hsep : noHyphen "-"%char = false) by reflexivity.
  assert (tails : forall d1 d2,
            all isDigit d1 = true -> all isDigit d2 = true ->
            d1 +:+ "-" +:+ t1 +:+ "-" +:+ s1 = d2 +:+ "-" +:+ t2 +:+ "-" +:+ s2 ->
            d1 = d2 /\ t1 = t2 /\ s1 = s2).
  { intros d1 d2 D1 D2 E.
    change (d1 +:+ String "-" (t1 +:+ String "-" s1)
            = d2 +:+ String "-" (t2 +:+ String "-" s2)) in E.
    apply (app_sep_inj noHyphen) in E as [-> E];
      [| apply isDigit_no_hyphen, D1 | apply isDigit_no_hyphen, D2 | exact Hsep].
    apply (app_sep_inj noHyphen) in E as [-> ->];
      [| apply isBase36_no_hyphen, B1 | apply isBase36_no_hyphen, B2 | exact Hsep].
    repeat split. }
  destruct (numberToString_shape ts1) as (d1 & D1 & N1 & E1).
  destruct (numberToString_shape ts2) as (d2 & D2 & N2 & E2).
  assert (Hn : numberToString ts1 = numberToString ts2 /\ t1 = t2 /\ s1 = s2).
  { rewrite E1, E2 in H |- *.
    destruct (ts1 <? 0)%Z, (ts2 <? 0)%Z.
    - rewrite !app_cons in H. injection H as H.
      destruct (tails d1 d2 D1 D2 H) as (-> & -> & ->). repeat split.
    - destruct d2 as [|c d2]; [discriminate N2|].
      rewrite !app_cons in H. injection H as <- _. discriminate D2.
    - destruct d1 as [|c d1]; [discriminate N1|].
      rewrite !app_cons in H. injection H as -> _. discriminate D1.
    - destruct (tails d1 d2 D1 D2 H) as (-> & -> & ->). repeat split. }
  destruct Hn as (Hn & -> & ->).
  apply numberToString_inj in Hn. repeat split; assumption.
Qed.

Lemma storageName_uniqueFileName ts r original :
  storageName (uniqueFileName ts r original) = true
  <-> (0 <= ts)%Z /\ String.length (randomStr r) = 6%nat /\ original <> EmptyString.
Proof.
  unfold uniqueFileName, storageName.
  destruct (numberToString_shape ts) as (d & D & N & E). rewrite E.
  destruct (Z.ltb_spec ts 0) as [Hneg|Hpos].
  - rewrite app_cons. simpl. split; [discriminate | lia].
  - change (d +:+ "-" +:+ randomStr r +:+ "-" +:+ sanitizedName original)
      with (d +:+ String "-" (randomStr r +:+ String "-" (sanitizedName original))).
    rewrite (span_app isDigit d "-" _ D eq_refl), N. simpl.
    rewrite (span_app isBase36 (randomStr r) "-" _ (randomStr_base36 r) eq_refl).
    rewrite sanitizedName_safe, andb_true_r, sanitizedName_truthy.
    destruct (Nat.eqb_spec (String.length (randomStr r)) 6) as [L|L]; simpl.
    + destruct original; simpl; split; try discriminate; try tauto.
      intros _. repeat split; try assumption. discriminate.
    + split; [discriminate | tauto].
Qed.

End IngestFacts.

(* ================================================================== *)
(** * The ingestion handler: responses *)
(* ================================================================== *)

Module ServeFacts.
Import JS Pattern JSFacts Ingest IngestFacts.

(** Every way [tryBlock] can end, by what it was given. *)
Lemma tryBlock_cases w req :
  (exists e, createClient (SUPABASE_URL w) (SUPABASE_SERVICE_ROLE_KEY w) = inl e
             /\ tryBlock w req = (inl e, bucket w))
  \/ exists url,
       createClient (SUPABASE_URL w) (SUPABASE_SERVICE_ROLE_KEY w) = inr url /\
       ((exists e, body req = Unparsable e /\ tryBlock w req = (inl e, bucket w))
        \/ exists fields, body req = Multipart fields /\
           ((get "file" fields = None /\
             tryBlock w req
             = (inr (jsonResponse 400 (ErrorJson "No file provided")), bucket w))
            \/ (get "file" fields = Some (TextPart EmptyString) /\
                tryBlock w req
                = (inr (jsonResponse 400 (ErrorJson "No file provided")), bucket w))
            \/ (exists s, truthy s = true /\ get "file" fields = Some (TextPart s) /\
                exists e, tryBlock w req = (inl e, bucket w))
            \/ (exists f, get "file" fields = Some (FilePart f) /\
                (size f > maxSize)%Z /\
                tryBlock w req
                = (inr (jsonResponse 400 (ErrorJson "File exceeds 10MB limit")), bucket w))
            \/ (exists f, get "file" fields = Some (FilePart f) /\
                (size f <= maxSize)%Z /\
                let path := uniqueFileName (now w) (random w) (name f) in
                match upload (bucket w) (refusal w) path f (type f) false with
                | (bucket', inl message) =>
                    tryBlock w req
                    = (inr (jsonResponse 500 (ErrorJson ("Upload failed: " +:+ message))),
                       bucket')
                | (bucket', inr stored) =>
                    tryBlock w req
                    = (inr (jsonResponse 200
                         (SuccessJson "File uploaded successfully"
                            (name f) (size f) (type f) stored
                            (getPublicUrl url path))), bucket')
                end))).
Proof.
  unfold tryBlock.
  destruct (createClient _ _) as [e|url]; [left; eauto | right; exists url; split; [reflexivity|]].
  destruct (body req) as [fields|e]; [right; exists fields; split; [reflexivity|] | left; eauto].
  destruct (get "file" fields) as [[f|s]|].
  - destruct (Z.gtb_spec (size f) maxSize) as [Hbig|Hok].
    + do 3 right. left. exists f.
      split; [reflexivity | split; [lia | reflexivity]].
    + do 4 right. exists f.
      split; [reflexivity | split; [lia |]].
      cbv zeta. destruct (upload _ _ _ _ _ _) as [b [m|p]]; reflexivity.
  - destruct s as [|c s]; simpl.
    + right. left. split; reflexivity.
    + do 2 right. left. exists (String c s).
      split; [reflexivity | split; [reflexivity | eauto]].
  - left. split; reflexivity.
Qed.

(** The URLs [createClient] takes and the ones it refuses. *)
Example createClient_urls :
  createClient (Some "  https://project.supabase.co ") (Some "key")
  = inr "https://project.supabase.co"
  /\ createClient (Some "HTTP://localhost:54321") (Some "key") = inr "HTTP://localhost:54321"
  /\ createClient (Some "project.supabase.co") (Some "key")
     = inl (ErrorObject "Invalid supabaseUrl: Must be a valid HTTP or HTTPS URL.")
  /\ createClient (Some "   ") (Some "key") = inl (ErrorObject "supabaseUrl is required.")
  /\ createClient None (Some "key") = inl (ErrorObject "supabaseUrl is required.")
  /\ createClient (Some "https://project.supabase.co") (Some "")
     = inl (ErrorObject "supabaseKey is required.")
  /\ createClient (Some "https://project.supabase.co") None
     = inl (ErrorObject "supabaseKey is required.").
Proof. repeat split. Qed.

(** The store keeps what it has when a write may not overwrite. *)
Lemma upload_keeps b fault path f ct :
  forall key o, b !! key = Some o ->
                fst (upload b fault path f ct false) !! key = Some o.
Proof.
  intros key o H. unfold upload.
  destruct fault; [exact H|].
  destruct (b !! path) eqn:E; simpl; [exact H|].
  rewrite lookup_insert_ne; [exact H|]. congruence.
Qed.

Lemma upload_stored b fault path f ct b' stored :
  upload b fault path f ct false = (b', inr stored) ->
  stored = path /\ b !! path = None /\ b' = <[path := mkStoredObject f ct]> b.
Proof.
  unfold upload. destruct fault; [discriminate|].
  destruct (b !! path); [discriminate|].
  intros H. injection H as <- <-. repeat split.
Qed.

Lemma upload_failed b fault path f ct b' message :
  upload b fault path f ct false = (b', inl message) -> b' = b.
Proof.
  unfold upload. destruct fault; [congruence|].
  destruct (b !! path); congruence.
Qed.

End ServeFacts.

Module Ingestion.
Import JS Pattern JSFacts Ingest IngestFacts ServeFacts.

(** What the handler did with the request, read off its response. *)
Lemma serve_success w req message original sz ty path url :
  payload (fst (serve w req)) = Some (SuccessJson message original sz ty path url) ->
  exists f,
    original = name f /\
    path = uniqueFileName (now w) (random w) (name f) /\
    status (fst (serve w req)) = 200%Z /\
    bucket w !! path = None /\
    snd (serve w req) = <[path := mkStoredObject f (type f)]> (bucket w).
Proof.
  unfold serve. destruct (String.eqb (method req) "OPTIONS"); [discriminate|].
  destruct (tryBlock_cases w req) as [(e & _ & ->)|(u & _ & [(e & _ & ->)|(fields & _ & H)])];
    try discriminate.
  destruct H as [(_ & ->)|[(_ & ->)|[(s & _ & _ & e & ->)|[(f & _ & _ & ->)|(f & _ & _ & H)]]]];
    try discriminate.
  cbv zeta in H.
  destruct (upload _ _ _ _ _ _) as [b [m|stored]] eqn:U; rewrite H; simpl; [discriminate|].
  intros E. injection E as <- <- <- <- <- <-.
  apply upload_stored in U as (-> & Hfree & ->).
  exists f. repeat split; assumption.
Qed.

(** C2, as amended.  A success response carries the storage name
    [<millis>-<token>-<sanitized name>]: the token is made of at most six
    radix-36 digits of the random draw, the sanitized name is the
    original one with every character outside [[A-Za-z0-9._-]] replaced
    by an underscore, the status is 200, and the name matches the
    specification's pattern exactly when the clock is not negative, the
    token has all six digits and the original name is not empty. *)
Theorem storage_name_format w req message original sz ty path url :
  payload (fst (serve w req)) = Some (SuccessJson message original sz ty path url) ->
  status (fst (serve w req)) = 200%Z
  /\ path = numberToString (now w) +:+ "-" +:+ randomStr (random w)
            +:+ "-" +:+ sanitizedName original
  /\ (String.length (randomStr (random w)) <= 6)%nat
  /\ all isBase36 (randomStr (random w)) = true
  /\ String.length (sanitizedName original) = String.length original
  /\ (forall i,
        String.get i (sanitizedName original)
        = option_map (fun c => if isNameChar c then c else "_"%char)
                     (String.get i original))
  /\ (storageName path = true
      <-> (0 <= now w)%Z /\ String.length (randomStr (random w)) = 6%nat
          /\ original <> EmptyString).
Proof.
  intros H. apply serve_success in H as (f & -> & -> & Hst & _ & _).
  split; [exact Hst|]. split; [reflexivity|].
  split; [apply randomStr_length|]. split; [apply randomStr_base36|].
  split; [apply sanitizedName_length|]. split; [apply sanitizedName_get|].
  apply storageName_uniqueFileName.
Qed.

Lemma storage_name_format_witness :
  payload (fst (serve (Requests.world Requests.almostHalf)
                      Requests.oneFile))
  = Some (SuccessJson "File uploaded successfully" "a b.txt" 1048576 "text/plain"
            "1700000000000-hzzzzz-a_b.txt"
            "https://project.supabase.co/storage/v1/object/public/uploads/1700000000000-hzzzzz-a_b.txt")
  /\ storageName "1700000000000-hzzzzz-a_b.txt" = true.
Proof.
  assert (H : payload (fst (serve (Requests.world Requests.almostHalf)
                      Requests.oneFile))
  = Some (SuccessJson "File uploaded successfully" "a b.txt" 1048576 "text/plain"
            "1700000000000-hzzzzz-a_b.txt"
            "https://project.supabase.co/storage/v1/object/public/uploads/1700000000000-hzzzzz-a_b.txt"))
    by (vm_compute; reflexivity).
  split; [exact H|].
  apply (storage_name_format _ _ _ _ _ _ _ _ H).
  vm_compute. repeat split; discriminate.
Defined.

(** C2, as stated, fails: when [Math.random()] returns 1/2, whose
    radix-36 expansion is the single digit [i], a valid 1 MB file is
    stored with status 200 under a name with a one-character token, which
    the pattern rejects. *)
Lemma storage_name_short_token :
  status (fst (serve (Requests.world Requests.half) Requests.oneFile)) = 200%Z
  /\ payload (fst (serve (Requests.world Requests.half) Requests.oneFile))
     = Some (SuccessJson "File uploaded successfully" "a b.txt" 1048576 "text/plain"
               "1700000000000-i-a_b.txt"
               "https://project.supabase.co/storage/v1/object/public/uploads/1700000000000-i-a_b.txt")
  /\ randomStr Requests.half = "i"
  /\ storageName "1700000000000-i-a_b.txt" = false.
Proof. vm_compute. repeat split. Qed.

(** C3, as amended.  The handler answers 400 exactly when the request is
    not a pre-flight, the client could be created, the body is a
    multipart form, and [formData.get('file')] is [null] or the empty
    string, or is a file of more than 10 MiB.  The body is then
    [{error: "No file provided"}] in the first two cases and
    [{error: "File exceeds 10MB limit"}] in the third, and the bucket is
    not touched.  Nothing but the request and the handler's own constant
    enters the decision. *)
Theorem bad_request_iff w req :
  (status (fst (serve w req)) = 400%Z
   <-> method req <> "OPTIONS"
       /\ (exists url, createClient (SUPABASE_URL w) (SUPABASE_SERVICE_ROLE_KEY w) = inr url)
       /\ exists fields,
            body req = Multipart fields
            /\ (Requests.fileless fields \/ Requests.oversize fields))
  /\ (status (fst (serve w req)) = 400%Z ->
      snd (serve w req) = bucket w
      /\ exists fields,
           body req = Multipart fields
           /\ (Requests.fileless fields ->
               payload (fst (serve w req)) = Some (ErrorJson "No file provided"))
           /\ (Requests.oversize fields ->
               payload (fst (serve w req)) = Some (ErrorJson "File exceeds 10MB limit"))).
Proof.
  unfold Requests.fileless, Requests.oversize, serve.
  destruct (String.eqb_spec (method req) "OPTIONS") as [Hm|Hm].
  { simpl. split; [split; [discriminate | tauto] | discriminate]. }
  destruct (tryBlock_cases w req)
    as [(e & Hc & ->)|(u & Hc & [(e & Hb & ->)|(fields & Hb & H)])]; simpl.
  - split; [split; [discriminate|] | discriminate].
    intros (_ & (url & Hu) & _). congruence.
  - split; [split; [discriminate|] | discriminate].
    intros (_ & _ & fields & Hf & _). congruence.
  - destruct H as [(Hg & ->)|[(Hg & ->)|[(s & Hs & Hg & e & ->)|[(f & Hg & Hsz & ->)|(f & Hg & Hsz & H)]]]];
      simpl.
    + split.
      * split; [intros _ | reflexivity].
        split; [exact Hm|]. split; [eauto|]. exists fields. split; [exact Hb | left; left; exact Hg].
      * intros _. split; [reflexivity|]. exists fields. split; [exact Hb|].
        split; [reflexivity|]. intros (f & Hf & _). congruence.
    + split.
      * split; [intros _ | reflexivity].
        split; [exact Hm|]. split; [eauto|]. exists fields. split; [exact Hb | left; right; exact Hg].
      * intros _. split; [reflexivity|]. exists fields. split; [exact Hb|].
        split; [reflexivity|]. intros (f & Hf & _). congruence.
    + split; [split; [discriminate|] | discriminate].
      intros (_ & _ & fields' & Hb' & Hf).
      assert (fields' = fields) as -> by congruence.
      destruct Hf as [[Hf|Hf]|(f & Hf & _)]; try congruence.
      rewrite Hg in Hf. injection Hf as ->. discriminate Hs.
    + split.
      * split; [intros _ | reflexivity].
        split; [exact Hm|]. split; [eauto|]. exists fields. split; [exact Hb|].
        right. exists f. split; [exact Hg | exact Hsz].
      * intros _. split; [reflexivity|]. exists fields. split; [exact Hb|].
        split; [|reflexivity]. intros [Hf|Hf]; congruence.
    + cbv zeta in H. unfold maxSize in Hsz.
      assert (Hno : ~ (exists fields', body req = Multipart fields' /\
                ((get "file" fields' = None \/ get "file" fields' = Some (TextPart EmptyString))
                 \/ exists f', get "file" fields' = Some (FilePart f')
                               /\ (size f' > 10 * 1024 * 1024)%Z))).
      { intros (fields' & Hb' & Hf).
        assert (fields' = fields) as -> by congruence.
        destruct Hf as [[Hf|Hf]|(f' & Hf & Hbig)]; [congruence | congruence |].
        rewrite Hg in Hf. injection Hf as <-. lia. }
      destruct (upload _ _ _ _ _ _) as [b [m|stored]]; rewrite H; simpl;
        (split; [split; [discriminate | intros (_ & _ & Hx); contradiction] | discriminate]).
Qed.

Lemma bad_request_iff_witness :
  status (fst (serve (Requests.world Requests.half) (Requests.post []))) = 400%Z.
Proof.
  apply (proj1 (bad_request_iff (Requests.world Requests.half) (Requests.post []))).
  split; [discriminate|]. split; [eexists; reflexivity|].
  exists []. split; [reflexivity | left; left; reflexivity].
Defined.

(** C3, as stated, fails: a multipart request whose [file] field is an
    empty text value has a [file] field and no file at all, and is
    answered 400 with ["No file provided"]. *)
Lemma bad_request_with_file_field :
  get "file" [("file", TextPart EmptyString)] = Some (TextPart EmptyString)
  /\ status (fst (serve (Requests.world Requests.half)
                        (Requests.post [("file", TextPart EmptyString)]))) = 400%Z
  /\ payload (fst (serve (Requests.world Requests.half)
                         (Requests.post [("file", TextPart EmptyString)])))
     = Some (ErrorJson "No file provided").
Proof. vm_compute. repeat split. Qed.

(** C8.  Two storage names built for the same original name differ as
    soon as the clock readings or the random tokens do; and the handler
    never changes or removes an object the bucket already holds: a
    success adds one object under a name that was free. *)
Theorem distinct_names_no_overwrite :
  (forall ts1 r1 ts2 r2 original,
      (ts1, randomStr r1) <> (ts2, randomStr r2) ->
      uniqueFileName ts1 r1 original <> uniqueFileName ts2 r2 original)
  /\ (forall w req key o,
        bucket w !! key = Some o -> snd (serve w req) !! key = Some o)
  /\ (forall w req,
        status (fst (serve w req)) = 200%Z -> method req <> "OPTIONS" ->
        exists f path,
          path = uniqueFileName (now w) (random w) (name f)
          /\ bucket w !! path = None
          /\ snd (serve w req) = <[path := mkStoredObject f (type f)]> (bucket w)).
Proof.
  split; [|split].
  - intros ts1 r1 ts2 r2 original Hne Heq. apply Hne.
    unfold uniqueFileName in Heq.
    apply storage_name_parts_inj in Heq as (-> & -> & _);
      [reflexivity | apply randomStr_base36 | apply randomStr_base36].
  - intros w req key o H. unfold serve.
    destruct (String.eqb (method req) "OPTIONS"); [exact H|].
    destruct (tryBlock_cases w req)
      as [(e & _ & ->)|(u & _ & [(e & _ & ->)|(fields & _ & Hc)])]; simpl; try exact H.
    destruct Hc as [(_ & ->)|[(_ & ->)|[(s & _ & _ & e & ->)|[(f & _ & _ & ->)|(f & _ & _ & Hc)]]]];
      simpl; try exact H.
    cbv zeta in Hc.
    pose proof (upload_keeps (bucket w) (refusal w)
                  (uniqueFileName (now w) (random w) (name f)) f (type f) key o H) as K.
    destruct (upload _ _ _ _ _ _) as [b [m|stored]]; rewrite Hc; simpl; exact K.
  - intros w req. unfold serve.
    destruct (String.eqb_spec (method req) "OPTIONS"); [contradiction|].
    intros Hst _. revert Hst.
    destruct (tryBlock_cases w req)
      as [(e & _ & ->)|(u & _ & [(e & _ & ->)|(fields & _ & Hc)])]; simpl; try discriminate.
    destruct Hc as [(_ & ->)|[(_ & ->)|[(s & _ & _ & e & ->)|[(f & _ & _ & ->)|(f & _ & _ & Hc)]]]];
      simpl; try discriminate.
    cbv zeta in Hc.
    destruct (upload _ _ _ _ _ _) as [b [m|stored]] eqn:U; rewrite Hc; simpl; [discriminate|].
    intros _. apply upload_stored in U as (_ & Hfree & ->).
    exists f, (uniqueFileName (now w) (random w) (name f)). repeat split; assumption.
Qed.

(** Scenario C: no [file] field. *)
Example no_file_field :
  fst (serve (Requests.world Requests.half) (Requests.post []))
  = jsonResponse 400 (ErrorJson "No file provided").
Proof. reflexivity. Qed.

(** A pre-flight request is answered before anything is looked at. *)
Example preflight w fields :
  fst (serve w {| method := "OPTIONS"; body := fields |})
  = {| status := 200; headers := corsHeaders; payload := None |}.
Proof. reflexivity. Qed.

(** The same name a second time, with the same clock and draw: the store
    refuses and the handler reports it as a server error. *)
Example collision_is_reported :
  fst (serve {| SUPABASE_URL := Some "https://project.supabase.co";
                SUPABASE_SERVICE_ROLE_KEY := Some "service-role-key";
                now := 1700000000000; random := Requests.half;
                bucket := snd (serve (Requests.world Requests.half) Requests.oneFile);
                refusal := None |} Requests.oneFile)
  = jsonResponse 500 (ErrorJson "Upload failed: The resource already exists").
Proof. vm_compute. reflexivity. Qed.

(** A URL that is not one of HTTP: the client cannot be created, and the
    answer is 500 whatever the request holds. *)
Example client_not_created :
  fst (serve {| SUPABASE_URL := Some "project.supabase.co";
                SUPABASE_SERVICE_ROLE_KEY := Some "service-role-key";
                now := 1700000000000; random := Requests.half;
                bucket := ∅; refusal := None |} (Requests.post []))
  = jsonResponse 500
      (ErrorJson "Invalid supabaseUrl: Must be a valid HTTP or HTTPS URL.").
Proof. reflexivity. Qed.

Lemma distinct_names_no_overwrite_witness :
  uniqueFileName 1700000000000 Requests.almostHalf "a b.txt"
  <> uniqueFileName 1700000000001 Requests.almostHalf "a b.txt"
  /\ snd (serve (Requests.afterwards Requests.almostHalf) Requests.oneFile)
       !! "1700000000000-hzzzzz-a_b.txt"
     = Some (mkStoredObject Requests.notes "text/plain").
Proof.
  split.
  - apply (proj1 distinct_names_no_overwrite). intros H. discriminate H.
  - apply (proj1 (proj2 distinct_names_no_overwrite)). vm_compute. reflexivity.
Defined.

End Ingestion.

(* ================================================================== *)
(** * The upload queue: one task *)
(* ================================================================== *)

Module TaskFacts.
Import JS Uploader Tasks.

Section Validation.

Variable regexp : string -> string -> MatchOutcome.
Variable props : FileUploaderProps.

Lemma filter_keeps_all {A} (p : A -> bool) (l : list A) :
  (forall x, In x l -> p x = true) -> List.filter p l = l.
Proof.
  induction l as [|x l IH]; intros H; simpl; [reflexivity|].
  rewrite (H x (or_introl eq_refl)), IH; [reflexivity|].
  intros y Hy. apply H. right. exact Hy.
Qed.

(** C9.  Removing an id no task has leaves the client as it is; removing
    the id of a task erases that task and keeps the others, which have
    other ids, as they are and in their order. *)
Theorem removeFile_erases_only taskId (c : Client) :
  ((forall f, In f (files c) -> id f <> taskId) -> removeFile taskId c = c)
  /\ (forall before t after,
        files c = before ++ t :: after ->
        id t = taskId ->
        (forall f, In f (before ++ after) -> id f <> taskId) ->
        files (removeFile taskId c) = before ++ after).
Proof.
  assert (keep : forall l : list UploadedFile,
             (forall f, In f l -> id f <> taskId) ->
             List.filter (fun f => negb (String.eqb (id f) taskId)) l = l).
  { intros l H. apply filter_keeps_all. intros f Hf.
    destruct (String.eqb_spec (id f) taskId) as [E|E]; [|reflexivity].
    destruct (H f Hf E). }
  split.
  - intros H. destruct c as [fs up iv nh fe ts cs]. unfold removeFile, setFiles. simpl in *.
    rewrite (keep fs H). reflexivity.
  - intros before t after Hfiles Ht Hothers.
    unfold removeFile, setFiles. simpl. rewrite Hfiles.
    rewrite List.filter_app. simpl.
    rewrite Ht, String.eqb_refl. simpl.
    rewrite (keep before), (keep after); [reflexivity| |];
      intros f Hf; apply Hothers, in_or_app; [right | left]; exact Hf.
Qed.

Lemma some_true_iff subject patterns :
  some regexp subject patterns = inr true
  <-> exists before pattern after,
        patterns = before ++ pattern :: after
        /\ Forall (fun p => regexp subject p = NoMatch) before
        /\ regexp subject pattern = Matched.
Proof.
  induction patterns as [|p rest IH]; simpl.
  - split; [discriminate|]. intros (b & q & a & H & _). destruct b; discriminate H.
  - destruct (regexp subject p) eqn:E.
    + split; [intros _ | reflexivity].
      exists [], p, rest. repeat split; [constructor | exact E].
    + rewrite IH. split.
      * intros (b & q & a & -> & Hb & Hq).
        exists (p :: b), q, a. repeat split; [constructor; assumption | exact Hq].
      * intros (b & q & a & H & Hb & Hq).
        destruct b as [|p' b]; simpl in H; injection H as -> ->.
        -- congruence.
        -- inversion Hb; subst. exists b, q, a. repeat split; assumption.
    + split; [discriminate|].
      intros (b & q & a & H & Hb & Hq).
      destruct b as [|p' b]; simpl in H; injection H as -> ->.
      * congruence.
      * inversion Hb; subst. congruence.
Qed.

Lemma some_false subject patterns :
  Forall (fun p => regexp subject p = NoMatch) patterns ->
  some regexp subject patterns = inr false.
Proof.
  induction 1 as [|p rest Hp _ IH]; simpl; [reflexivity|].
  rewrite Hp. exact IH.
Qed.

Lemma filtering_star patterns :
  filtering patterns = false <-> exists rest, patterns = "*" :: rest.
Proof.
  destruct patterns as [|first rest]; simpl.
  - split; [discriminate | intros (r & H); discriminate H].
  - destruct (String.eqb_spec first "*") as [->|Hne]; simpl.
    + split; eauto.
    + split; [discriminate|]. intros (r & H). injection H as H _. contradiction.
Qed.

(** C10.  The type filter is skipped exactly when the first accepted
    type is ["*"]; then only the size rule decides.  Otherwise a file
    passes exactly when it is within the size limit and the scan of the
    patterns reaches one that its MIME type matches, and a file none of
    the patterns matches is refused, whatever stands after the first
    pattern. *)
Theorem type_filter_bypass (f : File) :
  (filtering (acceptedTypes props) = false
   <-> exists rest, acceptedTypes props = "*" :: rest)
  /\ (filtering (acceptedTypes props) = false ->
      validateFile regexp props f
      = inr (if (size f >? limit props)%Z then Some (sizeRule props) else None))
  /\ (filtering (acceptedTypes props) = true ->
      (validateFile regexp props f = inr None
       <-> (size f <= limit props)%Z
           /\ exists before pattern after,
                acceptedTypes props = before ++ pattern :: after
                /\ unmatched regexp f before
                /\ regexp (type f) pattern = Matched))
  /\ (filtering (acceptedTypes props) = true ->
      (size f <= limit props)%Z ->
      unmatched regexp f (acceptedTypes props) ->
      validateFile regexp props f = inr (Some typeRule)).
Proof.
  unfold validateFile, sizeRule, typeRule, limit, unmatched.
  split; [apply filtering_star|].
  split; [intros ->; destruct (size f >? _)%Z; reflexivity|].
  split.
  - intros ->. rewrite <- some_true_iff.
    destruct (Z.gtb_spec (size f) (maxFileSize props * 1024 * 1024)) as [Hbig|Hok].
    + split; [discriminate | lia].
    + destruct (some regexp (type f) (acceptedTypes props)) as [e|[|]].
      * split; [discriminate | intros [_ H]; discriminate H].
      * split; [intros _; split; [lia | reflexivity] | reflexivity].
      * split; [discriminate | intros [_ H]; discriminate H].
  - intros -> Hok Hnone.
    destruct (Z.gtb_spec (size f) (maxFileSize props * 1024 * 1024)) as [Hbig|_]; [lia|].
    rewrite (some_false _ _ Hnone). reflexivity.
Qed.

(** C1.  A file over the size limit, or one that none of the accepted
    types matches while the type filter applies, makes [uploadFile]
    return at once the task with status [error] and the message of the
    rule that failed, the size rule first; the client is left as it was,
    so nothing has been fetched and no interval has been started. *)
Theorem rejected_without_fetch (u : UploadedFile) (c : Client) :
  (size (file u) > limit props)%Z
  \/ (filtering (acceptedTypes props) = true
      /\ unmatched regexp (file u) (acceptedTypes props)) ->
  exists rule,
    rule = (if (size (file u) >? limit props)%Z then sizeRule props else typeRule)
    /\ uploadFile regexp props u c
       = (c, Returned {| id := id u; file := file u; status := error;
                         progress := progress u; errorMessage := Some rule |})
    /\ fetched (fst (uploadFile regexp props u c)) = fetched c
    /\ intervals (fst (uploadFile regexp props u c)) = intervals c.
Proof.
  unfold limit, unmatched. intros H.
  assert (V : validateFile regexp props (file u)
              = inr (Some (if (size (file u) >? maxFileSize props * 1024 * 1024)%Z
                           then sizeRule props else typeRule))).
  { unfold validateFile, sizeRule, typeRule.
    destruct (Z.gtb_spec (size (file u)) (maxFileSize props * 1024 * 1024)) as [Hbig|Hok];
      [reflexivity|].
    destruct H as [H|[-> Hnone]]; [lia|].
    rewrite (some_false _ _ Hnone). reflexivity. }
  eexists. split; [reflexivity|].
  unfold uploadFile. rewrite V.
  assert (T : truthy (if (size (file u) >? maxFileSize props * 1024 * 1024)%Z
                      then sizeRule props else typeRule) = true)
    by (destruct (size (file u) >? _)%Z; reflexivity).
  rewrite T. repeat split.
Qed.

Lemma uploadFile_valid (u : UploadedFile) (c : Client) :
  validateFile regexp props (file u) = inr None ->
  exists c1,
    uploadFile regexp props u c = (c1, Awaiting u (nextHandle c))
    /\ fetched c1 = fetched c ++ [file u]
    /\ intervals c1 = <[nextHandle c := id u]> (intervals c)
    /\ nextHandle c1 = S (nextHandle c).
Proof.
  intros V. unfold uploadFile. rewrite V. simpl.
  eexists. repeat split.
Qed.

Lemma resume_outcomeOf u h outcome c :
  snd (resume u h outcome c) = outcomeOf u outcome.
Proof.
  unfold resume, outcomeOf, caught, detail.
  destruct outcome as [response|[message|]]; simpl; [|reflexivity|reflexivity].
  destruct (ok response); reflexivity.
Qed.

(** C4.  A task that passes validation is suspended at its [fetch], and
    when that is answered with a status from 200 to 299 the call returns
    the task with status [success] and progress 100, whatever happened to
    the client in between. *)
Theorem success_on_2xx (u : UploadedFile) (c : Client) (response : FetchResponse) :
  validateFile regexp props (file u) = inr None ->
  (200 <= httpStatus response <= 299)%Z ->
  exists c1 progressInterval,
    uploadFile regexp props u c = (c1, Awaiting u progressInterval)
    /\ fetched c1 = fetched c ++ [file u]
    /\ forall c2,
         snd (resume u progressInterval (Fulfilled response) c2)
         = {| id := id u; file := file u; status := success; progress := 100;
              errorMessage := errorMessage u |}.
Proof.
  intros V Hok.
  destruct (uploadFile_valid u c V) as (c1 & U & F & _).
  exists c1, (nextHandle c). split; [exact U|]. split; [exact F|].
  intros c2. rewrite resume_outcomeOf. unfold outcomeOf, ok.
  replace (200 <=? httpStatus response)%Z with true by lia.
  replace (httpStatus response <=? 299)%Z with true by lia.
  reflexivity.
Qed.

(** C5, as amended.  A task that passes validation and whose [fetch] is
    answered with a status outside 200-299, or is rejected, is returned
    with status [error], progress 0 and an error message: ["Upload
    failed: "] and the status text, the message of the [Error] thrown, or
    ["Upload failed"] for any other thrown value.  The message is empty
    only when an [Error] with an empty message was thrown. *)
Theorem error_on_failure (u : UploadedFile) (c : Client) (outcome : FetchOutcome) :
  validateFile regexp props (file u) = inr None ->
  (forall response, outcome = Fulfilled response ->
                    ~ (200 <= httpStatus response <= 299)%Z) ->
  exists c1 progressInterval,
    uploadFile regexp props u c = (c1, Awaiting u progressInterval)
    /\ (forall c2,
          snd (resume u progressInterval outcome c2)
          = {| id := id u; file := file u; status := error; progress := 0;
               errorMessage := Some (detail outcome) |})
    /\ (detail outcome = EmptyString <-> outcome = Rejected (ErrorObject EmptyString)).
Proof.
  intros V Hfail.
  destruct (uploadFile_valid u c V) as (c1 & U & _).
  exists c1, (nextHandle c). split; [exact U|]. split.
  - intros c2. rewrite resume_outcomeOf. unfold outcomeOf.
    destruct outcome as [response|reason]; [|reflexivity].
    specialize (Hfail response eq_refl). unfold ok.
    destruct (Z.leb_spec 200 (httpStatus response)), (Z.leb_spec (httpStatus response) 299);
      simpl; try reflexivity. lia.
  - unfold detail. destruct outcome as [response|[message|]].
    + split; discriminate.
    + split; [intros -> | intros H; injection H as ->]; reflexivity.
    + split; discriminate.
Qed.

End Validation.

Lemma removeFile_erases_only_witness :
  removeFile "missing" (queue [task "a" picture; task "b" video])
  = queue [task "a" picture; task "b" video]
  /\ files (removeFile "a" (queue [task "a" picture; task "b" video]))
     = [task "b" video].
Proof.
  split.
  - apply (proj1 (removeFile_erases_only "missing" _)).
    simpl. intros f [<-|[<-|[]]]; discriminate.
  - apply (proj2 (removeFile_erases_only "a" (queue [task "a" picture; task "b" video]))
             [] (task "a" picture) [task "b" video]); [reflexivity | reflexivity |].
    simpl. intros f [<-|[]]. discriminate.
Defined.

Lemma type_filter_bypass_witness :
  filtering (acceptedTypes imagesOnly) = true
  /\ validateFile literalMatch imagesOnly (mkFile "notes.pdf" 1024 "application/pdf")
     = inl (ErrorObject "Invalid regular expression: /*/: Nothing to repeat")
  /\ validateFile literalMatch imagesOnly picture = inr None
  /\ validateFile literalMatch (mkProps "/api/upload" 10 ["image/"; "video/"])
                  (mkFile "notes.pdf" 1024 "application/pdf")
     = inr (Some typeRule).
Proof.
  split; [reflexivity|]. split; [reflexivity|]. split.
  - apply (proj2 (proj1 (proj2 (proj2 (type_filter_bypass literalMatch imagesOnly picture)))
                   eq_refl)).
    split; [vm_compute; discriminate|].
    exists [], "image/", ["*"]. split; [reflexivity|]. split; [constructor | reflexivity].
  - apply (proj2 (proj2 (proj2 (type_filter_bypass literalMatch
                    (mkProps "/api/upload" 10 ["image/"; "video/"])
                    (mkFile "notes.pdf" 1024 "application/pdf"))))).
    + reflexivity.
    + vm_compute; discriminate.
    + repeat constructor.
Defined.

Lemma rejected_without_fetch_witness :
  exists rule,
    rule = "File exceeds 10MB limit"
    /\ uploadFile literalMatch defaultProps (task "b" video) (queue [task "b" video])
       = (queue [task "b" video],
          Returned {| id := "b"; file := video; status := error; progress := 0;
                      errorMessage := Some rule |})
    /\ fetched (fst (uploadFile literalMatch defaultProps (task "b" video)
                       (queue [task "b" video]))) = []
    /\ intervals (fst (uploadFile literalMatch defaultProps (task "b" video)
                         (queue [task "b" video]))) = ∅.
Proof.
  apply (rejected_without_fetch literalMatch defaultProps (task "b" video)
           (queue [task "b" video])).
  left. vm_compute. reflexivity.
Defined.

Lemma success_on_2xx_witness :
  exists c1 progressInterval,
    uploadFile literalMatch defaultProps (task "a" picture) (queue [task "a" picture])
    = (c1, Awaiting (task "a" picture) progressInterval)
    /\ fetched c1 = [] ++ [picture]
    /\ forall c2,
         snd (resume (task "a" picture) progressInterval
                (Fulfilled (mkFetchResponse 200 "OK")) c2)
         = {| id := "a"; file := picture; status := success; progress := 100;
              errorMessage := None |}.
Proof.
  apply (success_on_2xx literalMatch defaultProps (task "a" picture)
           (queue [task "a" picture]) (mkFetchResponse 200 "OK")).
  - reflexivity.
  - simpl. lia.
Defined.

Lemma error_on_failure_witness :
  exists c1 progressInterval,
    uploadFile literalMatch defaultProps (task "a" picture) (queue [task "a" picture])
    = (c1, Awaiting (task "a" picture) progressInterval)
    /\ (forall c2,
          snd (resume (task "a" picture) progressInterval
                 (Fulfilled (mkFetchResponse 500 "Internal Server Error")) c2)
          = {| id := "a"; file := picture; status := error; progress := 0;
               errorMessage := Some "Upload failed: Internal Server Error" |})
    /\ ("Upload failed: Internal Server Error" = EmptyString
        <-> Fulfilled (mkFetchResponse 500 "Internal Server Error")
            = Rejected (ErrorObject EmptyString)).
Proof.
  apply (error_on_failure literalMatch defaultProps (task "a" picture)
           (queue [task "a" picture])
           (Fulfilled (mkFetchResponse 500 "Internal Server Error"))).
  - reflexivity.
  - intros response H. injection H as <-. simpl. lia.
Defined.

(** C5, as stated, fails: when [fetch] is rejected with an [Error] whose
    message is empty, the task comes back with status [error], progress 0
    and the empty string as its error message. *)
Lemma empty_error_message :
  validateFile literalMatch defaultProps picture = inr None
  /\ forall h c,
       snd (resume (task "a" picture) h (Rejected (ErrorObject EmptyString)) c)
       = {| id := "a"; file := picture; status := error; progress := 0;
            errorMessage := Some EmptyString |}.
Proof. split; [reflexivity | intros h c; reflexivity]. Qed.

End TaskFacts.

(* ================================================================== *)
(** * The upload queue: a whole upload *)
(* ================================================================== *)

Module RunFacts.
Import JS Uploader Tasks Runs TaskFacts.

Section Upload.

Variable regexp : string -> string -> MatchOutcome.
Variable props : FileUploaderProps.
Variable network : nat -> FetchOutcome.

Lemma uploadFile_cases (u : UploadedFile) (c : Client) :
  (exists e, uploadFile regexp props u c = (c, Threw e))
  \/ (exists rule,
        uploadFile regexp props u c
        = (c, Returned {| id := id u; file := file u; status := error;
                          progress := progress u; errorMessage := Some rule |}))
  \/ (exists c1,
        uploadFile regexp props u c = (c1, Awaiting u (nextHandle c))
        /\ fetched c1 = fetched c ++ [file u]
        /\ toasts c1 = toasts c /\ completed c1 = completed c).
Proof.
  unfold uploadFile.
  destruct (validateFile regexp props (file u)) as [e|[rule|]].
  - left. eauto.
  - destruct (truthy rule).
    + right. left. eauto.
    + right. right. eexists. repeat split.
  - right. right. eexists. repeat split.
Qed.

Lemma mapUploadFile_spec (selected : list UploadedFile) (c : Client) :
  Forall2 startOf selected (snd (mapUploadFile regexp props selected c))
  /\ fetched (fst (mapUploadFile regexp props selected c))
     = fetched c ++ omap sent (snd (mapUploadFile regexp props selected c))
  /\ toasts (fst (mapUploadFile regexp props selected c)) = toasts c
  /\ completed (fst (mapUploadFile regexp props selected c)) = completed c.
Proof.
  revert c. induction selected as [|u rest IH]; intros c; simpl.
  - repeat split; [constructor | now rewrite app_nil_r].
  - destruct (uploadFile regexp props u c) as [c1 a] eqn:U.
    specialize (IH c1).
    destruct (mapUploadFile regexp props rest c1) as [c2 others]. simpl in *.
    destruct IH as (F & Hf & Ht & Hc).
    destruct (uploadFile_cases u c) as [(e & E)|[(rule & E)|(c1' & E & Ef & Et & Ec)]];
      rewrite U in E; injection E as -> ->.
    + repeat split; try assumption.
      constructor; [right; left; eauto | exact F].
    + repeat split; try assumption.
      constructor; [left; eauto | exact F].
    + repeat split; try congruence.
      * constructor; [right; right; eauto | exact F].
      * simpl. rewrite Hf, Ef, <- List.app_assoc. reflexivity.
Qed.

Lemma settle_activations r : activations (settle r) = activations r.
Proof.
  unfold settle. destruct (promise r); try reflexivity.
  destruct (firstThrown (activations r)); [reflexivity|].
  destruct (allReturned (activations r)); reflexivity.
Qed.

Lemma settle_fetched r : fetched (client (settle r)) = fetched (client r).
Proof.
  unfold settle. destruct (promise r); try reflexivity.
  destruct (firstThrown (activations r)); [reflexivity|].
  destruct (allReturned (activations r)) as [results|]; [|reflexivity].
  unfold afterAll. simpl.
  destruct (0 <? successCount results)%nat, (0 <? errorCount results)%nat; reflexivity.
Qed.

Lemma afterAll_surfaces results c :
  completed (afterAll results c) = completed c ++ [results]
  /\ toasts (afterAll results c) = toasts c ++ summary results
  /\ isUploading (afterAll results c) = false.
Proof.
  unfold afterAll, summary. simpl.
  destruct (0 <? successCount results)%nat, (0 <? errorCount results)%nat; simpl;
    rewrite ?app_nil_r, <- ?List.app_assoc; repeat split.
Qed.

Lemma resume_client u h outcome c :
  fetched (fst (resume u h outcome c)) = fetched c
  /\ toasts (fst (resume u h outcome c)) = toasts c
  /\ completed (fst (resume u h outcome c)) = completed c.
Proof.
  unfold resume. destruct outcome as [response|reason]; [|repeat split].
  destruct (ok response); repeat split.
Qed.

(** ** What a step does to the calls *)

Lemma allReturned_lookup acts results :
  allReturned acts = Some results ->
  length results = length acts
  /\ forall k, acts !! k = Returned <$> (results !! k).
Proof.
  revert results. induction acts as [|a acts IH]; intros results; simpl.
  - intros H. injection H as <-. split; [reflexivity | intros k; reflexivity].
  - destruct a as [r| |]; try discriminate.
    destruct (allReturned acts) as [rs|]; [|discriminate].
    intros H. injection H as <-.
    destruct (IH rs eq_refl) as [L K]. split; [simpl; congruence|].
    intros [|k]; [reflexivity | apply K].
Qed.

Lemma allReturned_complete acts :
  (forall k, k < length acts -> exists r, acts !! k = Some (Returned r)) ->
  exists results, allReturned acts = Some results.
Proof.
  induction acts as [|a acts IH]; intros H; simpl; [eauto|].
  destruct (H 0%nat) as (r & E); [simpl; lia|]. simpl in E. injection E as ->.
  destruct IH as (rs & ->); [|eauto].
  intros k Hk. apply (H (S k)). simpl. lia.
Qed.

Lemma firstThrown_lookup acts :
  firstThrown acts = None <-> forall k e, acts !! k <> Some (Threw e).
Proof.
  induction acts as [|a acts IH]; simpl.
  - split; [intros _ k e; destruct k; discriminate | reflexivity].
  - destruct a as [r|e|u h].
    + rewrite IH. split.
      * intros H [|k] e; [discriminate | apply H].
      * intros H k e. apply (H (S k) e).
    + split; [discriminate|]. intros H. destruct (H 0%nat e eq_refl).
    + rewrite IH. split.
      * intros H [|k] e; [discriminate | apply H].
      * intros H k e. apply (H (S k) e).
Qed.

Lemma evolved_refl acts : evolved network acts acts.
Proof. split; [reflexivity | intros k; left; reflexivity]. Qed.

Lemma step_activations r ev :
  activations (step network r ev) = activations r
  \/ exists k u h,
       ev = Settle k /\ activations r !! k = Some (Awaiting u h)
       /\ activations (step network r ev)
          = <[k := Returned (outcomeOf u (network k))]> (activations r).
Proof.
  destruct ev as [h|k]; simpl.
  - destruct (intervals (client r) !! h); left; reflexivity.
  - destruct (activations r !! k) as [[x|e|u h]|] eqn:E; try (left; reflexivity).
    right. exists k, u, h. split; [reflexivity|]. split; [exact E|].
    pose proof (resume_outcomeOf u h (network k) (client r)) as R.
    destruct (resume u h (network k) (client r)) as [c1 result]. simpl in R. subst result.
    rewrite settle_activations. reflexivity.
Qed.

Lemma evolved_step before r ev :
  evolved network before (activations r) -> evolved network before (activations (step network r ev)).
Proof.
  intros [L K].
  destruct (step_activations r ev) as [->|(k & u & h & _ & E & ->)]; [split; assumption|].
  split; [rewrite length_insert; exact L|].
  intros j. destruct (decide (j = k)) as [->|Hne].
  - right. destruct (K k) as [Same|(u' & h' & _ & R)]; [|congruence].
    exists u, h. split; [congruence|].
    apply list_lookup_insert_eq. apply lookup_lt_Some in E. exact E.
  - rewrite list_lookup_insert_ne by congruence. apply K.
Qed.

Lemma evolved_run before r events :
  evolved network before (activations r) -> evolved network before (activations (run network r events)).
Proof.
  unfold run. revert r. induction events as [|ev events IH]; intros r H; simpl; [exact H|].
  apply IH, evolved_step, H.
Qed.

(** Two lists of results grown from the same calls are the same list. *)
Lemma evolved_results before after1 after2 results1 results2 :
  evolved network before after1 -> evolved network before after2 ->
  allReturned after1 = Some results1 -> allReturned after2 = Some results2 ->
  results1 = results2.
Proof.
  intros [L1 K1] [L2 K2] R1 R2.
  apply allReturned_lookup in R1 as [N1 A1], R2 as [N2 A2].
  apply list_eq. intros k.
  specialize (A1 k). specialize (A2 k).
  destruct (K1 k) as [S1|(u1 & h1 & B1 & S1)], (K2 k) as [S2|(u2 & h2 & B2 & S2)];
    rewrite A1 in S1; rewrite A2 in S2.
  - rewrite <- S2 in S1.
    destruct (results1 !! k), (results2 !! k); simpl in S1; congruence.
  - rewrite B2 in S1. destruct (results1 !! k); discriminate S1.
  - rewrite B1 in S2. destruct (results2 !! k); discriminate S2.
  - rewrite B1 in B2. injection B2 as <- _.
    destruct (results1 !! k), (results2 !! k); simpl in *; congruence.
Qed.

Lemma settle_surfaced c r :
  promise r = Unsettled ->
  completed (client r) = completed c -> toasts (client r) = toasts c ->
  surfaced c (settle r).
Proof.
  intros P Hc Ht. unfold settle, surfaced. rewrite P.
  destruct (firstThrown (activations r)) as [e|] eqn:T; cbn [promise client activations].
  - rewrite T. discriminate.
  - destruct (allReturned (activations r)) as [results|] eqn:A;
      cbn [promise client activations].
    + exists results. destruct (afterAll_surfaces results (client r)) as (C & S & _).
      rewrite C, S, Hc, Ht. repeat split. exact A.
    + rewrite P. repeat split; assumption.
Qed.

Lemma firstThrown_insert acts k u h x :
  acts !! k = Some (Awaiting u h) ->
  firstThrown (<[k := Returned x]> acts) = firstThrown acts.
Proof.
  revert k. induction acts as [|a acts IH]; intros k E; [destruct k; discriminate E|].
  destruct k as [|k]; simpl in *.
  - injection E as ->. reflexivity.
  - rewrite (IH k E). reflexivity.
Qed.

Lemma surfaced_step c r ev : surfaced c r -> surfaced c (step network r ev).
Proof.
  intros S. destruct ev as [h|k]; simpl.
  - destruct (intervals (client r) !! h); exact S.
  - destruct (activations r !! k) as [[x|e|u h]|] eqn:E; try exact S.
    destruct (resume_client u h (network k) (client r)) as (_ & Rt & Rc).
    destruct (resume u h (network k) (client r)) as [c1 result]. simpl in Rt, Rc.
    unfold surfaced in S. destruct (promise r) eqn:P.
    + destruct S as (_ & Sc & St).
      apply settle_surfaced; simpl; congruence.
    + destruct S as (results & A & _).
      apply allReturned_lookup in A as [_ A]. rewrite A in E.
      destruct (results !! k); discriminate E.
    + unfold settle, surfaced. cbn [promise client activations].
      rewrite (firstThrown_insert _ _ _ _ _ E). exact S.
Qed.

Lemma surfaced_run c r events : surfaced c r -> surfaced c (run network r events).
Proof.
  unfold run. revert r. induction events as [|ev events IH]; intros r H; simpl; [exact H|].
  apply IH, surfaced_step, H.
Qed.

Lemma step_fetched r ev : fetched (client (step network r ev)) = fetched (client r).
Proof.
  destruct ev as [h|k]; simpl.
  - destruct (intervals (client r) !! h); reflexivity.
  - destruct (activations r !! k) as [[x|e|u h]|]; try reflexivity.
    destruct (resume_client u h (network k) (client r)) as (Rf & _).
    destruct (resume u h (network k) (client r)) as [c1 result].
    rewrite settle_fetched. exact Rf.
Qed.

Lemma run_fetched r events : fetched (client (run network r events)) = fetched (client r).
Proof.
  unfold run. revert r. induction events as [|ev events IH]; intros r; simpl; [reflexivity|].
  rewrite IH. apply step_fetched.
Qed.

(** ** Every call gets its answer *)

Lemma step_keeps_returned r ev k x :
  activations r !! k = Some (Returned x) ->
  activations (step network r ev) !! k = Some (Returned x).
Proof.
  intros H.
  destruct (step_activations r ev) as [->|(j & u & h & _ & E & ->)]; [exact H|].
  destruct (decide (k = j)) as [->|Hne]; [congruence|].
  rewrite list_lookup_insert_ne by congruence. exact H.
Qed.

Lemma step_no_throw r ev :
  firstThrown (activations (step network r ev)) = firstThrown (activations r).
Proof.
  destruct (step_activations r ev) as [->|(j & u & h & _ & E & ->)]; [reflexivity|].
  apply (firstThrown_insert _ _ _ _ _ E).
Qed.

Lemma step_settles r k :
  firstThrown (activations r) = None -> k < length (activations r) ->
  exists x, activations (step network r (Settle k)) !! k = Some (Returned x).
Proof.
  intros T Hk.
  destruct (lookup_lt_is_Some_2 _ _ Hk) as [a E].
  destruct a as [x|e|u h].
  - exists x. apply step_keeps_returned, E.
  - rewrite firstThrown_lookup in T. destruct (T k e E).
  - destruct (step_activations r (Settle k)) as [Same|(j & u' & h' & J & E' & ->)].
    + exfalso. simpl in Same. rewrite E in Same.
      destruct (resume u h (network k) (client r)) as [c1 result].
      rewrite settle_activations in Same. simpl in Same.
      apply (f_equal (fun l => l !! k)) in Same.
      rewrite list_lookup_insert_eq in Same by exact Hk. congruence.
    + injection J as <-. eexists. apply list_lookup_insert_eq. exact Hk.
Qed.

Lemma step_length r ev : length (activations (step network r ev)) = length (activations r).
Proof.
  destruct (step_activations r ev) as [->|(j & u & h & _ & _ & ->)];
    [reflexivity | apply length_insert].
Qed.

Lemma run_snoc r events ev :
  run network r (events ++ [ev]) = step network (run network r events) ev.
Proof. unfold run. rewrite fold_left_app. reflexivity. Qed.

Lemma run_no_throw r events :
  firstThrown (activations (run network r events)) = firstThrown (activations r).
Proof.
  induction events as [|ev events IH] using rev_ind; [reflexivity|].
  rewrite run_snoc, step_no_throw. exact IH.
Qed.

Lemma run_length r events :
  length (activations (run network r events)) = length (activations r).
Proof.
  induction events as [|ev events IH] using rev_ind; [reflexivity|].
  rewrite run_snoc, step_length. exact IH.
Qed.

Lemma run_settles r events k :
  firstThrown (activations r) = None -> k < length (activations r) ->
  In (Settle k) events ->
  exists x, activations (run network r events) !! k = Some (Returned x).
Proof.
  intros T Hk. induction events as [|ev events IH] using rev_ind; [intros []|].
  intros Hin. rewrite run_snoc.
  apply in_app_or in Hin as [Hin|[->|[]]].
  - destruct (IH Hin) as (x & E). exists x. apply step_keeps_returned, E.
  - apply step_settles; [rewrite run_no_throw; exact T | rewrite run_length; exact Hk].
Qed.

Lemma run_keeps_returned r events k x :
  activations r !! k = Some (Returned x) ->
  activations (run network r events) !! k = Some (Returned x).
Proof.
  intros H. induction events as [|ev events IH] using rev_ind; [exact H|].
  rewrite run_snoc. apply step_keeps_returned, IH.
Qed.

(** ** Counting results *)

Lemma counts_add_up results :
  Forall (fun r => status r = success \/ status r = error) results ->
  (successCount results + errorCount results = length results)%nat.
Proof.
  unfold successCount, errorCount.
  induction 1 as [|r rest [E|E] _ IH]; simpl; [reflexivity| |]; rewrite E; simpl; lia.
Qed.

Lemma outcomeOf_terminal u outcome : terminalFor u (outcomeOf u outcome).
Proof.
  unfold terminalFor, outcomeOf.
  destruct outcome as [response|reason]; [destruct (ok response)|]; simpl; auto.
Qed.

Lemma results_terminal selected started final results :
  Forall2 startOf selected started ->
  evolved network started final ->
  allReturned final = Some results ->
  Forall2 terminalFor selected results.
Proof.
  intros F [L K] A.
  apply allReturned_lookup in A as [N A].
  apply Forall2_same_length_lookup. split.
  - apply Forall2_length in F. congruence.
  - intros k u x Hu Hx.
    destruct (Forall2_lookup_l _ _ _ _ _ F Hu) as (a & Ha & S).
    specialize (A k). rewrite Hx in A. simpl in A.
    destruct (K k) as [Same|(u' & h & B & R)].
    + rewrite A, Ha in Same. injection Same as <-.
      destruct S as [(rule & E)|[(e & E)|(h & E)]]; try discriminate E.
      injection E as ->. unfold terminalFor. simpl. auto.
    + rewrite A in R. injection R as ->. rewrite Ha in B. injection B as ->.
      destruct S as [(rule & E)|[(e & E)|(h' & E)]]; try discriminate E.
      injection E as -> _. apply outcomeOf_terminal.
Qed.

Lemma step_resolved r ev : promise r = Resolved -> promise (step network r ev) = Resolved.
Proof.
  intros P. destruct ev as [h|k]; simpl.
  - destruct (intervals (client r) !! h); exact P.
  - destruct (activations r !! k) as [[x|e|u h]|]; try exact P.
    destruct (resume u h (network k) (client r)) as [c1 result].
    unfold settle. cbn [promise]. rewrite P. reflexivity.
Qed.

Lemma run_resolved r events : promise r = Resolved -> promise (run network r events) = Resolved.
Proof.
  unfold run. revert r. induction events as [|ev events IH]; intros r P; simpl; [exact P|].
  apply IH, step_resolved, P.
Qed.

Lemma handleUpload_started (c : Client) :
  let started := handleUpload regexp props c in
  Forall2 startOf (pendingFiles c) (activations started)
  /\ fetched (client started) = fetched c ++ omap sent (activations started)
  /\ (pendingFiles c = [] -> promise started = Resolved)
  /\ (pendingFiles c <> [] -> surfaced c started).
Proof.
  cbv zeta. unfold handleUpload.
  destruct (pendingFiles c) as [|u rest] eqn:Sel.
  - simpl. repeat split; [constructor | now rewrite app_nil_r | congruence].
  - pose proof (mapUploadFile_spec (u :: rest) (setIsUploading true c)) as (F & Hf & Ht & Hc).
    destruct (mapUploadFile regexp props (u :: rest) (setIsUploading true c)) as [c1 acts].
    simpl in F, Hf, Ht, Hc.
    rewrite settle_activations, settle_fetched. cbn [activations client].
    repeat split; try assumption; [discriminate|].
    intros _. apply settle_surfaced; [reflexivity | exact Hc | exact Ht].
Qed.

Lemma resume_intervals u h outcome c :
  intervals (fst (resume u h outcome c))
  = match outcome with
    | Fulfilled _ => delete h (intervals c)
    | Rejected _ => intervals c
    end.
Proof.
  unfold resume. destruct outcome as [response|reason]; [|reflexivity].
  destruct (ok response); reflexivity.
Qed.

(** What one firing of a task's interval does to a task of the list:
    nothing, or, for a task of that id that is uploading below 90, twenty
    more on its progress, 90 at most. *)
Lemma advance_lookup taskId prev k after :
  advance taskId prev !! k = Some after ->
  exists before,
    prev !! k = Some before
    /\ id after = id before /\ file after = file before
    /\ status after = status before /\ errorMessage after = errorMessage before
    /\ (progress before <= progress after)%Z
    /\ (after = before
        \/ (id before = taskId /\ status before = uploading
            /\ (progress before < 90)%Z
            /\ progress after = Z.min (progress before + 20) 90)).
Proof.
  unfold advance. rewrite list_lookup_fmap.
  destruct (prev !! k) as [before|]; [|discriminate].
  simpl. intros H. injection H as <-. exists before. split; [reflexivity|].
  assert (same : id before = id before /\ file before = file before
                 /\ status before = status before
                 /\ errorMessage before = errorMessage before
                 /\ (progress before <= progress before)%Z
                 /\ (before = before
                     \/ (id before = taskId /\ status before = uploading
                         /\ (progress before < 90)%Z
                         /\ progress before = Z.min (progress before + 20) 90)))
    by (do 4 (split; [reflexivity|]); split; [lia | left; reflexivity]).
  destruct (String.eqb_spec (id before) taskId) as [Hid|Hid]; simpl; [|exact same].
  destruct (Status_eqb (status before) uploading) eqn:St; simpl; [|exact same].
  destruct (Z.ltb_spec (progress before) 90) as [Hp|Hp]; simpl; [|exact same].
  do 4 (split; [reflexivity|]). split; [lia|]. right.
  split; [exact Hid|]. split; [|split; [exact Hp | reflexivity]].
  destruct (status before); [discriminate St | reflexivity | discriminate St | discriminate St].
Qed.

(** While a task is uploading, firing its interval keeps its progress at
    or below 90. *)
Lemma advance_capped taskId prev k before after :
  prev !! k = Some before -> advance taskId prev !! k = Some after ->
  status before = uploading -> (progress before <= 90)%Z ->
  (progress before <= progress after <= 90)%Z.
Proof.
  intros Hb Ha _ Hcap.
  destruct (advance_lookup taskId prev k after Ha) as (b & Hb' & _ & _ & _ & _ & Hle & H).
  rewrite Hb in Hb'. injection Hb' as <-.
  destruct H as [->|(_ & _ & _ & ->)]; lia.
Qed.

End Upload.

(** C6.  The interval of a task is cleared when its [fetch] is
    fulfilled, with whatever status, and is left running when the [fetch]
    is rejected.  With two pictures in flight and the first request
    rejected, the call for the first task has returned its error, its
    interval (handle 1) is still live, and the next firing moves the
    progress of the first task from 10 to 30; once the second request is
    answered and [handleUpload] has returned, interval 2 is gone and
    interval 1 is still there. *)
Theorem interval_outlives_rejected_fetch :
  (forall u h response c,
      intervals (fst (resume u h (Fulfilled response) c)) = delete h (intervals c))
  /\ (forall u h reason c,
        intervals (fst (resume u h (Rejected reason) c)) = intervals c)
  /\ intervals (client bothStarted) !! 1 = Some "a"
  /\ intervals (client bothStarted) !! 2 = Some "b"
  /\ activations firstSettled !! 0
     = Some (Returned {| id := "a"; file := picture; status := error; progress := 0;
                         errorMessage := Some "Failed to fetch" |})
  /\ promise firstSettled = Unsettled
  /\ intervals (client firstSettled) !! 1 = Some "a"
  /\ map (fun f => (id f, status f, progress f)) (files (client firstSettled))
     = [("a", uploading, 10%Z); ("b", uploading, 10%Z)]
  /\ map (fun f => (id f, status f, progress f)) (files (client firedAgain))
     = [("a", uploading, 30%Z); ("b", uploading, 10%Z)]
  /\ promise bothSettled = Resolved
  /\ intervals (client bothSettled) !! 2 = None
  /\ intervals (client bothSettled) !! 1 = Some "a".
Proof.
  split; [intros u h response c; apply resume_intervals|].
  split; [intros u h reason c; apply resume_intervals|].
  vm_compute. repeat split.
Qed.

(** Scenario A: one picture of 5 MB under a limit of 10 MB, answered
    with 200. *)
Example one_picture_uploaded :
  files (client (run (fun _ => Fulfilled (mkFetchResponse 200 "OK"))
                   (handleUpload literalMatch defaultProps (queue [task "a" picture]))
                   [Tick 1; Tick 1; Settle 0]))
  = [ {| id := "a"; file := picture; status := success; progress := 100;
         errorMessage := None |} ].
Proof. vm_compute. reflexivity. Qed.

(** Scenario B: one video of 15 MB under a limit of 10 MB. *)
Example one_video_refused :
  files (client (handleUpload literalMatch defaultProps (queue [task "b" video])))
  = [ {| id := "b"; file := video; status := error; progress := 0;
         errorMessage := Some "File exceeds 10MB limit" |} ]
  /\ fetched (client (handleUpload literalMatch defaultProps (queue [task "b" video]))) = []
  /\ promise (handleUpload literalMatch defaultProps (queue [task "b" video])) = Resolved.
Proof. vm_compute. repeat split. Qed.

(** A pattern that is not a regular expression: [validateFile] throws,
    [Promise.all] rejects and [handleUpload] with it. *)
Example bad_pattern_rejects :
  promise (handleUpload literalMatch imagesOnly
             (queue [task "n" (mkFile "notes.pdf" 1024 "application/pdf")]))
  = Failed (ErrorObject "Invalid regular expression: /*/: Nothing to repeat").
Proof. vm_compute. reflexivity. Qed.

End RunFacts.

(* ================================================================== *)
(** * The ingestion handler: every response, and the bucket *)
(* ================================================================== *)

Module Responses.
Import JS Pattern JSFacts Ingest IngestFacts ServeFacts Stored.

(** Every way [serve] can end. *)
Lemma serve_cases w req :
  (method req = "OPTIONS"
   /\ serve w req = ({| status := 200; headers := corsHeaders; payload := None |}, bucket w))
  \/ (method req <> "OPTIONS"
      /\ ((exists code e, (code = 400 \/ code = 500)%Z
                          /\ serve w req = (jsonResponse code (ErrorJson e), bucket w))
          \/ exists f url,
               bucket w !! uniqueFileName (now w) (random w) (name f) = None
               /\ serve w req
                  = (jsonResponse 200
                       (SuccessJson "File uploaded successfully"
                          (name f) (size f) (type f)
                          (uniqueFileName (now w) (random w) (name f))
                          (getPublicUrl url (uniqueFileName (now w) (random w) (name f)))),
                     <[uniqueFileName (now w) (random w) (name f)
                       := mkStoredObject f (type f)]> (bucket w)))).
Proof.
  unfold serve.
  destruct (String.eqb_spec (method req) "OPTIONS") as [Hm|Hm]; [left; split; [exact Hm | reflexivity]|].
  right. split; [exact Hm|].
  destruct (tryBlock_cases w req)
    as [(e & _ & ->)|(u & _ & [(e & _ & ->)|(fields & _ & H)])].
  - left. exists 500%Z. eexists. split; [right; reflexivity | reflexivity].
  - left. exists 500%Z. eexists. split; [right; reflexivity | reflexivity].
  - destruct H as [(_ & ->)|[(_ & ->)|[(s & _ & _ & e & ->)|[(f & _ & _ & ->)|(f & _ & _ & H)]]]].
    + left. exists 400%Z. eexists. split; [left; reflexivity | reflexivity].
    + left. exists 400%Z. eexists. split; [left; reflexivity | reflexivity].
    + left. exists 500%Z. eexists. split; [right; reflexivity | reflexivity].
    + left. exists 400%Z. eexists. split; [left; reflexivity | reflexivity].
    + cbv zeta in H.
      destruct (upload _ _ _ _ _ _) as [b [m|stored]] eqn:U; rewrite H.
      * left. exists 500%Z. eexists. split; [right; reflexivity|].
        apply upload_failed in U as ->. reflexivity.
      * right. apply upload_stored in U as (-> & Hfree & ->).
        exists f, u. split; [exact Hfree | reflexivity].
Qed.

(** X1.  Every response carries the two CORS headers.  A pre-flight is
    answered 200 with no body and nothing else is looked at; every other
    response is a JSON document with status 200, 400 or 500, the success
    document with 200 and an [{error}] document otherwise. *)
Theorem every_response w req :
  (forall h, In h corsHeaders -> In h (headers (fst (serve w req))))
  /\ (method req = "OPTIONS" ->
      serve w req = ({| status := 200; headers := corsHeaders; payload := None |}, bucket w))
  /\ (method req <> "OPTIONS" ->
      In ("Content-Type", "application/json") (headers (fst (serve w req)))
      /\ ((status (fst (serve w req)) = 200%Z /\ succeeded (fst (serve w req)))
          \/ ((status (fst (serve w req)) = 400%Z \/ status (fst (serve w req)) = 500%Z)
              /\ exists e, payload (fst (serve w req)) = Some (ErrorJson e)))).
Proof.
  destruct (serve_cases w req)
    as [(Hm & ->)|(Hm & [(code & e & Hcode & ->)|(f & url & _ & ->)])]; simpl.
  - split; [tauto|]. split; [reflexivity | contradiction].
  - split; [intros h [<-|[<-|[]]]; simpl; tauto|].
    split; [contradiction|]. intros _. split; [tauto|]. right. split; [tauto | eauto].
  - split; [intros h [<-|[<-|[]]]; simpl; tauto|].
    split; [contradiction|]. intros _. split; [tauto|]. left. split; [reflexivity|].
    unfold succeeded. simpl. eauto 10.
Qed.

Lemma every_response_witness :
  serve (Requests.world Requests.half)
        {| method := "OPTIONS"; body := Unparsable OtherValue |}
  = ({| status := 200; headers := corsHeaders; payload := None |}, ∅)
  /\ In ("Content-Type", "application/json")
        (headers (fst (serve (Requests.world Requests.half) Requests.oneFile))).
Proof.
  split.
  - apply (proj1 (proj2 (every_response (Requests.world Requests.half)
                           {| method := "OPTIONS"; body := Unparsable OtherValue |}))).
    reflexivity.
  - apply (proj2 (proj2 (every_response (Requests.world Requests.half) Requests.oneFile))).
    discriminate.
Defined.

(** X2.  The bucket changes exactly when the handler answers with the
    success document: then one object has been added under a name that
    was free, it is found under the path the response gives, and it is
    the file the response describes with its declared type as content
    type; in every other case the bucket is as it was. *)
Theorem stored_iff_success w req :
  (exists message original sz ty path url,
      payload (fst (serve w req)) = Some (SuccessJson message original sz ty path url)
      /\ bucket w !! path = None
      /\ snd (serve w req) !! path = Some (mkStoredObject (mkFile original sz ty) ty)
      /\ base.size (snd (serve w req)) = S (base.size (bucket w))
      /\ forall key, key <> path -> snd (serve w req) !! key = bucket w !! key)
  \/ (~ succeeded (fst (serve w req)) /\ snd (serve w req) = bucket w).
Proof.
  destruct (serve_cases w req)
    as [(Hm & ->)|(Hm & [(code & e & Hcode & ->)|(f & url & Hfree & ->)])]; simpl.
  - right. split; [|reflexivity]. intros (m & o & s & t & p & u & H). discriminate H.
  - right. split; [|reflexivity]. intros (m & o & s & t & p & u & H). discriminate H.
  - left. do 6 eexists. split; [reflexivity|]. split; [exact Hfree|].
    split; [rewrite lookup_insert_eq; destruct f; reflexivity|].
    split; [apply map_size_insert_None, Hfree|].
    intros key Hkey. apply lookup_insert_ne. congruence.
Qed.

Lemma stored_iff_success_witness :
  snd (serve (Requests.world Requests.half) Requests.oneFile) !! "1700000000000-i-a_b.txt"
  = Some (mkStoredObject Requests.notes "text/plain")
  /\ snd (serve (Requests.world Requests.half) (Requests.post [])) = ∅.
Proof.
  split.
  - destruct (stored_iff_success (Requests.world Requests.half) Requests.oneFile)
      as [(m & o & s & t & p & u & P & _ & L & _)|(N & _)].
    + vm_compute in P. injection P as <- <- <- <- <- <-. exact L.
    + exfalso. apply N. unfold succeeded. vm_compute. eauto 10.
  - destruct (stored_iff_success (Requests.world Requests.half) (Requests.post []))
      as [(m & o & s & t & p & u & P & _)|(_ & B)].
    + vm_compute in P. discriminate P.
    + exact B.
Defined.

(** X3.  When the store refuses the write of an accepted file, the
    handler answers 500 with ["Upload failed: "] followed by the message
    the store gave, whatever that message is, and does nothing more to
    the bucket: it is the bucket the refused write left, so no second
    write is made and no other name is tried.  By the contract of the
    store a write is refused when the store has a reason of its own or
    when the name is taken, and a refused write leaves the bucket as it
    was. *)
Theorem refused_write w req fields f url :
  method req <> "OPTIONS" ->
  createClient (SUPABASE_URL w) (SUPABASE_SERVICE_ROLE_KEY w) = inr url ->
  body req = Multipart fields ->
  get "file" fields = Some (FilePart f) ->
  (size f <= maxSize)%Z ->
  (forall bucket' message,
      upload (bucket w) (refusal w) (uniqueFileName (now w) (random w) (name f))
             f (type f) false = (bucket', inl message) ->
      serve w req
      = (jsonResponse 500 (ErrorJson ("Upload failed: " +:+ message)), bucket'))
  /\ (refusal w <> None \/ bucket w !! uniqueFileName (now w) (random w) (name f) <> None ->
      exists message,
        upload (bucket w) (refusal w) (uniqueFileName (now w) (random w) (name f))
               f (type f) false = (bucket w, inl message)
        /\ (forall reason, refusal w = Some reason -> message = reason)).
Proof.
  intros Hm Hc Hb Hg Hsz. split.
  - intros bucket' message U.
    unfold serve, tryBlock.
    destruct (String.eqb_spec (method req) "OPTIONS") as [E|_]; [contradiction|].
    rewrite Hc, Hb, Hg.
    destruct (Z.gtb_spec (size f) maxSize) as [Hbig|_]; [lia|].
    cbv zeta. rewrite U. reflexivity.
  - intros Hrefused. unfold upload.
    destruct (refusal w) as [reason|].
    + exists reason. split; [reflexivity|]. intros reason' H. congruence.
    + destruct Hrefused as [H|H]; [contradiction|].
      destruct (bucket w !! uniqueFileName (now w) (random w) (name f));
        [|contradiction].
      eexists. split; [reflexivity | discriminate].
Qed.

Lemma refused_write_witness :
  serve (sameInstant Requests.half) Requests.oneFile
  = (jsonResponse 500 (ErrorJson "Upload failed: The resource already exists"),
     bucket (sameInstant Requests.half))
  /\ serve (outOfQuota Requests.half) Requests.oneFile
     = (jsonResponse 500 (ErrorJson "Upload failed: Storage quota exceeded"), ∅).
Proof.
  split.
  - apply (proj1 (refused_write (sameInstant Requests.half) Requests.oneFile
                    [("file", FilePart Requests.notes)] Requests.notes
                    "https://project.supabase.co"
                    ltac:(discriminate) eq_refl eq_refl eq_refl
                    ltac:(vm_compute; discriminate))).
    vm_compute. reflexivity.
  - apply (proj1 (refused_write (outOfQuota Requests.half) Requests.oneFile
                    [("file", FilePart Requests.notes)] Requests.notes
                    "https://project.supabase.co"
                    ltac:(discriminate) eq_refl eq_refl eq_refl
                    ltac:(vm_compute; discriminate))).
    reflexivity.
Defined.

(** X4.  Sanitizing a sanitized name changes nothing, and a name is left
    as it is exactly when all its characters are in [[A-Za-z0-9._-]]. *)
Theorem sanitizedName_fixpoint original :
  sanitizedName (sanitizedName original) = sanitizedName original
  /\ (sanitizedName original = original <-> all isNameChar original = true).
Proof.
  unfold sanitizedName. split.
  - induction original as [|c s IH]; simpl; [reflexivity|].
    rewrite IH. destruct (isNameChar c) eqn:E; [rewrite E|]; reflexivity.
  - induction original as [|c s IH]; simpl; [tauto|].
    destruct (isNameChar c) eqn:E; simpl.
    + rewrite <- IH. split; [intros H; injection H; tauto | intros ->; reflexivity].
    + split; [|discriminate]. intros H. injection H as H _. subst c. discriminate E.
Qed.

Lemma sanitizedName_fixpoint_witness :
  sanitizedName "report-2024_v1.pdf" = "report-2024_v1.pdf".
Proof. apply (proj2 (sanitizedName_fixpoint "report-2024_v1.pdf")). reflexivity. Defined.

(** X5.  Two storage names are the same exactly when the clock readings,
    the tokens and the sanitized names are: the three parts can be read
    back from the name, and original names that differ only in replaced
    characters are not told apart. *)
Theorem uniqueFileName_collides ts1 r1 original1 ts2 r2 original2 :
  uniqueFileName ts1 r1 original1 = uniqueFileName ts2 r2 original2
  <-> ts1 = ts2 /\ randomStr r1 = randomStr r2
      /\ sanitizedName original1 = sanitizedName original2.
Proof.
  unfold uniqueFileName. split.
  - intros H. apply storage_name_parts_inj in H; [exact H | |]; apply randomStr_base36.
  - intros (-> & -> & ->). reflexivity.
Qed.

Lemma uniqueFileName_collides_witness :
  uniqueFileName 1700000000000 Requests.half "a b.txt"
  = uniqueFileName 1700000000000 Requests.half "a_b.txt".
Proof.
  apply (proj2 (uniqueFileName_collides 1700000000000 Requests.half "a b.txt"
                  1700000000000 Requests.half "a_b.txt")).
  repeat split.
Defined.

End Responses.

(* ================================================================== *)
(** * The upload queue: adding, removing, ticking *)
(* ================================================================== *)

Module QueueFacts.
Import JS Pattern JSFacts Uploader Tasks Runs Queue.

Lemma filter_pending_app (l1 l2 : list UploadedFile) :
  length (List.filter (fun f => Status_eqb (status f) pending) (l1 ++ l2))
  = (length (List.filter (fun f => Status_eqb (status f) pending) l1)
     + length (List.filter (fun f => Status_eqb (status f) pending) l2))%nat.
Proof. rewrite List.filter_app, List.length_app. reflexivity. Qed.

(** X6.  [addFiles] appends one task per file, in the order given and
    after the tasks that are there, each pending with progress 0 and no
    error message, whether or not a task of that name exists; the count
    of pending tasks grows by the number of files, and nothing else of the
    client changes.  A [null] file list changes nothing. *)
Theorem addFiles_appends (picked : list (File * Z * Fraction)) (c : Client) :
  addFiles None c = c
  /\ exists added,
       files (addFiles (Some picked) c) = files c ++ added
       /\ map file added = map (fun p => fst (fst p)) picked
       /\ Forall fresh added
       /\ pendingCount (addFiles (Some picked) c) = (pendingCount c + length picked)%nat
       /\ intervals (addFiles (Some picked) c) = intervals c
       /\ fetched (addFiles (Some picked) c) = fetched c
       /\ isUploading (addFiles (Some picked) c) = isUploading c.
Proof.
  split; [reflexivity|].
  eexists. split; [reflexivity|].
  split; [|split; [|split; [|repeat split]]].
  - rewrite map_map. apply map_ext. intros [[f now] r]. reflexivity.
  - apply List.Forall_forall. intros t Ht. apply in_map_iff in Ht as ([[f now] r] & <- & _).
    repeat split.
  - unfold pendingCount, addFiles. simpl. rewrite filter_pending_app. f_equal.
    induction picked as [|[[f now] r] rest IH]; simpl; [reflexivity | now rewrite IH].
Qed.

(** ** Ids *)

Lemma app_sep_inj_r (s1 s2 t1 t2 : string) :
  all (fun c => negb (Ascii.eqb c "-")) t1 = true ->
  all (fun c => negb (Ascii.eqb c "-")) t2 = true ->
  s1 +:+ String "-" t1 = s2 +:+ String "-" t2 ->
  s1 = s2 /\ t1 = t2.
Proof.
  intros H1 H2. revert s2.
  assert (clash : forall s t t', all (fun c => negb (Ascii.eqb c "-")) t = true ->
                                 t <> s +:+ String "-" t').
  { intros s t t' Ht E. rewrite E, all_app in Ht.
    apply andb_prop in Ht as [_ Ht]. discriminate Ht. }
  induction s1 as [|c s1 IH]; intros [|c' s2] E.
  - injection E as ->. split; reflexivity.
  - rewrite app_nil, app_cons in E. injection E as <- E. destruct (clash _ _ _ H1 E).
  - rewrite app_nil, app_cons in E. injection E as -> E. symmetry in E.
    destruct (clash _ _ _ H2 E).
  - rewrite !app_cons in E. injection E as -> E.
    destruct (IH s2 E) as [-> ->]. split; reflexivity.
Qed.

Lemma substring_whole (s : string) : String.substring 0 (String.length s) s = s.
Proof. induction s as [|c s IH]; simpl; [reflexivity | now rewrite IH]. Qed.

Lemma suffix_fractionPart r : suffix r = fractionPart r.
Proof.
  unfold suffix, substring, fractionPart.
  destruct (toString36 r) as [|c [|d digits]]; try reflexivity.
  simpl String.length.
  replace (Nat.min 2 (S (S (String.length digits)))) with 2%nat by lia.
  replace (Nat.max 2 (S (S (String.length digits))) - 2)%nat
    with (String.length digits) by lia.
  simpl. apply substring_whole.
Qed.

Lemma suffix_base36 r : all isBase36 (suffix r) = true.
Proof. rewrite suffix_fractionPart. apply fractionPart_base36. Qed.

Lemma id_parts_inj (name1 name2 : string) n1 n2 (t1 t2 : string) :
  (0 <= n1)%Z -> (0 <= n2)%Z ->
  all isBase36 t1 = true -> all isBase36 t2 = true ->
  name1 +:+ "-" +:+ numberToString n1 +:+ "-" +:+ t1
  = name2 +:+ "-" +:+ numberToString n2 +:+ "-" +:+ t2 ->
  name1 = name2 /\ n1 = n2 /\ t1 = t2.
Proof.
  intros P1 P2 B1 B2 E.
  destruct (numberToString_shape n1) as (d1 & D1 & _ & E1).
  destruct (numberToString_shape n2) as (d2 & D2 & _ & E2).
  replace (n1 <? 0)%Z with false in E1 by lia.
  replace (n2 <? 0)%Z with false in E2 by lia.
  assert (shape : forall (a d t : string),
             a +:+ "-" +:+ d +:+ "-" +:+ t = (a +:+ String "-" d) +:+ String "-" t).
  { intros a d t. rewrite app_assoc. reflexivity. }
  rewrite !shape in E.
  apply app_sep_inj_r in E as [E ->];
    [| apply IngestFacts.isBase36_no_hyphen, B1 | apply IngestFacts.isBase36_no_hyphen, B2].
  rewrite E1, E2 in E.
  apply app_sep_inj_r in E as [-> E];
    [| apply IngestFacts.isDigit_no_hyphen, D1 | apply IngestFacts.isDigit_no_hyphen, D2].
  rewrite <- E1, <- E2 in E. apply numberToString_inj in E.
  repeat split; assumption.
Qed.

(** X7.  Two tasks added together get the same id only when their files
    have the same name, the clock read the same and the random suffixes
    are the same, provided the clock is not before 1970: the three parts
    of an id can then be read back from its end. *)
Theorem added_ids_differ f1 n1 r1 f2 n2 r2 (c : Client) t1 t2 :
  (0 <= n1)%Z -> (0 <= n2)%Z ->
  files (addFiles (Some [(f1, n1, r1); (f2, n2, r2)]) c) = files c ++ [t1; t2] ->
  (id t1 = id t2 <-> name f1 = name f2 /\ n1 = n2 /\ suffix r1 = suffix r2).
Proof.
  intros P1 P2 H. simpl in H. apply app_inv_head in H. injection H as <- <-. simpl.
  fold (suffix r1). fold (suffix r2). split.
  - apply id_parts_inj; try assumption; apply suffix_base36.
  - intros (-> & -> & ->). reflexivity.
Qed.

Lemma added_ids_differ_witness :
  id (task "photo.png-1700000000000-i" picture)
  <> id (task "photo.png-1700000000001-i" picture).
Proof.
  intros E.
  apply (added_ids_differ picture 1700000000000 Requests.half
           picture 1700000000001 Requests.half initial
           (task "photo.png-1700000000000-i" picture)
           (task "photo.png-1700000000001-i" picture)) in E.
  - destruct E as (_ & E & _). discriminate E.
  - lia.
  - lia.
  - reflexivity.
Defined.

(** Before 1970 the minus sign of the clock reads as a separator. *)
Example ids_collide_before_1970 :
  map id (files (addFiles (Some [(hyphenated, 5%Z, Requests.half);
                                 (plain, (-5)%Z, Requests.half)]) initial))
  = ["a--5-i"; "a--5-i"].
Proof. reflexivity. Qed.

(** X8.  Removing the id of a task that was just added, when no older
    task has that id, gives back the client as it was before the file was
    added. *)
Theorem removeFile_undoes_addFiles (p : File * Z * Fraction) (c : Client) t :
  files (addFiles (Some [p]) c) = files c ++ [t] ->
  (forall f, In f (files c) -> id f <> id t) ->
  removeFile (id t) (addFiles (Some [p]) c) = c.
Proof.
  intros H Hfresh. destruct c as [fs up iv nh fe ts cs].
  unfold removeFile, setFiles. simpl in *. unfold setFiles in H. simpl in H.
  rewrite H, List.filter_app. simpl. rewrite String.eqb_refl. simpl.
  rewrite app_nil_r, TaskFacts.filter_keeps_all; [reflexivity|].
  intros f Hf. destruct (String.eqb_spec (id f) (id t)) as [E|E]; [|reflexivity].
  destruct (Hfresh f Hf E).
Qed.

Lemma removeFile_undoes_addFiles_witness :
  removeFile "clip.mp4-1700000000000-i"
    (addFiles (Some [(video, 1700000000000%Z, Requests.half)]) (queue [task "a" picture]))
  = queue [task "a" picture].
Proof.
  apply (removeFile_undoes_addFiles (video, 1700000000000%Z, Requests.half)
           (queue [task "a" picture]) (task "clip.mp4-1700000000000-i" video)).
  - reflexivity.
  - simpl. intros f [<-|[]]. discriminate.
Defined.

(** ** The interval *)

(** X9.  After [n] firings of the interval of a task, a task of that id
    that is uploading has gained 20 per firing up to 90 if it was below
    90, and is as it was otherwise; every other task is as it was.  In
    particular progress never goes down and a firing never takes it
    above 90. *)
Theorem interval_fired taskId (n : nat) (prev : list UploadedFile) k f :
  prev !! k = Some f ->
  Nat.iter n (advance taskId) prev !! k
  = Some (if String.eqb (id f) taskId && Status_eqb (status f) uploading
          then fired n f else f).
Proof.
  intros H. induction n as [|n IH].
  - simpl. rewrite H. f_equal.
    destruct (String.eqb (id f) taskId && Status_eqb (status f) uploading); [|reflexivity].
    unfold fired. destruct f as [i fl st p e]. simpl. f_equal.
    destruct (Z.ltb_spec p 90); lia.
  - simpl. unfold advance at 1. rewrite list_lookup_fmap, IH. simpl. f_equal.
    destruct (String.eqb (id f) taskId) eqn:Ei; simpl.
    + destruct (Status_eqb (status f) uploading) eqn:Es; simpl.
      * rewrite Ei, Es. simpl. unfold fired. simpl.
        destruct (Z.ltb_spec (progress f) 90) as [Hp|Hp].
        -- destruct (Z.ltb_spec (Z.min (progress f + 20 * Z.of_nat n) 90) 90); f_equal; lia.
        -- destruct (Z.ltb_spec (progress f) 90); [lia | reflexivity].
      * rewrite Ei, Es. reflexivity.
    + rewrite Ei. reflexivity.
Qed.

Lemma interval_fired_witness :
  Nat.iter 5 (advance "a")
    [ {| id := "a"; file := picture; status := uploading; progress := 10;
         errorMessage := None |}; task "b" picture ] !! 0
  = Some {| id := "a"; file := picture; status := uploading; progress := 90;
            errorMessage := None |}.
Proof.
  apply (interval_fired "a" 5
           [ {| id := "a"; file := picture; status := uploading; progress := 10;
                errorMessage := None |}; task "b" picture ] 0
           {| id := "a"; file := picture; status := uploading; progress := 10;
              errorMessage := None |}).
  reflexivity.
Defined.

(** ** Accepted types *)

Lemma some_app_true regexp subject patterns more :
  some regexp subject patterns = inr true ->
  some regexp subject (patterns ++ more) = inr true.
Proof.
  induction patterns as [|p rest IH]; simpl; [discriminate|].
  destruct (regexp subject p); [reflexivity | exact IH | discriminate].
Qed.

(** X17.  Adding accepted types at the end of the list never turns away a
    file that passed validation before. *)
Theorem more_types_accept_more regexp props patterns more (f : File) :
  validateFile regexp (accepting props patterns) f = inr None ->
  validateFile regexp (accepting props (patterns ++ more)) f = inr None.
Proof.
  unfold validateFile, accepting. simpl.
  destruct (size f >? _)%Z; [discriminate|].
  destruct patterns as [|first rest]; [simpl; discriminate|].
  change (filtering ((first :: rest) ++ more)) with (filtering (first :: rest)).
  destruct (filtering (first :: rest)); [|reflexivity].
  destruct (some regexp (type f) (first :: rest)) as [e|[|]] eqn:E; try discriminate.
  intros _. rewrite (some_app_true _ _ _ more E). reflexivity.
Qed.

Lemma more_types_accept_more_witness :
  validateFile literalMatch (accepting defaultProps (["image/"] ++ ["video/"])) picture
  = inr None.
Proof.
  apply (more_types_accept_more literalMatch defaultProps ["image/"] ["video/"] picture).
  reflexivity.
Defined.

End QueueFacts.

(* ================================================================== *)
(** * The upload queue: what an upload does to the list *)
(* ================================================================== *)

Module UploadFacts.
Import JS Uploader Tasks Runs Queue TaskFacts RunFacts.

Section Lists.

Variable regexp : string -> string -> MatchOutcome.
Variable props : FileUploaderProps.
Variable network : nat -> FetchOutcome.

(** ** The updaters *)

Lemma uploadFile_files (u : UploadedFile) (c : Client) :
  (files (fst (uploadFile regexp props u c)) = files c
   \/ files (fst (uploadFile regexp props u c)) = dispatched (id u) (files c))
  /\ isUploading (fst (uploadFile regexp props u c)) = isUploading c.
Proof.
  unfold uploadFile.
  destruct (validateFile regexp props (file u)) as [e|[rule|]]; simpl; [tauto| |tauto].
  destruct (truthy rule); simpl; tauto.
Qed.

Lemma afterAll_files results c :
  files (afterAll results c) = map (merged results) (files c).
Proof.
  unfold afterAll. simpl.
  destruct (0 <? successCount results)%nat, (0 <? errorCount results)%nat; reflexivity.
Qed.

Lemma resume_files u h outcome c :
  files (fst (resume u h outcome c)) = files c
  /\ isUploading (fst (resume u h outcome c)) = isUploading c.
Proof.
  unfold resume. destruct outcome as [response|reason]; [|tauto].
  destruct (ok response); simpl; tauto.
Qed.

Lemma afterAll_rest results c :
  intervals (afterAll results c) = intervals c
  /\ isUploading (afterAll results c) = false
  /\ fetched (afterAll results c) = fetched c.
Proof.
  unfold afterAll. simpl.
  destruct (0 <? successCount results)%nat, (0 <? errorCount results)%nat; repeat split.
Qed.

(** Every way a step can go. *)
Lemma step_cases r ev :
  step network r ev = r
  \/ (exists taskId,
        files (client (step network r ev)) = advance taskId (files (client r))
        /\ promise (step network r ev) = promise r
        /\ activations (step network r ev) = activations r
        /\ isUploading (client (step network r ev)) = isUploading (client r)
        /\ intervals (client (step network r ev)) = intervals (client r))
  \/ (exists k u h,
        ev = Settle k
        /\ activations r !! k = Some (Awaiting u h)
        /\ activations (step network r ev)
           = <[k := Returned (outcomeOf u (network k))]> (activations r)
        /\ intervals (client (step network r ev))
           = match network k with
             | Fulfilled _ => delete h (intervals (client r))
             | Rejected _ => intervals (client r)
             end
        /\ ((files (client (step network r ev)) = files (client r)
             /\ isUploading (client (step network r ev)) = isUploading (client r)
             /\ (promise (step network r ev) = promise r
                 \/ (promise r = Unsettled
                     /\ exists e, promise (step network r ev) = Failed e)))
            \/ (promise r = Unsettled
                /\ promise (step network r ev) = Resolved
                /\ isUploading (client (step network r ev)) = false
                /\ exists results,
                     allReturned (activations (step network r ev)) = Some results
                     /\ files (client (step network r ev))
                        = map (merged results) (files (client r))))).
Proof.
  destruct ev as [h|k]; simpl.
  - destruct (intervals (client r) !! h) as [taskId|]; [|left; reflexivity].
    right. left. exists taskId. repeat split.
  - destruct (activations r !! k) as [[x|e|u h]|] eqn:E; try (left; reflexivity).
    right. right. exists k, u, h. split; [reflexivity|]. split; [exact E|].
    destruct (resume_files u h (network k) (client r)) as [Rf Ru].
    pose proof (resume_intervals u h (network k) (client r)) as Ri.
    pose proof (resume_outcomeOf u h (network k) (client r)) as Ro.
    destruct (resume u h (network k) (client r)) as [c1 result]. simpl in Rf, Ru, Ri, Ro.
    subst result.
    rewrite settle_activations. cbn [activations]. split; [reflexivity|].
    unfold settle. cbn [promise activations client].
    destruct (promise r) eqn:P; cbn [promise activations client].
    + destruct (firstThrown _) as [e|]; cbn [promise activations client].
      { split; [exact Ri|]. left. repeat split; try assumption. right. eauto. }
      destruct (allReturned _) as [results|] eqn:A; cbn [promise activations client].
      * destruct (afterAll_rest results c1) as (Ai & Au & _).
        split; [rewrite Ai; exact Ri|]. right. repeat split; try assumption.
        exists results. split; [reflexivity|]. rewrite afterAll_files, Rf. reflexivity.
      * split; [exact Ri|]. left. repeat split; try assumption. left. reflexivity.
    + split; [exact Ri|]. left. repeat split; try assumption. left. reflexivity.
    + split; [exact Ri|]. left. repeat split; try assumption. left. reflexivity.
Qed.

Lemma results_resultOf selected started final results :
  Forall2 startOf selected started ->
  evolved network started final ->
  allReturned final = Some results ->
  Forall2 resultOf selected results.
Proof.
  intros F [L K] A.
  apply allReturned_lookup in A as [N A].
  apply Forall2_same_length_lookup. split.
  - apply Forall2_length in F. congruence.
  - intros k u x Hu Hx.
    destruct (Forall2_lookup_l _ _ _ _ _ F Hu) as (a & Ha & S).
    specialize (A k). rewrite Hx in A. simpl in A.
    destruct (K k) as [Same|(u' & h & B & R)].
    + rewrite A, Ha in Same. injection Same as <-.
      destruct S as [(rule & E)|[(e & E)|(h & E)]]; try discriminate E.
      injection E as ->. left. eauto.
    + rewrite A in R. injection R as ->. rewrite Ha in B. injection B as ->.
      destruct S as [(rule & E)|[(e & E)|(h' & E)]]; try discriminate E.
      injection E as -> _. right. eauto.
Qed.

Lemma mapUploadFile_files (I : list UploadedFile -> Prop) selected :
  (forall u l, In u selected -> I l -> I (dispatched (id u) l)) ->
  forall c, I (files c) -> I (files (fst (mapUploadFile regexp props selected c))).
Proof.
  induction selected as [|u rest IH]; intros Hd c Hc; simpl; [exact Hc|].
  destruct (uploadFile_files u c) as [Hf _].
  destruct (uploadFile regexp props u c) as [c1 a]. simpl in Hf.
  specialize (IH (fun v l Hv => Hd v l (or_intror Hv)) c1).
  destruct (mapUploadFile regexp props rest c1) as [c2 others]. simpl in *.
  apply IH. destruct Hf as [->| ->]; [exact Hc|].
  apply Hd; [left; reflexivity | exact Hc].
Qed.

(** The list of tasks along an upload, in two phases: what holds of it
    until [handleUpload] returns, and what holds of it from then on. *)
Lemma files_in_two_phases
    (Before : list UploadedFile -> Prop)
    (After : list UploadedFile -> list UploadedFile -> Prop)
    (c : Client) (events : list Event) :
  Before (files c) ->
  (forall u l, In u (pendingFiles c) -> Before l -> Before (dispatched (id u) l)) ->
  (forall taskId l, Before l -> Before (advance taskId l)) ->
  (forall taskId results l, After results l -> After results (advance taskId l)) ->
  (forall results l,
      Forall2 resultOf (pendingFiles c) results ->
      Before l -> After results (map (merged results) l)) ->
  pendingFiles c <> [] ->
  match promise (run network (handleUpload regexp props c) events) with
  | Resolved =>
      exists results,
        allReturned (activations (run network (handleUpload regexp props c) events))
        = Some results
        /\ Forall2 resultOf (pendingFiles c) results
        /\ After results (files (client (run network (handleUpload regexp props c) events)))
  | _ => Before (files (client (run network (handleUpload regexp props c) events)))
  end.
Proof.
  intros B0 Hd Ha Ha' Hm Hne.
  destruct (handleUpload_started regexp props c) as (F & _ & _ & _).
  assert (Ev : forall evs, evolved network (activations (handleUpload regexp props c))
                 (activations (run network (handleUpload regexp props c) evs)))
    by (intros evs; apply evolved_run, evolved_refl).
  induction events as [|ev events IH] using rev_ind.
  - (* the synchronous part *)
    clear Ev. revert F. unfold run. simpl. unfold handleUpload.
    destruct (pendingFiles c) as [|u rest] eqn:Sel; [contradiction|].
    pose proof (mapUploadFile_files Before (u :: rest) Hd (setIsUploading true c) B0) as Bm.
    destruct (mapUploadFile regexp props (u :: rest) (setIsUploading true c)) as [c1 acts].
    simpl in Bm. rewrite settle_activations. cbn [activations]. intros F.
    unfold settle. cbn [promise activations client].
    destruct (firstThrown acts); [exact Bm|].
    destruct (allReturned acts) as [results|] eqn:A; cbn [promise activations client];
      [|exact Bm].
    assert (R : Forall2 resultOf (u :: rest) results)
      by (apply (results_resultOf _ acts acts); [exact F | apply evolved_refl | exact A]).
    exists results. split; [reflexivity|]. split; [exact R|].
    rewrite afterAll_files. apply Hm; assumption.
  - rewrite run_snoc.
    set (r := run network (handleUpload regexp props c) events) in *.
    pose proof (Ev (events ++ [ev])) as E. rewrite run_snoc in E. fold r in E.
    destruct (step_cases r ev)
      as [->|[(t & Hf & Hp & Hact & _)
             |(k & u & h & _ & Ek & _ & _
               & [(Hf & _ & [Hp|(P & e & Hp)])|(P & Hp & _ & results & A & Hf)])]].
    + exact IH.
    + rewrite Hf, Hp, Hact.
      destruct (promise r); [apply Ha, IH| |apply Ha, IH].
      destruct IH as (results & A & R & Haf).
      exists results. split; [exact A|]. split; [exact R|]. apply Ha', Haf.
    + rewrite Hf, Hp.
      destruct (promise r); [exact IH| |exact IH].
      destruct IH as (results & A & _).
      apply allReturned_lookup in A as [_ A]. rewrite A in Ek.
      destruct (results !! k); discriminate Ek.
    + rewrite Hf, Hp. rewrite P in IH. exact IH.
    + rewrite Hp, Hf. rewrite P in IH.
      exists results. split; [exact A|].
      assert (R : Forall2 resultOf (pendingFiles c) results)
        by (apply (results_resultOf _ _ _ _ F E A)).
      split; [exact R|]. apply Hm; assumption.
Qed.

Lemma nothing_pending (Before : list UploadedFile -> Prop) (c : Client) events :
  pendingFiles c = [] ->
  Before (files c) ->
  (forall taskId l, Before l -> Before (advance taskId l)) ->
  Before (files (client (run network (handleUpload regexp props c) events)))
  /\ promise (run network (handleUpload regexp props c) events) = Resolved
  /\ activations (run network (handleUpload regexp props c) events) = []
  /\ isUploading (client (run network (handleUpload regexp props c) events))
     = isUploading c.
Proof.
  intros Sel B0 Ha.
  induction events as [|ev events IH] using rev_ind.
  - unfold run, handleUpload. simpl. rewrite Sel. simpl. repeat split. exact B0.
  - rewrite run_snoc.
    set (r := run network (handleUpload regexp props c) events) in *.
    destruct IH as (B & P & A & U).
    destruct (step_cases r ev)
      as [->|[(t & Hf & Hp & Hact & Hu & _)|(k & u & h & _ & Ek & _)]].
    + repeat split; assumption.
    + rewrite Hf, Hp, Hact, Hu. repeat split; try assumption. apply Ha, B.
    + rewrite A in Ek. discriminate Ek.
Qed.

(** ** Ids *)

Lemma advance_ids taskId l : map id (advance taskId l) = map id l.
Proof.
  unfold advance. rewrite map_map. apply map_ext. intros f.
  destruct (_ && _); reflexivity.
Qed.

Lemma dispatched_ids taskId l : map id (dispatched taskId l) = map id l.
Proof.
  unfold dispatched. rewrite map_map. apply map_ext. intros f.
  destruct (String.eqb _ _); reflexivity.
Qed.

Lemma merged_id results f : id (merged results f) = id f.
Proof.
  unfold merged.
  destruct (List.find _ results) as [r|] eqn:E; [|reflexivity].
  apply find_some in E as [_ E]. apply String.eqb_eq, E.
Qed.

Lemma merged_ids results l : map id (map (merged results) l) = map id l.
Proof. rewrite map_map. apply map_ext. intros f. apply merged_id. Qed.

Lemma step_ids r ev :
  map id (files (client (step network r ev))) = map id (files (client r)).
Proof.
  destruct (step_cases r ev)
    as [->|[(t & -> & _)
           |(k & u & h & _ & _ & _ & _
             & [(-> & _)|(_ & _ & _ & results & _ & ->)])]];
    [reflexivity | apply advance_ids | reflexivity | apply merged_ids].
Qed.

Lemma handleUpload_ids (c : Client) :
  map id (files (client (handleUpload regexp props c))) = map id (files c).
Proof.
  unfold handleUpload.
  destruct (pendingFiles c) as [|u rest]; [reflexivity|].
  pose proof (mapUploadFile_files (fun l => map id l = map id (files c)) (u :: rest)
                (fun v l _ H => eq_trans (dispatched_ids (id v) l) H)
                (setIsUploading true c) eq_refl) as M.
  destruct (mapUploadFile regexp props (u :: rest) (setIsUploading true c)) as [c1 acts].
  simpl in M. unfold settle. cbn [promise activations client].
  destruct (firstThrown acts); [exact M|].
  destruct (allReturned acts) as [results|]; [|exact M].
  cbn [client]. rewrite afterAll_files, merged_ids. exact M.
Qed.

(** X10.  No event of an upload adds a task, drops one or reorders the
    list: the ids of the tasks are the same, in the same order, after
    [handleUpload] has started and after any sequence of timer firings
    and network answers, in whatever state the run and the list are (a
    list emptied by [clearAll] in the meantime stays empty). *)
Theorem ids_are_kept (c : Client) (r : Run) (events : list Event) :
  map id (files (client (run network (handleUpload regexp props c) events)))
  = map id (files c)
  /\ map id (files (client (run network r events))) = map id (files (client r))
  /\ (files (client r) = [] -> files (client (run network r events)) = []).
Proof.
  assert (K : forall r0, map id (files (client (run network r0 events)))
                         = map id (files (client r0))).
  { intros r0. induction events as [|ev evs IH] using rev_ind; [reflexivity|].
    rewrite run_snoc, step_ids. exact IH. }
  split; [rewrite K; apply handleUpload_ids|]. split; [apply K|].
  intros E. specialize (K r). rewrite E in K.
  destruct (files (client (run network r events))); [reflexivity | discriminate K].
Qed.

(** ** The flag *)

Lemma mapUploadFile_isUploading selected c :
  isUploading (fst (mapUploadFile regexp props selected c)) = isUploading c.
Proof.
  revert c. induction selected as [|u rest IH]; intros c; simpl; [reflexivity|].
  destruct (uploadFile_files u c) as [_ Hu].
  destruct (uploadFile regexp props u c) as [c1 a]. simpl in Hu.
  specialize (IH c1).
  destruct (mapUploadFile regexp props rest c1) as [c2 others]. simpl in *. congruence.
Qed.

Lemma step_busy r ev : busy r -> busy (step network r ev).
Proof.
  unfold busy. intros B.
  destruct (step_cases r ev)
    as [->|[(t & _ & -> & _ & -> & _)
           |(k & u & h & _ & _ & _ & _
             & [(_ & -> & [->|(P & e & ->)])|(_ & -> & -> & _)])]];
    try exact B; [|reflexivity].
  rewrite P in B. exact B.
Qed.

(** X11.  From the moment [handleUpload] has selected at least one task
    the flag [isUploading] is up, and it is down again exactly when
    [handleUpload] has returned; when a validation throws, [handleUpload]
    never returns and the flag stays up for good.  With nothing to
    upload the flag is not touched. *)
Theorem isUploading_follows (c : Client) (events : list Event) :
  (pendingFiles c <> [] ->
   busy (run network (handleUpload regexp props c) events))
  /\ (pendingFiles c = [] ->
      isUploading (client (run network (handleUpload regexp props c) events))
      = isUploading c).
Proof.
  split.
  - intros Hne.
    assert (B : busy (handleUpload regexp props c)).
    { unfold handleUpload. destruct (pendingFiles c) as [|u rest]; [contradiction|].
      pose proof (mapUploadFile_isUploading (u :: rest) (setIsUploading true c)) as M.
      destruct (mapUploadFile regexp props (u :: rest) (setIsUploading true c)) as [c1 acts].
      simpl in M. unfold settle, busy. cbn [promise activations client].
      destruct (firstThrown acts); [exact M|].
      destruct (allReturned acts) as [results|]; [|exact M].
      cbn [promise client]. apply afterAll_rest. }
    induction events as [|ev evs IH] using rev_ind; [exact B|].
    rewrite run_snoc. apply step_busy, IH.
  - intros Sel.
    apply (nothing_pending (fun _ => True) c events Sel I (fun _ _ _ => I)).
Qed.

(** ** Progress *)

Lemma resultOf_facts u r :
  resultOf u r ->
  id r = id u /\ terminal r
  /\ (progress r = progress u \/ progress r = 0%Z \/ progress r = 100%Z).
Proof.
  unfold terminal.
  intros [(rule & ->)|(outcome & ->)]; simpl; [tauto|].
  unfold outcomeOf. destruct outcome as [response|reason]; [destruct (ok response)|];
    simpl; tauto.
Qed.

Lemma pendingFiles_In (c : Client) u :
  In u (pendingFiles c) -> In u (files c) /\ status u = pending.
Proof.
  unfold pendingFiles. rewrite filter_In. intros [H S]. split; [exact H|].
  destruct (status u); [reflexivity | discriminate S | discriminate S | discriminate S].
Qed.

Lemma merged_In results f :
  (exists r, In r results /\ id r = id f /\ merged results f = r)
  \/ ((forall r, In r results -> id r <> id f) /\ merged results f = f).
Proof.
  unfold merged. destruct (List.find _ results) as [r|] eqn:E.
  - left. apply find_some in E as [Hin E]. apply String.eqb_eq in E. eauto.
  - right. split; [|reflexivity]. intros r Hin Hid.
    apply (find_none _ _ E) in Hin. apply String.eqb_neq in Hin. contradiction.
Qed.

(** X12.  When the progress of every task is a percentage as an upload
    is started, it is one at every moment of the upload. *)
Theorem progress_is_percent (c : Client) (events : list Event) :
  Forall percent (files c) ->
  Forall percent (files (client (run network (handleUpload regexp props c) events))).
Proof.
  intros H0.
  assert (Ha : forall taskId l, Forall percent l -> Forall percent (advance taskId l)).
  { intros t l H. unfold advance. apply List.Forall_forall. intros f Hf.
    apply in_map_iff in Hf as (f0 & <- & Hf0).
    rewrite List.Forall_forall in H. specialize (H f0 Hf0). unfold percent in *.
    destruct (_ && _) eqn:E; [|exact H]. simpl.
    apply andb_prop in E as [_ E]. apply Z.ltb_lt in E. lia. }
  destruct (pendingFiles c) as [|u0 rest0] eqn:Sel.
  { apply (nothing_pending (Forall percent) c events Sel H0 Ha). }
  pose proof (files_in_two_phases (Forall percent) (fun _ => Forall percent) c events H0)
    as P.
  rewrite Sel in P. rewrite <- Sel in P.
  assert (Goal : match promise (run network (handleUpload regexp props c) events) with
                 | Resolved =>
                     exists results,
                       allReturned (activations
                                      (run network (handleUpload regexp props c) events))
                       = Some results
                       /\ Forall2 resultOf (pendingFiles c) results
                       /\ Forall percent
                            (files (client (run network (handleUpload regexp props c) events)))
                 | _ => Forall percent
                          (files (client (run network (handleUpload regexp props c) events)))
                 end).
  { apply P.
    - intros u l _ H. unfold dispatched. apply List.Forall_forall. intros f Hf.
      apply in_map_iff in Hf as (f0 & <- & Hf0).
      rewrite List.Forall_forall in H. specialize (H f0 Hf0). unfold percent in *.
      destruct (String.eqb _ _); simpl; lia.
    - exact Ha.
    - intros t _ l. apply Ha.
    - intros results l R H. apply List.Forall_forall. intros f Hf.
      apply in_map_iff in Hf as (f0 & <- & Hf0).
      rewrite List.Forall_forall in H. specialize (H f0 Hf0).
      destruct (merged_In results f0) as [(r & Hr & _ & ->)|(_ & ->)]; [|exact H].
      apply list_elem_of_In, list_elem_of_lookup in Hr as [k Hk].
      destruct (Forall2_lookup_r _ _ _ _ _ R Hk) as (u & Hu & Ru).
      apply resultOf_facts in Ru as (_ & _ & Hp).
      assert (Pu : percent u).
      { rewrite List.Forall_forall in H0. apply H0.
        destruct (pendingFiles_In c u) as [Hin _]; [|exact Hin].
        apply list_elem_of_In, list_elem_of_lookup. eauto. }
      unfold percent in *. lia.
    - rewrite Sel. discriminate. }
  destruct (promise (run network (handleUpload regexp props c) events));
    [exact Goal | destruct Goal as (_ & _ & _ & G); exact G | exact Goal].
Qed.

(** ** The list once the upload is over *)

Lemma advance_idle taskId l : Forall idle l -> advance taskId l = l.
Proof.
  intros H. unfold advance. rewrite <- (map_id l) at 2. apply map_ext_in. intros f Hf.
  rewrite List.Forall_forall in H. specialize (H f Hf). unfold idle in H.
  destruct (status f) eqn:S; simpl; rewrite ?andb_false_r; try reflexivity.
  contradiction.
Qed.

Lemma results_ids selected results :
  Forall2 resultOf selected results -> map id results = map id selected.
Proof.
  induction 1 as [|u r us rs H _ IH]; simpl; [reflexivity|].
  apply resultOf_facts in H as (-> & _). now rewrite IH.
Qed.

Lemma results_terminal_all selected results :
  Forall2 resultOf selected results -> Forall terminal results.
Proof.
  induction 1 as [|u r us rs H _ IH]; constructor; [|exact IH].
  apply resultOf_facts in H. tauto.
Qed.

Lemma merged_over (c : Client) results :
  Forall idle (files c) ->
  Forall2 resultOf (pendingFiles c) results ->
  Forall terminal (map (merged results) (files c)).
Proof.
  intros H0 R. apply List.Forall_forall. intros f Hf.
  apply in_map_iff in Hf as (f0 & <- & Hf0).
  destruct (merged_In results f0) as [(r & Hr & _ & ->)|(Hno & ->)].
  - pose proof (results_terminal_all _ _ R) as T.
    rewrite List.Forall_forall in T. apply T, Hr.
  - rewrite List.Forall_forall in H0. specialize (H0 f0 Hf0). unfold idle in H0.
    unfold terminal. destruct (status f0) eqn:S; try tauto.
    exfalso.
    assert (Hsel : In f0 (pendingFiles c)).
    { unfold pendingFiles. apply filter_In. split; [exact Hf0|]. rewrite S. reflexivity. }
    assert (Hid : In (id f0) (map id results)).
    { rewrite (results_ids _ _ R). apply in_map, Hsel. }
    apply in_map_iff in Hid as (r & Hr & Hin). apply (Hno r Hin Hr).
Qed.

(** ** Intervals *)

Lemma uploadFile_handle (u : UploadedFile) (c : Client) :
  (intervals (fst (uploadFile regexp props u c)) = intervals c
   /\ nextHandle (fst (uploadFile regexp props u c)) = nextHandle c
   /\ forall v h, snd (uploadFile regexp props u c) <> Awaiting v h)
  \/ (snd (uploadFile regexp props u c) = Awaiting u (nextHandle c)
      /\ intervals (fst (uploadFile regexp props u c))
         = <[nextHandle c := id u]> (intervals c)
      /\ nextHandle (fst (uploadFile regexp props u c)) = S (nextHandle c)).
Proof.
  unfold uploadFile.
  destruct (validateFile regexp props (file u)) as [e|[rule|]]; simpl.
  - left. repeat split. discriminate.
  - destruct (truthy rule); simpl; [left; repeat split; discriminate | right; repeat split].
  - right. repeat split.
Qed.

(** The handles [pendingFiles.map(uploadFile)] hands out: each suspended
    call has its own, taken from the counter, and its interval is live
    under it; no other entry of the timer table has changed. *)
Lemma mapUploadFile_handles selected (c : Client) :
  (nextHandle c <= nextHandle (fst (mapUploadFile regexp props selected c)))%nat
  /\ (forall k u h,
        snd (mapUploadFile regexp props selected c) !! k = Some (Awaiting u h) ->
        (nextHandle c <= h < nextHandle (fst (mapUploadFile regexp props selected c)))%nat
        /\ intervals (fst (mapUploadFile regexp props selected c)) !! h = Some (id u))
  /\ (forall h,
        (forall k u, snd (mapUploadFile regexp props selected c) !! k
                     <> Some (Awaiting u h)) ->
        intervals (fst (mapUploadFile regexp props selected c)) !! h = intervals c !! h)
  /\ (forall k1 k2 u1 u2 h,
        snd (mapUploadFile regexp props selected c) !! k1 = Some (Awaiting u1 h) ->
        snd (mapUploadFile regexp props selected c) !! k2 = Some (Awaiting u2 h) ->
        k1 = k2).
Proof.
  revert c. induction selected as [|u rest IH]; intros c; simpl.
  - split; [lia|]. split; [intros k v h H; destruct k; discriminate H|].
    split; [reflexivity|]. intros k1 k2 u1 u2 h H. destruct k1; discriminate H.
  - pose proof (uploadFile_handle u c) as U.
    destruct (uploadFile regexp props u c) as [c1 a]. simpl in U.
    specialize (IH c1).
    destruct (mapUploadFile regexp props rest c1) as [c2 others]. simpl in *.
    destruct IH as (Hn & Hin & Hout & Hdis).
    assert (Hle : (nextHandle c <= nextHandle c1)%nat) by (destruct U as [(_ & -> & _)|(_ & _ & ->)]; lia).
    split; [lia|].
    assert (Hhead : forall v h, a = Awaiting v h ->
                    h = nextHandle c /\ v = u /\ nextHandle c1 = S (nextHandle c)
                    /\ intervals c1 = <[nextHandle c := id u]> (intervals c)).
    { intros v h ->. destruct U as [(_ & _ & N)|(E & I & N)]; [destruct (N v h eq_refl)|].
      injection E as -> ->. repeat split; assumption. }
    split; [|split].
    + intros [|k] v h H; simpl in H.
      * injection H as ->. destruct (Hhead v h eq_refl) as (-> & -> & N & I).
        split; [lia|]. rewrite Hout.
        -- rewrite I. apply lookup_insert_eq.
        -- intros k w Hk. apply Hin in Hk as [Hk _]. lia.
      * destruct (Hin k v h H) as [Hr Hl]. split; [lia | exact Hl].
    + intros h Hnot. rewrite Hout; [|intros k v Hk; apply (Hnot (S k) v Hk)].
      destruct U as [(-> & _)|(E & -> & _)]; [reflexivity|].
      apply lookup_insert_ne. intros <-. apply (Hnot 0%nat u). simpl. f_equal. exact E.
    + intros [|k1] [|k2] u1 u2 h H1 H2; simpl in H1, H2.
      * reflexivity.
      * injection H1 as ->. destruct (Hhead u1 h eq_refl) as (-> & _ & N & _).
        apply Hin in H2 as [H2 _]. lia.
      * injection H2 as ->. destruct (Hhead u2 h eq_refl) as (-> & _ & N & _).
        apply Hin in H1 as [H1 _]. lia.
      * f_equal. apply (Hdis k1 k2 u1 u2 h H1 H2).
Qed.

Lemma settle_intervals r : intervals (client (settle r)) = intervals (client r).
Proof.
  unfold settle. destruct (promise r); try reflexivity.
  destruct (firstThrown (activations r)); [reflexivity|].
  destruct (allReturned (activations r)) as [results|]; [|reflexivity].
  apply afterAll_rest.
Qed.

Lemma handleUpload_handles (c : Client) :
  (forall k u h,
      activations (handleUpload regexp props c) !! k = Some (Awaiting u h) ->
      (nextHandle c <= h)%nat
      /\ intervals (client (handleUpload regexp props c)) !! h = Some (id u))
  /\ (forall h,
        (forall k u, activations (handleUpload regexp props c) !! k
                     <> Some (Awaiting u h)) ->
        intervals (client (handleUpload regexp props c)) !! h = intervals c !! h)
  /\ (forall k1 k2 u1 u2 h,
        activations (handleUpload regexp props c) !! k1 = Some (Awaiting u1 h) ->
        activations (handleUpload regexp props c) !! k2 = Some (Awaiting u2 h) ->
        k1 = k2).
Proof.
  unfold handleUpload. destruct (pendingFiles c) as [|u rest].
  - simpl. split; [intros k v h H; destruct k; discriminate H|].
    split; [reflexivity|]. intros k1 k2 u1 u2 h H. destruct k1; discriminate H.
  - pose proof (mapUploadFile_handles (u :: rest) (setIsUploading true c))
      as (_ & Hin & Hout & Hdis).
    destruct (mapUploadFile regexp props (u :: rest) (setIsUploading true c)) as [c1 acts].
    rewrite settle_activations, settle_intervals. cbn [activations client] in *.
    split; [|split; assumption].
    intros k v h H. destruct (Hin k v h H) as [[Hl _] Hi]. split; assumption.
Qed.

(** X14.  At every moment of an upload the timer table holds, under the
    handle of each call that was suspended at its [fetch], the interval
    of that call's task exactly when the call is still suspended or its
    request was rejected; a request that was answered, with whatever
    status, has had its interval cleared.  Every other entry of the table
    is as it was.  So when no request is rejected and the handles in use
    were all handed out by the counter, the table is back to what it was
    once [handleUpload] has returned. *)
Theorem intervals_of_upload (c : Client) (events : list Event) :
  (forall k u h,
      activations (handleUpload regexp props c) !! k = Some (Awaiting u h) ->
      intervals (client (run network (handleUpload regexp props c) events)) !! h
      = if kept network (activations (run network (handleUpload regexp props c) events)) k
        then Some (id u) else None)
  /\ (forall h,
        (forall k u, activations (handleUpload regexp props c) !! k
                     <> Some (Awaiting u h)) ->
        intervals (client (run network (handleUpload regexp props c) events)) !! h
        = intervals c !! h)
  /\ ((forall h, is_Some (intervals c !! h) -> (h < nextHandle c)%nat) ->
      (forall k, exists response, network k = Fulfilled response) ->
      promise (run network (handleUpload regexp props c) events) = Resolved ->
      intervals (client (run network (handleUpload regexp props c) events)) = intervals c).
Proof.
  destruct (handleUpload_handles c) as (Hin & Hout & Hdis).
  set (started := handleUpload regexp props c) in *.
  assert (Ev : forall evs, evolved network (activations started)
                             (activations (run network started evs)))
    by (intros evs; apply evolved_run, evolved_refl).
  assert (Both : forall evs,
             (forall k u h,
                 activations started !! k = Some (Awaiting u h) ->
                 intervals (client (run network started evs)) !! h
                 = if kept network (activations (run network started evs)) k
                   then Some (id u) else None)
             /\ (forall h,
                   (forall k u, activations started !! k <> Some (Awaiting u h)) ->
                   intervals (client (run network started evs)) !! h = intervals c !! h)).
  { intros evs. induction evs as [|ev evs IH] using rev_ind.
    - split; [|exact Hout]. intros k u h H. unfold run. simpl.
      unfold kept. rewrite H. apply Hin in H. tauto.
    - rewrite run_snoc.
      pose proof (Ev evs) as [_ E].
      set (r := run network started evs) in *.
      destruct IH as [I1 I2].
      destruct (step_cases r ev)
        as [->|[(t & _ & _ & -> & _ & ->)
               |(k0 & u0 & h0 & _ & Ek & -> & -> & _)]];
        [split; assumption | split; assumption |].
      assert (S0 : activations started !! k0 = Some (Awaiting u0 h0)).
      { destruct (E k0) as [Same|(u' & h' & _ & R)]; congruence. }
      assert (Hlt : (k0 < length (activations r))%nat) by (apply lookup_lt_Some in Ek; exact Ek).
      split.
      + intros k u h H. destruct (decide (k = k0)) as [->|Hk].
        * rewrite S0 in H. injection H as <- <-.
          unfold kept. rewrite list_lookup_insert_eq by exact Hlt.
          specialize (I1 k0 u0 h0 S0). unfold kept in I1. rewrite Ek in I1.
          destruct (network k0); [apply lookup_delete_eq | exact I1].
        * assert (Hh : h <> h0) by (intros ->; apply Hk, (Hdis k k0 u u0 h0 H S0)).
          unfold kept. rewrite list_lookup_insert_ne by congruence.
          specialize (I1 k u h H). unfold kept in I1.
          destruct (network k0); [rewrite lookup_delete_ne by congruence|]; exact I1.
      + intros h Hnot.
        assert (Hh : h <> h0) by (intros ->; apply (Hnot k0 u0 S0)).
        destruct (network k0); [rewrite lookup_delete_ne by congruence|]; apply I2, Hnot. }
  split; [apply Both|]. split; [apply Both|].
  intros Hfresh Hok P. apply map_eq. intros h.
  destruct (Both events) as [B1 B2].
  assert (Dec : (exists k u, activations started !! k = Some (Awaiting u h))
                \/ (forall k u, activations started !! k <> Some (Awaiting u h))).
  { generalize (activations started). intros acts.
    induction acts as [|a acts [(k & u & H)|H]].
    - right. intros k u H. destruct k; discriminate H.
    - left. exists (S k), u. exact H.
    - destruct a as [x|e|u h'].
      + right. intros [|k] u; [discriminate | apply H].
      + right. intros [|k] u; [discriminate | apply H].
      + destruct (decide (h' = h)) as [->|Hne].
        * left. exists 0%nat, u. reflexivity.
        * right. intros [|k] v; [simpl; congruence | apply H]. }
  destruct Dec as [(k & u & H)|H]; [|apply B2, H].
  rewrite (B1 k u h H).
  assert (Hnone : intervals c !! h = None).
  { destruct (intervals c !! h) eqn:L; [|reflexivity].
    assert (h < nextHandle c)%nat by (apply Hfresh; eauto).
    apply Hin in H as [H _]. lia. }
  rewrite Hnone.
  assert (R : exists x, activations (run network started events) !! k = Some (Returned x)).
  { destruct (pendingFiles c) as [|u0 rest0] eqn:Sel.
    - exfalso. unfold started, handleUpload in H. rewrite Sel in H.
      destruct k; discriminate H.
    - destruct (handleUpload_started regexp props c) as (_ & _ & _ & Hs).
      assert (S : surfaced c (run network started events))
        by (apply surfaced_run, Hs; rewrite Sel; discriminate).
      unfold surfaced in S. rewrite P in S. destruct S as (results & A & _).
      apply allReturned_lookup in A as [N A].
      assert (Hk : (k < length results)%nat).
      { rewrite N, run_length. apply lookup_lt_Some in H. exact H. }
      destruct (lookup_lt_is_Some_2 _ _ Hk) as [x Hx].
      exists x. rewrite A, Hx. reflexivity. }
  destruct R as (x & R). unfold kept. rewrite R.
  destruct (Hok k) as (response & ->). reflexivity.
Qed.

(** ** The accepted types of the page *)

Lemma validateFile_star f :
  filtering (acceptedTypes props) = false ->
  exists verdict, validateFile regexp props f = inr verdict.
Proof.
  intros Hf. unfold validateFile. rewrite Hf.
  destruct (size f >? _)%Z; eauto.
Qed.

Lemma mapUploadFile_never_throws selected (c : Client) :
  filtering (acceptedTypes props) = false ->
  firstThrown (snd (mapUploadFile regexp props selected c)) = None.
Proof.
  intros Hf. revert c. induction selected as [|u rest IH]; intros c; simpl; [reflexivity|].
  assert (U : forall e, snd (uploadFile regexp props u c) <> Threw e).
  { intros e. unfold uploadFile.
    destruct (validateFile_star (file u) Hf) as (verdict & ->).
    destruct verdict as [rule|]; [destruct (truthy rule)|]; simpl; discriminate. }
  destruct (uploadFile regexp props u c) as [c1 a]. simpl in U.
  specialize (IH c1).
  destruct (mapUploadFile regexp props rest c1) as [c2 others]. simpl in *.
  destruct a as [x|e|v h]; [exact IH | destruct (U e eq_refl) | exact IH].
Qed.

(** X15.  When the first accepted type is ["*"], as it is by default and
    on the page, no validation throws: [handleUpload] is never rejected,
    and it has returned as soon as every request it made has been
    answered. *)
Theorem star_always_returns (c : Client) (events : list Event) :
  filtering (acceptedTypes props) = false ->
  (forall e, promise (run network (handleUpload regexp props c) events) <> Failed e)
  /\ ((forall k u h,
          activations (handleUpload regexp props c) !! k = Some (Awaiting u h) ->
          In (Settle k) events) ->
      promise (run network (handleUpload regexp props c) events) = Resolved).
Proof.
  intros Hf.
  destruct (handleUpload_started regexp props c) as (_ & _ & Hempty & Hsurf).
  assert (T : firstThrown (activations (handleUpload regexp props c)) = None).
  { unfold handleUpload. destruct (pendingFiles c) as [|u rest]; [reflexivity|].
    pose proof (mapUploadFile_never_throws (u :: rest) (setIsUploading true c) Hf) as M.
    destruct (mapUploadFile regexp props (u :: rest) (setIsUploading true c)) as [c1 acts].
    rewrite settle_activations. exact M. }
  set (started := handleUpload regexp props c) in *.
  destruct (pendingFiles c) as [|u0 rest0] eqn:Sel.
  { assert (P : promise (run network started events) = Resolved)
      by (apply run_resolved, Hempty; reflexivity).
    rewrite P. split; [discriminate | reflexivity]. }
  assert (S : surfaced c (run network started events))
    by (apply surfaced_run, Hsurf; discriminate).
  unfold surfaced in S. split.
  - intros e P. rewrite P in S. rewrite run_no_throw in S. contradiction.
  - intros Hall.
    destruct (allReturned_complete (activations (run network started events)))
      as (results & A).
    { intros k Hk. rewrite run_length in Hk.
      destruct (lookup_lt_is_Some_2 _ _ Hk) as [[x|e|u' h] E].
      - exists x. apply run_keeps_returned, E.
      - rewrite firstThrown_lookup in T. destruct (T k e E).
      - apply run_settles; [exact T | exact Hk | apply (Hall k u' h E)]. }
    destruct (promise (run network started events)) as [| |e]; [|reflexivity|].
    + destruct S as (S & _). congruence.
    + rewrite run_no_throw in S. contradiction.
Qed.

End Lists.

Lemma isUploading_follows_witness :
  isUploading (client (run firstRejected (handleUpload literalMatch defaultProps mixed)
                         [Tick 1; Settle 0])) = false
  /\ isUploading (client (run firstRejected
                            (handleUpload literalMatch imagesOnly
                               (queue [task "n" (mkFile "notes.pdf" 1024 "application/pdf")]))
                            [Tick 1; Settle 0])) = true.
Proof.
  split.
  - apply (proj1 (isUploading_follows literalMatch defaultProps firstRejected mixed
                    [Tick 1; Settle 0])).
    discriminate.
  - apply (proj1 (isUploading_follows literalMatch imagesOnly firstRejected
                    (queue [task "n" (mkFile "notes.pdf" 1024 "application/pdf")])
                    [Tick 1; Settle 0])).
    discriminate.
Defined.

Lemma ids_are_kept_witness :
  files (client (run firstRejected cleared [Tick 1; Settle 0; Tick 2; Settle 1])) = [].
Proof.
  apply (proj2 (proj2 (ids_are_kept literalMatch defaultProps firstRejected initial cleared
                         [Tick 1; Settle 0; Tick 2; Settle 1]))).
  reflexivity.
Defined.

Lemma progress_is_percent_witness :
  Forall percent
    (files (client (run firstRejected (handleUpload literalMatch defaultProps mixed)
                      [Tick 1; Settle 0]))).
Proof.
  apply (progress_is_percent literalMatch defaultProps firstRejected mixed [Tick 1; Settle 0]).
  repeat constructor; simpl; lia.
Defined.

Lemma intervals_of_upload_witness :
  intervals (client (run allAnswered (handleUpload literalMatch defaultProps twoPictures)
                       [Settle 1; Tick 1; Settle 0])) = ∅.
Proof.
  apply (proj2 (proj2 (intervals_of_upload literalMatch defaultProps allAnswered twoPictures
                         [Settle 1; Tick 1; Settle 0]))).
  - intros h [t H]. simpl in H. rewrite lookup_empty in H. discriminate H.
  - intros k. eexists. reflexivity.
  - vm_compute. reflexivity.
Defined.

Lemma star_always_returns_witness :
  promise (run firstRejected (handleUpload literalMatch defaultProps mixed) [Settle 0])
  = Resolved.
Proof.
  apply (proj2 (star_always_returns literalMatch defaultProps firstRejected mixed [Settle 0]
                  eq_refl)).
  intros [|[|k]] u h; vm_compute; intros E; try discriminate E.
  left. reflexivity.
Defined.

End UploadFacts.

(* ================================================================== *)
(** * The upload queue: an upload among the user's other actions *)
(* ================================================================== *)

Module SessionFacts.
Import JS Uploader Tasks Runs Queue Session TaskFacts RunFacts UploadFacts.

Section Sessions.

Variable regexp : string -> string -> MatchOutcome.
Variable props : FileUploaderProps.
Variable network : nat -> FetchOutcome.

Lemma perform_snoc r actions a :
  perform network r (actions ++ [a]) = act network (perform network r actions) a.
Proof. unfold perform. rewrite fold_left_app. reflexivity. Qed.

(** A run of timer firings and answers is a session without the user. *)
Lemma perform_deliver r events :
  perform network r (map Deliver events) = run network r events.
Proof.
  unfold perform, run. revert r.
  induction events as [|ev events IH]; intros r; simpl; [reflexivity | apply IH].
Qed.

(** An action is an event of the loop, or it leaves everything but the
    list as it was. *)
Lemma act_cases r a :
  (exists ev, a = Deliver ev /\ act network r a = step network r ev)
  \/ ((forall ev, a <> Deliver ev)
      /\ activations (act network r a) = activations r
      /\ promise (act network r a) = promise r
      /\ fetched (client (act network r a)) = fetched (client r)
      /\ toasts (client (act network r a)) = toasts (client r)
      /\ completed (client (act network r a)) = completed (client r)).
Proof.
  destruct a as [ev|[picked|]|taskId|]; [left; eauto | | | |];
    right; (split; [discriminate|]); repeat split.
Qed.

(** ** What the calls are given to start with *)

Lemma validateFile_truthy f rule :
  validateFile regexp props f = inr (Some rule) -> truthy rule = true.
Proof.
  unfold validateFile.
  destruct (size f >? _)%Z; [intros H; injection H as <-; reflexivity|].
  destruct (filtering _); [|discriminate].
  destruct (some _ _ _) as [e|[|]]; try discriminate.
  intros H. injection H as <-. reflexivity.
Qed.

Lemma uploadFile_submission (u : UploadedFile) (c : Client) :
  submission regexp props u (snd (uploadFile regexp props u c))
  /\ fetched (fst (uploadFile regexp props u c))
     = fetched c ++ (if accepted regexp props u then [file u] else [])
  /\ (accepted regexp props u = false -> fst (uploadFile regexp props u c) = c).
Proof.
  unfold submission, accepted, uploadFile.
  destruct (validateFile regexp props (file u)) as [e|[rule|]] eqn:V; simpl.
  - rewrite app_nil_r. repeat split.
  - rewrite (validateFile_truthy _ _ V). simpl. rewrite app_nil_r. repeat split.
  - split; [eauto|]. split; [reflexivity | discriminate].
Qed.

Lemma mapUploadFile_submission (selected : list UploadedFile) (c : Client) :
  Forall2 (submission regexp props) selected (snd (mapUploadFile regexp props selected c))
  /\ fetched (fst (mapUploadFile regexp props selected c))
     = fetched c ++ map file (List.filter (accepted regexp props) selected)
  /\ (Forall (fun u => accepted regexp props u = false) selected ->
      fst (mapUploadFile regexp props selected c) = c).
Proof.
  revert c. induction selected as [|u rest IH]; intros c; simpl.
  - rewrite app_nil_r. repeat split. constructor.
  - destruct (uploadFile_submission u c) as (S & Hf & Hc).
    destruct (uploadFile regexp props u c) as [c1 a]. simpl in S, Hf, Hc.
    destruct (IH c1) as (F & Hf' & Hc').
    destruct (mapUploadFile regexp props rest c1) as [c2 others]. simpl in *.
    split; [constructor; assumption|]. split.
    + rewrite Hf', Hf, <- List.app_assoc.
      destruct (accepted regexp props u); reflexivity.
    + intros H. inversion H as [|? ? Hu Hrest]; subst.
      rewrite (Hc' Hrest). apply Hc, Hu.
Qed.

Lemma submission_startOf u a : submission regexp props u a -> startOf u a.
Proof.
  unfold submission, startOf, refused.
  destruct (validateFile regexp props (file u)) as [e|[rule|]]; eauto.
Qed.

Lemma handleUpload_submission (c : Client) :
  Forall2 (submission regexp props) (pendingFiles c)
          (activations (handleUpload regexp props c))
  /\ fetched (client (handleUpload regexp props c))
     = fetched c ++ map file (List.filter (accepted regexp props) (pendingFiles c)).
Proof.
  unfold handleUpload.
  destruct (pendingFiles c) as [|u rest] eqn:Sel.
  - simpl. rewrite app_nil_r. split; [constructor | reflexivity].
  - pose proof (mapUploadFile_submission (u :: rest) (setIsUploading true c)) as (F & Hf & _).
    destruct (mapUploadFile regexp props (u :: rest) (setIsUploading true c)) as [c1 acts].
    rewrite settle_activations, settle_fetched. split; [exact F | exact Hf].
Qed.

(** A call that has returned at once is one whose file validation turned
    away. *)
Lemma submission_returned selected acts results :
  Forall2 (submission regexp props) selected acts ->
  allReturned acts = Some results ->
  Forall (fun u => accepted regexp props u = false) selected.
Proof.
  intros F. revert results.
  induction F as [|u a us others S _ IH]; intros results A; [constructor|].
  simpl in A. destruct a as [x|e|v h]; try discriminate A.
  destruct (allReturned others) as [rs|] eqn:A'; [|discriminate A].
  constructor; [|apply (IH rs eq_refl)].
  unfold submission in S. unfold accepted.
  destruct (validateFile regexp props (file u)) as [e|[rule|]]; try reflexivity.
  destruct S as (h & S). discriminate S.
Qed.

(** ** What a session does to the calls *)

Lemma evolved_act before r a :
  evolved network before (activations r) ->
  evolved network before (activations (act network r a)).
Proof.
  intros E. destruct (act_cases r a) as [(ev & _ & ->)|(_ & -> & _)]; [|exact E].
  apply evolved_step, E.
Qed.

Lemma evolved_perform before r actions :
  evolved network before (activations r) ->
  evolved network before (activations (perform network r actions)).
Proof.
  intros E. induction actions as [|a actions IH] using rev_ind; [exact E|].
  rewrite perform_snoc. apply evolved_act, IH.
Qed.

Lemma surfaced_act c r a : surfaced c r -> surfaced c (act network r a).
Proof.
  intros S.
  destruct (act_cases r a) as [(ev & _ & ->)|(_ & Ha & Hp & _ & Ht & Hc)];
    [apply surfaced_step, S|].
  unfold surfaced in *. rewrite Hp, Ha, Ht, Hc. exact S.
Qed.

Lemma surfaced_perform c r actions :
  surfaced c r -> surfaced c (perform network r actions).
Proof.
  intros S. induction actions as [|a actions IH] using rev_ind; [exact S|].
  rewrite perform_snoc. apply surfaced_act, IH.
Qed.

Lemma perform_fetched r actions :
  fetched (client (perform network r actions)) = fetched (client r).
Proof.
  induction actions as [|a actions IH] using rev_ind; [reflexivity|].
  rewrite perform_snoc.
  destruct (act_cases (perform network r actions) a)
    as [(ev & _ & ->)|(_ & _ & _ & -> & _)]; [rewrite step_fetched|]; exact IH.
Qed.

Lemma perform_no_throw r actions :
  firstThrown (activations (perform network r actions)) = firstThrown (activations r).
Proof.
  induction actions as [|a actions IH] using rev_ind; [reflexivity|].
  rewrite perform_snoc.
  destruct (act_cases (perform network r actions) a)
    as [(ev & _ & ->)|(_ & -> & _)]; [rewrite step_no_throw|]; exact IH.
Qed.

Lemma perform_length r actions :
  length (activations (perform network r actions)) = length (activations r).
Proof.
  induction actions as [|a actions IH] using rev_ind; [reflexivity|].
  rewrite perform_snoc.
  destruct (act_cases (perform network r actions) a)
    as [(ev & _ & ->)|(_ & -> & _)]; [rewrite step_length|]; exact IH.
Qed.

Lemma act_keeps_returned r a k x :
  activations r !! k = Some (Returned x) ->
  activations (act network r a) !! k = Some (Returned x).
Proof.
  intros H. destruct (act_cases r a) as [(ev & _ & ->)|(_ & -> & _)]; [|exact H].
  apply step_keeps_returned, H.
Qed.

Lemma perform_keeps_returned r actions k x :
  activations r !! k = Some (Returned x) ->
  activations (perform network r actions) !! k = Some (Returned x).
Proof.
  intros H. induction actions as [|a actions IH] using rev_ind; [exact H|].
  rewrite perform_snoc. apply act_keeps_returned, IH.
Qed.

Lemma perform_settles r actions k :
  firstThrown (activations r) = None -> k < length (activations r) ->
  In (Deliver (Settle k)) actions ->
  exists x, activations (perform network r actions) !! k = Some (Returned x).
Proof.
  intros T Hk. induction actions as [|a actions IH] using rev_ind; [intros []|].
  intros Hin. rewrite perform_snoc.
  apply in_app_or in Hin as [Hin|[->|[]]].
  - destruct (IH Hin) as (x & E). exists x. apply act_keeps_returned, E.
  - simpl. apply step_settles;
      [rewrite perform_no_throw; exact T | rewrite perform_length; exact Hk].
Qed.

(** A call leaves its suspension only when its answer is delivered. *)
Lemma perform_answered r actions k u h x :
  activations r !! k = Some (Awaiting u h) ->
  activations (perform network r actions) !! k = Some (Returned x) ->
  In (Deliver (Settle k)) actions.
Proof.
  intros H0. induction actions as [|a actions IH] using rev_ind.
  - simpl. intros H. rewrite H0 in H. discriminate H.
  - rewrite perform_snoc. intros H. apply in_or_app.
    destruct (act_cases (perform network r actions) a)
      as [(ev & -> & E)|(_ & E & _)]; rewrite E in H.
    + destruct (step_activations network (perform network r actions) ev)
        as [Same|(j & v & g & -> & _ & Ins)].
      * rewrite Same in H. left. apply IH, H.
      * rewrite Ins in H. destruct (decide (k = j)) as [->|Hne].
        -- right. left. reflexivity.
        -- rewrite list_lookup_insert_ne in H by congruence. left. apply IH, H.
    + left. apply IH, H.
Qed.

Lemma act_resolved r a : promise r = Resolved -> promise (act network r a) = Resolved.
Proof.
  intros P. destruct (act_cases r a) as [(ev & _ & ->)|(_ & _ & -> & _)]; [|exact P].
  apply step_resolved, P.
Qed.

Lemma perform_resolved r actions :
  promise r = Resolved -> promise (perform network r actions) = Resolved.
Proof.
  intros P. induction actions as [|a actions IH] using rev_ind; [exact P|].
  rewrite perform_snoc. apply act_resolved, IH.
Qed.

(** ** The results *)

Lemma results_settled selected started final results :
  Forall2 (submission regexp props) selected started ->
  evolved network started final ->
  allReturned final = Some results ->
  imap (settled regexp props network) selected = map Some results.
Proof.
  intros F [L K] A.
  apply allReturned_lookup in A as [N A].
  apply list_eq. intros k.
  rewrite list_lookup_imap. change (map Some results) with (Some <$> results).
  rewrite list_lookup_fmap.
  specialize (A k).
  destruct (selected !! k) as [u|] eqn:Hu; simpl.
  - destruct (Forall2_lookup_l _ _ _ _ _ F Hu) as (a & Ha & S).
    unfold submission in S. unfold settled.
    destruct (K k) as [Same|(u' & h & B & R)].
    + rewrite A, Ha in Same.
      destruct (results !! k) as [x|]; [|discriminate Same].
      simpl in Same. injection Same as <-.
      destruct (validateFile regexp props (file u)) as [e|[rule|]];
        [discriminate S | injection S as ->; reflexivity | destruct S as (g & S); discriminate S].
    + rewrite A in R. rewrite Ha in B. injection B as -> .
      destruct (results !! k) as [x|]; [|discriminate R].
      simpl in R. injection R as ->.
      destruct (validateFile regexp props (file u)) as [e|[rule|]];
        [discriminate S | discriminate S | destruct S as (g & S); injection S as <- _; reflexivity].
  - apply Forall2_length in F.
    assert (Hk : results !! k = None).
    { apply lookup_ge_None. apply lookup_ge_None in Hu. lia. }
    rewrite Hk. reflexivity.
Qed.

Lemma terminalFor_ids selected results :
  Forall2 terminalFor selected results -> map id results = map id selected.
Proof.
  induction 1 as [|u r us rs (E & _) _ IH]; simpl; [reflexivity|].
  rewrite E, IH. reflexivity.
Qed.

Lemma terminalFor_all selected results :
  Forall2 terminalFor selected results -> Forall terminal results.
Proof.
  induction 1 as [|u r us rs (_ & _ & T) _ IH]; constructor; assumption.
Qed.

(** Once the results are written into the list, every task of the list
    that has the id of a selected task is one of the results. *)
Lemma merged_selected selected results l f :
  Forall2 terminalFor selected results ->
  In f (map (merged results) l) -> In (id f) (map id selected) -> terminal f.
Proof.
  intros T Hf Hid.
  apply in_map_iff in Hf as (f0 & <- & _).
  rewrite merged_id in Hid.
  destruct (merged_In results f0) as [(r & Hr & _ & ->)|(Hno & _)].
  - pose proof (terminalFor_all _ _ T) as A.
    rewrite List.Forall_forall in A. apply A, Hr.
  - exfalso. rewrite <- (terminalFor_ids _ _ T) in Hid.
    apply in_map_iff in Hid as (r & Hr & Hin). apply (Hno r Hin Hr).
Qed.

(** C7.  [handleUpload] selects the tasks that are pending and calls
    [uploadFile] once for each, in order; what becomes of the call is
    decided by [validateFile] alone: the file of every task that passes
    is sent, and all these requests are out before anything else can
    happen, no request is made later.  Whatever the user and the event
    loop do in the meantime (timer firings, answers in any order, files
    added, tasks removed, the list cleared), [handleUpload] has returned
    only if the answer to every request it made has been delivered; its
    results are then, task by task, the refusal of validation or what
    the answer to the task's request makes of it, so they do not depend
    on the order of the answers, each is in status success or error, and
    the two counts add up to the number of selected tasks; the counts
    have been shown in the toasts and the results handed to
    [onUploadComplete].  At the moment [handleUpload] returns, be it at
    once or on the last answer, the results are written into the list,
    so that every task of the list with the id of a selected task is in
    status success or error.  When no validation throws and the answer
    to every request is delivered, [handleUpload] does return. *)
Theorem handleUpload_settles_all (c : Client) (actions : list Action) :
  (forall u, In u (pendingFiles c) <-> In u (files c) /\ status u = pending)
  /\ Forall2 (submission regexp props) (pendingFiles c)
             (activations (handleUpload regexp props c))
  /\ fetched (client (handleUpload regexp props c))
     = fetched c ++ map file (List.filter (accepted regexp props) (pendingFiles c))
  /\ fetched (client (during regexp props network c actions))
     = fetched (client (handleUpload regexp props c))
  /\ (promise (during regexp props network c actions) = Resolved ->
      exists results,
        allReturned (activations (during regexp props network c actions)) = Some results
        /\ imap (settled regexp props network) (pendingFiles c) = map Some results
        /\ Forall2 terminalFor (pendingFiles c) results
        /\ (successCount results + errorCount results = length (pendingFiles c))%nat
        /\ (pendingFiles c <> [] ->
            completed (client (during regexp props network c actions))
            = completed c ++ [results]
            /\ toasts (client (during regexp props network c actions))
               = toasts c ++ summary results)
        /\ (forall k u,
              pendingFiles c !! k = Some u -> accepted regexp props u = true ->
              In (Deliver (Settle k)) actions))
  /\ (forall a,
        promise (during regexp props network c actions) = Unsettled ->
        promise (during regexp props network c (actions ++ [a])) = Resolved ->
        exists results,
          allReturned (activations (during regexp props network c (actions ++ [a])))
          = Some results
          /\ files (client (during regexp props network c (actions ++ [a])))
             = map (merged results) (files (client (during regexp props network c actions)))
          /\ forall f,
               In f (files (client (during regexp props network c (actions ++ [a])))) ->
               In (id f) (selectedIds c) -> terminal f)
  /\ (pendingFiles c <> [] ->
      promise (handleUpload regexp props c) = Resolved ->
      exists results,
        allReturned (activations (handleUpload regexp props c)) = Some results
        /\ files (client (handleUpload regexp props c)) = map (merged results) (files c)
        /\ forall f,
             In f (files (client (handleUpload regexp props c))) ->
             In (id f) (selectedIds c) -> terminal f)
  /\ ((forall u e, In u (pendingFiles c) -> validateFile regexp props (file u) <> inl e) ->
      (forall k u,
          pendingFiles c !! k = Some u -> accepted regexp props u = true ->
          In (Deliver (Settle k)) actions) ->
      promise (during regexp props network c actions) = Resolved).
Proof.
  destruct (handleUpload_submission c) as (F & Hf).
  assert (F' : Forall2 startOf (pendingFiles c) (activations (handleUpload regexp props c)))
    by (apply (Forall2_impl _ _ _ _ F); apply submission_startOf).
  destruct (handleUpload_started regexp props c) as (_ & _ & Hempty & Hsurf).
  unfold during.
  set (started := handleUpload regexp props c) in *.
  assert (Ev : forall acts, evolved network (activations started)
                              (activations (perform network started acts)))
    by (intros acts; apply evolved_perform, evolved_refl).
  assert (Res : forall acts results,
             allReturned (activations (perform network started acts)) = Some results ->
             Forall2 terminalFor (pendingFiles c) results).
  { intros acts results A. apply (results_terminal _ _ _ _ _ F' (Ev acts) A). }
  assert (All : forall acts,
             promise (perform network started acts) = Resolved ->
             exists results,
               allReturned (activations (perform network started acts)) = Some results
               /\ (pendingFiles c <> [] ->
                   completed (client (perform network started acts)) = completed c ++ [results]
                   /\ toasts (client (perform network started acts))
                      = toasts c ++ summary results)).
  { intros acts P. destruct (pendingFiles c) as [|u rest] eqn:Sel.
    - exists []. split; [|congruence].
      pose proof (perform_length started acts) as L.
      apply Forall2_length in F. rewrite <- F in L.
      destruct (activations (perform network started acts)); [reflexivity | discriminate L].
    - assert (S : surfaced c (perform network started acts))
        by (apply surfaced_perform, Hsurf; discriminate).
      unfold surfaced in S. rewrite P in S. destruct S as (results & A & Hc & Ht).
      exists results. split; [exact A | intros _; split; assumption]. }
  assert (Awaited : forall k u,
             pendingFiles c !! k = Some u -> accepted regexp props u = true ->
             exists h, activations started !! k = Some (Awaiting u h)).
  { intros k u Hu Hacc.
    destruct (Forall2_lookup_l _ _ _ _ _ F Hu) as (a & Ha & S).
    unfold submission in S. unfold accepted in Hacc.
    destruct (validateFile regexp props (file u)) as [e|[rule|]]; try discriminate Hacc.
    destruct S as (h & ->). eauto. }
  split.
  { intros u. unfold pendingFiles. rewrite filter_In.
    destruct (status u); simpl; split; intros [H1 H2]; split;
      try assumption; try reflexivity; discriminate. }
  split; [exact F|]. split; [exact Hf|]. split; [apply perform_fetched|].
  split; [|split; [|split]].
  - intros P. destruct (All actions P) as (results & A & Shown).
    exists results. pose proof (Res actions results A) as T.
    split; [exact A|].
    split; [apply (results_settled _ _ _ _ F (Ev actions) A)|].
    split; [exact T|]. split.
    { rewrite (Forall2_length _ _ _ T). apply counts_add_up.
      clear -T. induction T as [|u r us rs (_ & _ & H) _ IH]; constructor; assumption. }
    split; [exact Shown|].
    intros k u Hu Hacc. destruct (Awaited k u Hu Hacc) as (h & Hk).
    apply allReturned_lookup in A as [N A]. specialize (A k).
    assert (Hlt : (k < length results)%nat).
    { rewrite N, perform_length. apply lookup_lt_Some in Hk. exact Hk. }
    destruct (lookup_lt_is_Some_2 _ _ Hlt) as [x Hx]. rewrite Hx in A.
    apply (perform_answered started actions k u h x Hk A).
  - intros a P0 P1. rewrite perform_snoc in P1 |- *.
    set (r := perform network started actions) in *.
    assert (E : evolved network (activations started) (activations (act network r a))).
    { pose proof (Ev (actions ++ [a])) as E. rewrite perform_snoc in E. exact E. }
    destruct (act_cases r a) as [(ev & _ & Hact)|(_ & _ & Hp & _)];
      [|rewrite Hp, P0 in P1; discriminate P1].
    rewrite Hact in P1, E |- *.
    destruct (step_cases network r ev)
      as [Same|[(t & _ & Hp & _)
               |(k & u & h & _ & _ & _ & _
                 & [(_ & _ & [Hp|(_ & e & Hp)])|(_ & _ & _ & results & A & Hfiles)])]];
      try (rewrite Hp in P1; rewrite ?P0 in P1; discriminate P1).
    + rewrite Same, P0 in P1. discriminate P1.
    + exists results. split; [exact A|]. split; [exact Hfiles|].
      intros f Hin Hid. rewrite Hfiles in Hin.
      refine (merged_selected (pendingFiles c) results _ f _ Hin Hid).
      apply (results_terminal _ _ _ _ _ F' E A).
  - intros Hne P. revert F F' P. subst started. unfold handleUpload.
    destruct (pendingFiles c) as [|u rest] eqn:Sel; [contradiction|].
    pose proof (mapUploadFile_submission (u :: rest) (setIsUploading true c)) as (_ & _ & Hc).
    destruct (mapUploadFile regexp props (u :: rest) (setIsUploading true c)) as [c1 acts].
    simpl in Hc. rewrite settle_activations. cbn [activations]. intros F F'.
    unfold settle. cbn [promise activations client].
    destruct (firstThrown acts); [discriminate|].
    destruct (allReturned acts) as [results|] eqn:A; [|discriminate].
    cbn [promise activations client]. intros _.
    exists results. split; [reflexivity|].
    rewrite (Hc (submission_returned _ _ _ F A)).
    rewrite afterAll_files. split; [reflexivity|].
    intros f Hin Hid. unfold selectedIds in Hid. rewrite Sel in Hid.
    refine (merged_selected (u :: rest) results _ f _ Hin Hid).
    apply (results_terminal network _ acts acts _ F' (evolved_refl network acts) A).
  - intros Hv Hall.
    assert (T : firstThrown (activations started) = None).
    { apply firstThrown_lookup. intros k e Hk.
      destruct (Forall2_lookup_r _ _ _ _ _ F Hk) as (u & Hu & S).
      unfold submission in S.
      destruct (validateFile regexp props (file u)) as [e'|[rule|]] eqn:V;
        [|discriminate S | destruct S as (h & S); discriminate S].
      apply (Hv u e').
      - apply list_elem_of_In, list_elem_of_lookup. eauto.
      - exact V. }
    destruct (pendingFiles c) as [|u0 rest0] eqn:Sel.
    { apply perform_resolved, Hempty. reflexivity. }
    assert (S : surfaced c (perform network started actions))
      by (apply surfaced_perform, Hsurf; discriminate).
    destruct (allReturned_complete (activations (perform network started actions)))
      as (results & A).
    { intros k Hk. rewrite perform_length in Hk.
      destruct (lookup_lt_is_Some_2 _ _ Hk) as [[x|e|u' h] E].
      - exists x. apply perform_keeps_returned, E.
      - rewrite firstThrown_lookup in T. destruct (T k e E).
      - apply perform_settles; [exact T | exact Hk |].
        destruct (Forall2_lookup_r _ _ _ _ _ F E) as (u & Hu & Sub).
        apply (Hall k u Hu).
        unfold submission in Sub. unfold accepted.
        destruct (validateFile regexp props (file u)) as [e'|[rule|]];
          [discriminate Sub | discriminate Sub | reflexivity]. }
    unfold surfaced in S.
    destruct (promise (perform network started actions)) as [| |e]; [|reflexivity|].
    + destruct S as (S & _). congruence.
    + rewrite perform_no_throw in S. contradiction.
Qed.

(** X13.  When no task is uploading as [handleUpload] is called and
    nothing happens from then on but timer firings and answers of the
    network (the user adds no file, removes no task and does not clear
    the list), then once [handleUpload] has returned the list is the list
    it was called with, each task that has the id of a result replaced by
    that result: the simulated progress has left no trace, tasks that
    were not selected are untouched, every task is in status success or
    error, none is pending, and later timer firings change nothing. *)
Theorem list_after_upload (c : Client) (events : list Event) :
  Forall idle (files c) ->
  promise (during regexp props network c (map Deliver events)) = Resolved ->
  exists results,
    allReturned (activations (during regexp props network c (map Deliver events)))
    = Some results
    /\ files (client (during regexp props network c (map Deliver events)))
       = map (merged results) (files c)
    /\ Forall terminal (files (client (during regexp props network c (map Deliver events))))
    /\ pendingCount (client (during regexp props network c (map Deliver events))) = 0%nat.
Proof.
  unfold during. rewrite perform_deliver. intros H0 P.
  assert (Count : forall l, Forall terminal l ->
                    length (List.filter (fun f => Status_eqb (status f) pending) l) = 0%nat).
  { induction 1 as [|f l [E|E] _ IH]; simpl; [reflexivity| |]; rewrite E; exact IH. }
  destruct (pendingFiles c) as [|u0 rest0] eqn:Sel.
  - destruct (nothing_pending regexp props network (fun l => l = files c) c events Sel eq_refl)
      as (F & _ & A & _).
    { intros t l ->. apply advance_idle, H0. }
    exists []. rewrite A, F.
    assert (M : map (merged []) (files c) = files c)
      by (rewrite <- (map_id (files c)) at 2; apply map_ext; reflexivity).
    assert (T : Forall terminal (files c)).
    { rewrite <- M. apply (merged_over regexp); [exact H0 | rewrite Sel; constructor]. }
    split; [reflexivity|]. split; [symmetry; exact M|]. split; [exact T|].
    unfold pendingCount. rewrite F. apply Count, T.
  - set (S := map id (pendingFiles c)).
    pose proof (files_in_two_phases regexp props network
                  (Forall2 (fun f0 f => id f = id f0 /\ (~ In (id f0) S -> f = f0)) (files c))
                  (fun results l => Forall2 resultOf (pendingFiles c) results
                                    /\ l = map (merged results) (files c))
                  c events) as Q.
    rewrite P in Q.
    destruct Q as (results & A & R & _ & F).
    + apply Forall2_same_length_lookup. split; [reflexivity|].
      intros k x y Hx Hy. rewrite Hx in Hy. injection Hy as <-. tauto.
    + intros u l Hu B. unfold dispatched. apply Forall2_fmap_r.
      apply (Forall2_impl _ _ _ _ B). intros f0 f [Hid Hsame]. unfold compose.
      destruct (String.eqb_spec (id f) (id u)) as [E|E]; simpl; [|tauto].
      split; [exact Hid|]. intros Hn. exfalso. apply Hn.
      rewrite <- Hid, E. apply in_map, Hu.
    + intros t l B. unfold advance. apply Forall2_fmap_r.
      assert (B' : Forall2 (fun f0 f => (id f = id f0 /\ (~ In (id f0) S -> f = f0))
                                        /\ idle f0) (files c) l).
      { apply Forall2_same_length_lookup. split; [apply (Forall2_length _ _ _ B)|].
        intros k x y Hx Hy. split.
        - apply (proj2 (proj1 (Forall2_same_length_lookup _ _ _) B) k x y Hx Hy).
        - rewrite List.Forall_forall in H0. apply H0.
          apply list_elem_of_In, list_elem_of_lookup. eauto. }
      apply (Forall2_impl _ _ _ _ B'). intros f0 f [[Hid Hsame] Hidle]. unfold compose.
      destruct (_ && _) eqn:E; simpl; [|tauto].
      split; [exact Hid|]. intros Hn. specialize (Hsame Hn). subst f.
      apply andb_prop in E as [E _]. apply andb_prop in E as [_ E].
      unfold idle in Hidle. destruct (status f0); try discriminate E. contradiction.
    + intros t results l [Rs ->]. split; [exact Rs|]. apply advance_idle.
      apply (Forall_impl _ _ _ (merged_over regexp c results H0 Rs)).
      intros f [E|E]; unfold idle; rewrite E; discriminate.
    + intros results l Rs B. split; [exact Rs|].
      pose proof (results_ids regexp _ _ Rs) as Ids. fold S in Ids.
      clear -B Ids. induction B as [|f0 f fs0 fs [Hid Hsame] _ IH]; simpl; [reflexivity|].
      rewrite IH. f_equal. unfold merged. rewrite Hid.
      destruct (List.find _ results) as [r|] eqn:E; [reflexivity|].
      apply Hsame. rewrite <- Ids. intros Hin.
      apply in_map_iff in Hin as (r & Hr & Hin).
      apply (find_none _ _ E) in Hin. apply String.eqb_neq in Hin. contradiction.
    + rewrite Sel. discriminate.
    + exists results. split; [exact A|]. split; [exact F|].
      assert (T : Forall terminal (map (merged results) (files c)))
        by (apply (merged_over regexp); assumption).
      rewrite F. split; [exact T|]. unfold pendingCount. rewrite F. apply Count, T.
Qed.

End Sessions.

(** A picture and a video over the limit are selected; a second picture is
    dropped on the zone while the one request is out, the interval fires,
    and the request is rejected. *)
Lemma handleUpload_settles_all_witness :
  promise (during literalMatch defaultProps firstRejected mixed
             [dropped; Deliver (Tick 1); Deliver (Settle 0)]) = Resolved
  /\ exists results,
       allReturned (activations (during literalMatch defaultProps firstRejected mixed
                                   [dropped; Deliver (Tick 1); Deliver (Settle 0)]))
       = Some results
       /\ imap (settled literalMatch defaultProps firstRejected) (pendingFiles mixed)
          = map Some results
       /\ (successCount results + errorCount results = length (pendingFiles mixed))%nat.
Proof.
  destruct (handleUpload_settles_all literalMatch defaultProps firstRejected mixed
              [dropped; Deliver (Tick 1); Deliver (Settle 0)])
    as (_ & _ & _ & _ & Results & _ & _ & Returns).
  assert (P : promise (during literalMatch defaultProps firstRejected mixed
                         [dropped; Deliver (Tick 1); Deliver (Settle 0)]) = Resolved).
  { apply Returns.
    - intros u e [<-|[<-|[]]]; vm_compute; discriminate.
    - intros [|[|k]] u E A; vm_compute in E; try discriminate E; injection E as <-.
      + right. right. left. reflexivity.
      + vm_compute in A. discriminate A. }
  split; [exact P|].
  destruct (Results P) as (results & A & S & _ & N & _).
  exists results. split; [exact A|]. split; [exact S | exact N].
Defined.

(** The same session, as the list shows it: the picture has failed with
    the message of the rejection, the video was turned away by
    validation, and the picture dropped in the meantime is pending. *)
Example added_while_uploading :
  map (fun f => (id f, status f, progress f, errorMessage f))
      (files (client (during literalMatch defaultProps firstRejected mixed
                        [dropped; Deliver (Tick 1); Deliver (Settle 0)])))
  = [ ("a", error, 0%Z, Some "Failed to fetch");
      ("b", error, 0%Z, Some "File exceeds 10MB limit");
      ("photo.png-1700000000000-i", pending, 0%Z, None) ]
  /\ pendingCount (client (during literalMatch defaultProps firstRejected mixed
                             [dropped; Deliver (Tick 1); Deliver (Settle 0)])) = 1%nat.
Proof. vm_compute. split; reflexivity. Qed.

Lemma list_after_upload_witness :
  pendingCount (client (during literalMatch defaultProps firstRejected mixed
                          (map Deliver [Tick 1; Settle 0]))) = 0%nat.
Proof.
  destruct (list_after_upload literalMatch defaultProps firstRejected mixed
              [Tick 1; Settle 0]) as (results & _ & _ & _ & N).
  - repeat constructor; unfold idle; simpl; discriminate.
  - vm_compute. reflexivity.
  - exact N.
Defined.

End SessionFacts.

(* ================================================================== *)
(** * The queue and the handler together *)
(* ================================================================== *)

Module EndToEnd.
Import JS.

(** X16.  A file the queue lets through under a limit of at most 10 MB,
    the limit of the page, is never answered 400 by the handler: it is
    within the handler's 10 MiB and within the [file_size_limit] of the
    bucket. *)
Theorem client_limit_agrees regexp props (f : File) w req fields :
  (Uploader.maxFileSize props <= 10)%Z ->
  Uploader.validateFile regexp props f = inr None ->
  Ingest.body req = Ingest.Multipart fields ->
  Ingest.get "file" fields = Some (Ingest.FilePart f) ->
  Ingest.status (fst (Ingest.serve w req)) <> 400%Z
  /\ (size f <= Ingest.maxSize)%Z
  /\ (size f <= Stored.file_size_limit)%Z.
Proof.
  intros Hmax V Hb Hg.
  assert (Hsz : (size f <= Ingest.maxSize)%Z).
  { unfold Uploader.validateFile in V. unfold Ingest.maxSize.
    destruct (Z.gtb_spec (size f) (Uploader.maxFileSize props * 1024 * 1024));
      [discriminate V | lia]. }
  split; [|split; [exact Hsz | exact Hsz]].
  unfold Ingest.serve, Ingest.tryBlock.
  destruct (String.eqb (Ingest.method req) "OPTIONS"); [discriminate|].
  destruct (Ingest.createClient _ _) as [e|url]; [discriminate|].
  rewrite Hb, Hg.
  destruct (Z.gtb_spec (size f) Ingest.maxSize) as [Hbig|_]; [lia|].
  destruct (Ingest.upload _ _ _ _ _ _) as [b [m|stored]]; discriminate.
Qed.

Lemma client_limit_agrees_witness :
  Ingest.status (fst (Ingest.serve (Requests.world Requests.half)
                        (Requests.post [("file", Ingest.FilePart Tasks.picture)])))
  <> 400%Z
  /\ (size Tasks.picture <= Ingest.maxSize)%Z
  /\ (size Tasks.picture <= Stored.file_size_limit)%Z.
Proof.
  apply (client_limit_agrees Uploader.literalMatch Uploader.defaultProps Tasks.picture
           (Requests.world Requests.half)
           (Requests.post [("file", Ingest.FilePart Tasks.picture)])
           [("file", Ingest.FilePart Tasks.picture)]).
  - simpl. lia.
  - reflexivity.
  - reflexivity.
  - reflexivity.
Defined.

End EndToEnd.
